(** * OpenVINSLI localization handler: a shallow embedding

    The development follows
    [applications/openvinsli/src/openvins-localization-handler.cc].
    C++ [double]s are read as real numbers, [size_t] counters as [nat],
    [int] and [int64_t] values as [Z].  A failed [CHECK] or a [LOG(FATAL)]
    aborts the process; this is the [Fatal] outcome.  A method runs from
    call to return without interleaving, so the mutexes do not appear. *)

From Stdlib Require Import Reals Lra ZArith List Bool Lia.
From Stdlib Require Import QArith Qround.
From Stdlib Require String.
Import ListNotations.

Local Open Scope R_scope.

(** ** Outcomes of code that may abort *)

Inductive outcome (A : Type) : Type :=
| Fatal : outcome A
| Ok : A -> outcome A.

Arguments Fatal {A}.
Arguments Ok {A} _.

Definition obind {A B : Type} (c : outcome A) (k : A -> outcome B) : outcome B :=
  match c with
  | Fatal => Fatal
  | Ok a => k a
  end.

Definition ocheck (b : bool) : outcome unit :=
  if b then Ok tt else Fatal.

(** ** Comparisons of doubles *)

Definition Rltb (a b : R) : bool := if Rlt_dec a b then true else false.
Definition Rleb (a b : R) : bool := if Rle_dec a b then true else false.

(** ** Eigen vectors, quaternions and rigid transformations *)

Module Geometry.

Record Vector2 : Type := mkVector2 { v2x : R; v2y : R }.
Record Vector3 : Type := mkVector3 { v3x : R; v3y : R; v3z : R }.

Definition v2_sub (a b : Vector2) : Vector2 :=
  mkVector2 (v2x a - v2x b) (v2y a - v2y b).
Definition v2_norm (a : Vector2) : R :=
  sqrt (v2x a * v2x a + v2y a * v2y a).

Definition v3_add (a b : Vector3) : Vector3 :=
  mkVector3 (v3x a + v3x b) (v3y a + v3y b) (v3z a + v3z b).
Definition v3_opp (a : Vector3) : Vector3 :=
  mkVector3 (- v3x a) (- v3y a) (- v3z a).
Definition v3_scale (k : R) (a : Vector3) : Vector3 :=
  mkVector3 (k * v3x a) (k * v3y a) (k * v3z a).
Definition v3_dot (a b : Vector3) : R :=
  v3x a * v3x b + v3y a * v3y b + v3z a * v3z b.
Definition v3_cross (a b : Vector3) : Vector3 :=
  mkVector3 (v3y a * v3z b - v3z a * v3y b)
            (v3z a * v3x b - v3x a * v3z b)
            (v3x a * v3y b - v3y a * v3x b).
Definition v3_squaredNorm (a : Vector3) : R := v3_dot a a.
Definition v3_norm (a : Vector3) : R := sqrt (v3_squaredNorm a).
Definition v3_zero : Vector3 := mkVector3 0 0 0.
Definition UnitZ : Vector3 := mkVector3 0 0 1.

(** Hamilton quaternion, scalar part [qw]. *)
Record Quaternion : Type := mkQuaternion { qw : R; qx : R; qy : R; qz : R }.

Definition q_identity : Quaternion := mkQuaternion 1 0 0 0.
Definition q_imaginary (q : Quaternion) : Vector3 :=
  mkVector3 (qx q) (qy q) (qz q).
Definition q_mul (a b : Quaternion) : Quaternion :=
  mkQuaternion
    (qw a * qw b - qx a * qx b - qy a * qy b - qz a * qz b)
    (qw a * qx b + qx a * qw b + qy a * qz b - qz a * qy b)
    (qw a * qy b - qx a * qz b + qy a * qw b + qz a * qx b)
    (qw a * qz b + qx a * qy b - qy a * qx b + qz a * qw b).
(** The inverse of a rotation quaternion is its conjugate. *)
Definition q_inverse (q : Quaternion) : Quaternion :=
  mkQuaternion (qw q) (- qx q) (- qy q) (- qz q).
Definition q_neg (q : Quaternion) : Quaternion :=
  mkQuaternion (- qw q) (- qx q) (- qy q) (- qz q).
(** [rotate q v = v + 2 w (u x v) + 2 u x (u x v)], with [u] the imaginary
    part of [q]. *)
Definition q_rotate (q : Quaternion) (v : Vector3) : Vector3 :=
  let u := q_imaginary q in
  let uv := v3_cross u v in
  v3_add v (v3_add (v3_scale (2 * qw q) uv) (v3_scale 2 (v3_cross u uv))).

(** [aslam::Transformation] / [pose::Transformation]: a rotation quaternion
    and a position. *)
Record Transformation : Type :=
  mkTransformation { getRotation : Quaternion; getPosition : Vector3 }.

Definition T_identity : Transformation := mkTransformation q_identity v3_zero.
Definition T_mul (a b : Transformation) : Transformation :=
  mkTransformation
    (q_mul (getRotation a) (getRotation b))
    (v3_add (getPosition a) (q_rotate (getRotation a) (getPosition b))).
Definition T_inverse (a : Transformation) : Transformation :=
  mkTransformation
    (q_inverse (getRotation a))
    (v3_opp (q_rotate (q_inverse (getRotation a)) (getPosition a))).
(** [T * p] for a point [p]. *)
Definition T_apply (a : Transformation) (p : Vector3) : Vector3 :=
  v3_add (q_rotate (getRotation a) p) (getPosition a).

End Geometry.
Import Geometry.

(** ** Data delivered to and kept by the handler *)

(** [vio::LocalizationResult]: the fields the handler reads.  A 3xN or 2xN
    Eigen matrix is the list of its columns, so [cols()] is [length]. *)
Record LocalizationResult : Type := mkLocalizationResult {
  timestamp_ns : Z;
  T_G_B : Transformation;
  G_landmarks_per_camera : list (list Vector3);
  keypoint_measurements_per_camera : list (list Vector2)
}.

(** [aslam::ProjectionResult::getDetailedStatus()]. *)
Inductive ProjectionStatus : Type :=
| KEYPOINT_VISIBLE
| KEYPOINT_OUTSIDE_IMAGE_BOX
| POINT_BEHIND_CAMERA
| PROJECTION_INVALID
| UNINITIALIZED.

(** [aslam::Camera]: the projection capability [project3]. *)
Record Camera : Type := mkCamera {
  project3 : Vector3 -> ProjectionStatus * Vector2
}.

(** [aslam::NCamera]: per camera index, the camera and its extrinsics. *)
Record NCamera : Type := mkNCamera {
  cameras : list (Camera * Transformation)
}.

Definition numCameras (nc : NCamera) : nat := length (cameras nc).
Definition invalid_camera : Camera :=
  mkCamera (fun _ => (UNINITIALIZED, mkVector2 0 0)).
Definition getCamera (nc : NCamera) (i : nat) : Camera :=
  fst (nth i (cameras nc) (invalid_camera, T_identity)).
Definition get_T_C_B (nc : NCamera) (i : nat) : Transformation :=
  snd (nth i (cameras nc) (invalid_camera, T_identity)).

(** [common::BidirectionalMap<size_t, size_t>]: pairs (maplab camera index,
    OpenVINS camera index); [getRight] answers [nullptr] as [None]. *)
Definition BidirectionalMap : Type := list (nat * nat).

Definition getRight (m : BidirectionalMap) (left : nat) : option nat :=
  match find (fun p => Nat.eqb (fst p) left) m with
  | Some p => Some (snd p)
  | None => None
  end.

(** [common::LocalizationState], the three states the handler switches on;
    [kOther] stands for any further enumerator (the [default:] branch). *)
Inductive LocalizationState : Type :=
| kUninitialized
| kNotLocalized
| kLocalized
| kOther (value : Z).

(** The gflags of the translation unit. *)
Record Flags : Type := mkFlags {
  FLAGS_openvinsli_use_6dof_localization : bool;
  FLAGS_openvinsli_min_num_baseframe_estimates_before_init : nat;
  FLAGS_openvinsli_max_mean_localization_reprojection_error_px : R;
  FLAGS_openvinsli_use_6dof_localization_for_inactive_cameras : bool;
  FLAGS_openvinsli_min_number_of_structure_constraints : Z
}.

Definition default_flags : Flags := mkFlags true 2 100 false 5.

(** Constants declared in [openvins-localization-handler.h], which is not
    among the sources; they are parameters of the development. *)
Record HandlerConstants : Type := mkHandlerConstants {
  kBufferPoseHistoryNs : Z;
  kBufferMaxPropagationNs : Z;
  kFilterBaseframeBufferSize : nat;
  kInitializationRansacInlierRatioThreshold : Q;
  kInitializationMaxNumRansacIterations : nat;
  kInitializationRansacOrientationErrorThresholdRadians : R;
  kInitializationRansacPositionErrorThresholdMeters : R
}.

(** Library code behind the handler: kindr's spherical interpolation, the
    [std::mt19937] generator with [std::uniform_int_distribution] (the
    [k]-th index drawn from [0 .. n-1] after seeding with [seed]), Eigen's
    conversion of a rotation matrix to a quaternion, and [std::acos]. *)
Definition Matrix : Type := nat -> nat -> R.

Definition Matrix_Identity : Matrix :=
  fun i j => if Nat.eqb i j then 1 else 0.
Definition Matrix_scale (k : R) (m : Matrix) : Matrix :=
  fun i j => k * m i j.
(** [m.block<3,3>(r0, c0) = b]. *)
Definition set_block33 (r0 c0 : nat) (b m : Matrix) : Matrix :=
  fun i j =>
    if ((r0 <=? i) && (i <? r0 + 3) && (c0 <=? j) && (j <? c0 + 3))%nat
    then b (i - r0)%nat (j - c0)%nat
    else m i j.
(** [m.block<3,3>(0,0)] and [m.block<3,1>(0,3)] of a 4x4 matrix. *)
Definition block33 (m : Matrix) : Matrix :=
  fun i j => if ((i <? 3) && (j <? 3))%nat then m i j else 0.
Definition block31_col3 (m : Matrix) : Vector3 :=
  mkVector3 (m 0%nat 3%nat) (m 1%nat 3%nat) (m 2%nat 3%nat).

Class Externals : Type := {
  slerp : Quaternion -> Quaternion -> R -> Quaternion;
  uniform_int_distribution : Z -> nat -> nat -> nat;
  Quaterniond_of_Matrix3d : Matrix -> Quaternion;
  std_acos : R -> R
}.

(** *** Pose history buffer *)

Inductive ResultStatus : Type :=
| kSuccessInterpolated
| kFailedNotYetAvailable
| kFailedWillNeverSucceed.

(** Modelled from the spec: [vio_common::PoseLookupBuffer]
    (vio-common/pose-lookup-buffer.h is not among the sources).  The buffer
    keeps (timestamp, pose) samples; a query is ready inside the buffered
    span, not yet available past the newest sample, and never available
    before the oldest retained sample or across too long a gap. *)
Record PoseLookupBuffer : Type := mkPoseLookupBuffer {
  samples : list (Z * Transformation);
  pose_history_ns : Z;
  max_propagation_ns : Z
}.

Definition newest_timestamp (l : list (Z * Transformation)) : option Z :=
  fold_left (fun acc s => match acc with
                          | None => Some (fst s)
                          | Some t => Some (Z.max t (fst s))
                          end) l None.

Definition oldest_timestamp (l : list (Z * Transformation)) : option Z :=
  fold_left (fun acc s => match acc with
                          | None => Some (fst s)
                          | Some t => Some (Z.min t (fst s))
                          end) l None.

(** The latest sample at or before [t], and the earliest at or after [t]. *)
Definition sample_before (l : list (Z * Transformation)) (t : Z)
  : option (Z * Transformation) :=
  fold_left (fun acc s =>
               if (fst s <=? t)%Z then
                 match acc with
                 | Some b => if (fst b <=? fst s)%Z then Some s else acc
                 | None => Some s
                 end
               else acc) l None.

Definition sample_after (l : list (Z * Transformation)) (t : Z)
  : option (Z * Transformation) :=
  fold_left (fun acc s =>
               if (t <=? fst s)%Z then
                 match acc with
                 | Some a => if (fst s <? fst a)%Z then Some s else acc
                 | None => Some s
                 end
               else acc) l None.

Definition v3_lerp (a b : Vector3) (f : R) : Vector3 :=
  v3_add a (v3_scale f (v3_add b (v3_opp a))).

Definition interpolate `{Externals} (s0 s1 : Z * Transformation) (t : Z)
  : Transformation :=
  if (fst s0 =? fst s1)%Z then snd s0
  else
    let f := IZR (t - fst s0) / IZR (fst s1 - fst s0) in
    mkTransformation
      (slerp (getRotation (snd s0)) (getRotation (snd s1)) f)
      (v3_lerp (getPosition (snd s0)) (getPosition (snd s1)) f).

(** The out-parameter keeps its default (identity) value on failure. *)
Definition getPoseAt `{Externals} (b : PoseLookupBuffer) (t : Z)
  : ResultStatus * Transformation :=
  match oldest_timestamp (samples b), newest_timestamp (samples b) with
  | Some t_old, Some t_new =>
      if (t_new <? t)%Z then (kFailedNotYetAvailable, T_identity)
      else if (t <? t_old)%Z then (kFailedWillNeverSucceed, T_identity)
      else
        match sample_before (samples b) t, sample_after (samples b) t with
        | Some s0, Some s1 =>
            if (max_propagation_ns b <? fst s1 - fst s0)%Z
            then (kFailedWillNeverSucceed, T_identity)
            else (kSuccessInterpolated, interpolate s0 s1 t)
        | _, _ => (kFailedWillNeverSucceed, T_identity)
        end
  | _, _ => (kFailedNotYetAvailable, T_identity)
  end.

Definition getNewestTimestampOfAvailablePose (b : PoseLookupBuffer)
  : option Z :=
  newest_timestamp (samples b).

(** Appending evicts the samples older than the retention horizon. *)
Definition bufferPose (b : PoseLookupBuffer) (t : Z) (T_M_I : Transformation)
  : PoseLookupBuffer :=
  let l := samples b ++ [(t, T_M_I)] in
  let newest := match newest_timestamp l with Some n => n | None => t end in
  mkPoseLookupBuffer
    (filter (fun s => (newest - pose_history_ns b <=? fst s)%Z) l)
    (pose_history_ns b) (max_propagation_ns b).

(** *** Fixed-size queue *)

(** Modelled from the spec: [common::FixedSizeQueue]
    (maplab-common/fixed-size-queue.h is not among the sources), the
    ordered, size-bounded collection: an insertion appends at the back and
    drops the front element once the bound is exceeded. *)
Record FixedSizeQueue (A : Type) : Type := mkFixedSizeQueue {
  buffer : list A;
  buffer_size_ : nat
}.

Arguments mkFixedSizeQueue {A} _ _.
Arguments buffer {A} _.
Arguments buffer_size_ {A} _.

Definition fsq_new {A : Type} (n : nat) : FixedSizeQueue A :=
  mkFixedSizeQueue [] n.

Definition fsq_insert {A : Type} (x : A) (q : FixedSizeQueue A)
  : FixedSizeQueue A :=
  let l := buffer q ++ [x] in
  mkFixedSizeQueue
    (if (buffer_size_ q <? length l)%nat then tl l else l)
    (buffer_size_ q).

Definition fsq_size {A : Type} (q : FixedSizeQueue A) : nat :=
  length (buffer q).

(** *** The OpenVINS estimator as seen from the handler *)

(** [ov_core::LocalizationData]; [qm] is stored in the order x, y, z, w and
    [qp_cov] is a 6x6 matrix. *)
Record LocalizationData : Type := mkLocalizationData {
  timestamp : R;
  pm : Vector3;
  qm : R * R * R * R;
  qp_cov : Matrix
}.

(** [ov_msckf::VioManager]: the measurements fed so far, oldest first, and
    the [status.initialized] flag of its last output. *)
Record VioManager : Type := mkVioManager {
  fed_localizations : list LocalizationData;
  status_initialized : bool
}.

Definition feed_measurement_localization (d : LocalizationData)
  (v : VioManager) : VioManager :=
  mkVioManager (fed_localizations v ++ [d]) (status_initialized v).

(** [ov_msckf::VioManager::Output], the fields read here. *)
Record OutputStatus : Type := mkOutputStatus {
  initialized : bool;
  localized : bool;
  T_MtoG : Matrix
}.
Record Output : Type := mkOutput { status : OutputStatus }.

(** *** Log records *)

(** Every [LOG], [LOG_IF] and [VLOG] statement reached is recorded with
    its severity; whether glog prints a [VLOG n] record depends on the
    verbosity the process runs with. *)

Inductive Severity : Type :=
| INFO
| WARNING
| VLOG (level : nat).

Inductive LogMessage : Type :=
| MsgLocalizationMode6dof
| MsgLocalizationModeStructure
| MsgReinitializedBaseframe
| MsgCouldNotGetPoseForBaseframeInit
| MsgTooFewInliers (num_inliers : Z) (buffer_len : nat)
| MsgReprojectionErrorPx (diff : R)
| MsgMeanReprojectionErrorTooLarge (diff threshold : R)
| MsgMostMatchesNotReprojectable
| MsgInactiveCameraUpdateRejected (t : Z)
| MsgUpdateRejected (t : Z).

Definition LogRecord : Type := (Severity * LogMessage)%type.

(** ** The handler object *)

(** The members of [OpenvinsLocalizationHandler], followed by the two
    pieces of process state its methods touch: the glog output and the
    [std::random_device] (the stream of its future draws). *)
Record OpenvinsLocalizationHandler : Type := mkOpenvinsLocalizationHandler {
  openvins_interface_ : VioManager;
  time_translator_ : Z -> R;
  localization_state_ : LocalizationState;
  T_M_I_buffer_ : PoseLookupBuffer;
  T_G_M_filter_buffer_ : FixedSizeQueue Transformation;
  T_G_M_loc_buffer_ : FixedSizeQueue Transformation;
  localization_buffer_ : list LocalizationResult;
  camera_calibration_ : NCamera;
  maplab_to_openvins_cam_indices_mapping_ : BidirectionalMap;
  glog : list LogRecord;
  random_device : nat -> Z
}.

Definition set_openvins_interface (v : VioManager)
  (h : OpenvinsLocalizationHandler) : OpenvinsLocalizationHandler :=
  mkOpenvinsLocalizationHandler v (time_translator_ h)
    (localization_state_ h) (T_M_I_buffer_ h) (T_G_M_filter_buffer_ h)
    (T_G_M_loc_buffer_ h) (localization_buffer_ h) (camera_calibration_ h)
    (maplab_to_openvins_cam_indices_mapping_ h) (glog h) (random_device h).

Definition set_localization_state (s : LocalizationState)
  (h : OpenvinsLocalizationHandler) : OpenvinsLocalizationHandler :=
  mkOpenvinsLocalizationHandler (openvins_interface_ h) (time_translator_ h)
    s (T_M_I_buffer_ h) (T_G_M_filter_buffer_ h)
    (T_G_M_loc_buffer_ h) (localization_buffer_ h) (camera_calibration_ h)
    (maplab_to_openvins_cam_indices_mapping_ h) (glog h) (random_device h).

Definition set_T_G_M_loc_buffer (q : FixedSizeQueue Transformation)
  (h : OpenvinsLocalizationHandler) : OpenvinsLocalizationHandler :=
  mkOpenvinsLocalizationHandler (openvins_interface_ h) (time_translator_ h)
    (localization_state_ h) (T_M_I_buffer_ h) (T_G_M_filter_buffer_ h)
    q (localization_buffer_ h) (camera_calibration_ h)
    (maplab_to_openvins_cam_indices_mapping_ h) (glog h) (random_device h).

Definition set_localization_buffer (l : list LocalizationResult)
  (h : OpenvinsLocalizationHandler) : OpenvinsLocalizationHandler :=
  mkOpenvinsLocalizationHandler (openvins_interface_ h) (time_translator_ h)
    (localization_state_ h) (T_M_I_buffer_ h) (T_G_M_filter_buffer_ h)
    (T_G_M_loc_buffer_ h) l (camera_calibration_ h)
    (maplab_to_openvins_cam_indices_mapping_ h) (glog h) (random_device h).

Definition set_glog (l : list LogRecord)
  (h : OpenvinsLocalizationHandler) : OpenvinsLocalizationHandler :=
  mkOpenvinsLocalizationHandler (openvins_interface_ h) (time_translator_ h)
    (localization_state_ h) (T_M_I_buffer_ h) (T_G_M_filter_buffer_ h)
    (T_G_M_loc_buffer_ h) (localization_buffer_ h) (camera_calibration_ h)
    (maplab_to_openvins_cam_indices_mapping_ h) l (random_device h).

Definition set_random_device (d : nat -> Z)
  (h : OpenvinsLocalizationHandler) : OpenvinsLocalizationHandler :=
  mkOpenvinsLocalizationHandler (openvins_interface_ h) (time_translator_ h)
    (localization_state_ h) (T_M_I_buffer_ h) (T_G_M_filter_buffer_ h)
    (T_G_M_loc_buffer_ h) (localization_buffer_ h) (camera_calibration_ h)
    (maplab_to_openvins_cam_indices_mapping_ h) (glog h) d.

Definition set_T_M_I_buffer (b : PoseLookupBuffer)
  (h : OpenvinsLocalizationHandler) : OpenvinsLocalizationHandler :=
  mkOpenvinsLocalizationHandler (openvins_interface_ h) (time_translator_ h)
    (localization_state_ h) b (T_G_M_filter_buffer_ h)
    (T_G_M_loc_buffer_ h) (localization_buffer_ h) (camera_calibration_ h)
    (maplab_to_openvins_cam_indices_mapping_ h) (glog h) (random_device h).

(** ** Methods run on the handler: state passing with abort *)

Definition M (A : Type) : Type :=
  OpenvinsLocalizationHandler -> outcome (A * OpenvinsLocalizationHandler).

Definition ret {A : Type} (a : A) : M A := fun h => Ok (a, h).
Definition bind {A B : Type} (c : M A) (k : A -> M B) : M B :=
  fun h => match c h with
           | Fatal => Fatal
           | Ok (a, h') => k a h'
           end.
Definition get : M OpenvinsLocalizationHandler := fun h => Ok (h, h).
Definition modify (f : OpenvinsLocalizationHandler -> OpenvinsLocalizationHandler)
  : M unit := fun h => Ok (tt, f h).
Definition lift {A : Type} (c : outcome A) : M A :=
  fun h => match c with
           | Fatal => Fatal
           | Ok a => Ok (a, h)
           end.
Definition CHECK (b : bool) : M unit := lift (ocheck b).

Declare Scope handler_scope.
Delimit Scope handler_scope with handler.
Notation "x <- c ;; k" := (bind c (fun x => k))
  (at level 61, c at next level, right associativity) : handler_scope.
Notation "' pat <- c ;; k" := (bind c (fun x => match x with pat => k end))
  (at level 61, pat pattern, c at next level, right associativity)
  : handler_scope.
Notation "c ;;; k" := (bind c (fun _ => k))
  (at level 61, right associativity) : handler_scope.

Declare Scope outcome_scope.
Delimit Scope outcome_scope with outcome.
Notation "x <- c ;; k" := (obind c (fun x => k))
  (at level 61, c at next level, right associativity) : outcome_scope.
Notation "c ;;; k" := (obind c (fun _ => k))
  (at level 61, right associativity) : outcome_scope.

(** [LOG(severity) << msg] and [LOG_IF(severity, cond) << msg]. *)
Definition LOG (s : Severity) (m : LogMessage) : M unit :=
  modify (fun h => set_glog (glog h ++ [(s, m)]) h).
Definition LOG_IF (s : Severity) (cond : bool) (m : LogMessage) : M unit :=
  if cond then LOG s m else ret tt.

(** [for] loops over a list with an accumulator, stopping at an abort. *)
Fixpoint ofold {A B : Type} (f : A -> B -> outcome A) (l : list B) (a : A)
  : outcome A :=
  match l with
  | [] => Ok a
  | x :: l' => obind (f a x) (ofold f l')
  end.

(** ** The functions of openvins-localization-handler.cc *)

Definition status_eqb (a b : ResultStatus) : bool :=
  match a, b with
  | kSuccessInterpolated, kSuccessInterpolated => true
  | kFailedNotYetAvailable, kFailedNotYetAvailable => true
  | kFailedWillNeverSucceed, kFailedWillNeverSucceed => true
  | _, _ => false
  end.

(** [getReprojectionErrorForGlobalLandmark]: [Ok None] is the [false]
    return (the out-parameter is not written), [Ok (Some e)] is [true]
    with [*reprojection_error = e]. *)
Definition getReprojectionErrorForGlobalLandmark
  (p_G : Vector3) (T_G_C : Transformation) (camera : Camera)
  (measurement : Vector2) : outcome (option R) :=
  let p_C := T_apply (T_inverse T_G_C) p_G in
  let '(result, reprojected_keypoint) := project3 camera p_C in
  match result with
  | UNINITIALIZED => Fatal
  | POINT_BEHIND_CAMERA | PROJECTION_INVALID => Ok None
  | KEYPOINT_VISIBLE | KEYPOINT_OUTSIDE_IMAGE_BOX =>
      Ok (Some (v2_norm (v2_sub reprojected_keypoint measurement)))
  end.

(** [aslam::common::mean] over a vector of doubles. *)
Definition mean (l : list R) : R :=
  fold_right Rplus 0 l / INR (length l).

(** [std::numeric_limits<double>::max()]. *)
Definition double_max : R := (2 - / 2 ^ 52) * 2 ^ 1023.

(** [int ransac_seed = device()]: the unsigned 32-bit draw read as [int]. *)
Definition int_of_unsigned (u : Z) : Z :=
  let m := (u mod 2 ^ 32)%Z in
  if (m <? 2 ^ 31)%Z then m else (m - 2 ^ 32)%Z.

(** The accumulators of the reprojection loops:
    [lc_reprojection_errors], [filter_reprojection_errors],
    [num_matches_processed]. *)
Definition ReprojectionAcc : Type := (list R * list R * nat)%type.

(** Body of the loop over the matches of one camera (lines 537-559). *)
Definition process_match (camera : Camera)
  (T_G_C_filter T_G_C_lc : Transformation)
  (acc : ReprojectionAcc) (match_i : Vector2 * Vector3)
  : outcome ReprojectionAcc :=
  let '(keypoint, p_G) := match_i in
  let '(lc_reprojection_errors, filter_reprojection_errors,
        num_matches_processed) := acc in
  (reproj_error_sq_filter <-
     getReprojectionErrorForGlobalLandmark p_G T_G_C_filter camera keypoint ;;
   reproj_error_sq_lc <-
     match reproj_error_sq_filter with
     | Some _ =>
         getReprojectionErrorForGlobalLandmark p_G T_G_C_lc camera keypoint
     | None => Ok None
     end ;;
   match reproj_error_sq_filter, reproj_error_sq_lc with
   | Some e_filter, Some e_lc =>
       Ok (lc_reprojection_errors ++ [e_filter],
           filter_reprojection_errors ++ [e_lc],
           S num_matches_processed)
   | _, _ =>
       Ok (lc_reprojection_errors, filter_reprojection_errors,
           S num_matches_processed)
   end)%outcome.

Section Handler.

Context `{Externals}.
Variable K : HandlerConstants.
Variable FLAGS : Flags.

(** Constructor; a null pointer argument is [None]. *)
Definition OpenvinsLocalizationHandler_new
  (openvins_interface : option VioManager)
  (time_translator : option (Z -> R))
  (camera_calibration : NCamera)
  (maplab_to_openvins_cam_indices_mapping : BidirectionalMap)
  (log : list LogRecord) (device : nat -> Z)
  : outcome OpenvinsLocalizationHandler :=
  match openvins_interface, time_translator with
  | Some vio, Some tt_ =>
      Ok (mkOpenvinsLocalizationHandler
            vio tt_
            (if FLAGS_openvinsli_use_6dof_localization FLAGS
             then kLocalized else kUninitialized)
            (mkPoseLookupBuffer [] (kBufferPoseHistoryNs K)
                                (kBufferMaxPropagationNs K))
            (fsq_new (kFilterBaseframeBufferSize K))
            (fsq_new
               (FLAGS_openvinsli_min_num_baseframe_estimates_before_init FLAGS))
            []
            camera_calibration
            maplab_to_openvins_cam_indices_mapping
            (log ++ [(INFO,
                      if FLAGS_openvinsli_use_6dof_localization FLAGS
                      then MsgLocalizationMode6dof
                      else MsgLocalizationModeStructure)])
            device)
  | _, _ => Fatal
  end.

Definition makeOpenvinsLocalizationData (h : OpenvinsLocalizationHandler)
  (localization_result : LocalizationResult) : LocalizationData :=
  let q := getRotation (T_G_B localization_result) in
  let loc_orientation_uncertainty := 0.04 in
  let loc_position_uncertainty := 0.8 in
  let loc_orientation_var :=
    loc_orientation_uncertainty * loc_orientation_uncertainty in
  let loc_position_var :=
    loc_position_uncertainty * loc_position_uncertainty in
  mkLocalizationData
    (time_translator_ h (timestamp_ns localization_result))
    (getPosition (T_G_B localization_result))
    (qx q, qy q, qz q, qw q)
    (set_block33 3 3 (Matrix_scale loc_position_var Matrix_Identity)
       (set_block33 0 0 (Matrix_scale loc_orientation_var Matrix_Identity)
          Matrix_Identity)).

Definition feed (d : LocalizationData) : M unit :=
  modify (fun h =>
    set_openvins_interface
      (feed_measurement_localization d (openvins_interface_ h)) h).

(** *** Baseframe initialization *)

(** Rotation angle of a unit quaternion. *)
Definition rotation_angle (q : Quaternion) : R :=
  2 * acos (Rmin 1 (Rabs (qw q))).

(** Modelled from the spec: [common::transformationRansac]
    (maplab-common/geometry.h is not among the sources).  Each iteration
    draws one sample as hypothesis, counts the samples whose residual to
    it is below both thresholds, and keeps the hypothesis with the largest
    count; the best hypothesis itself is returned as the estimate. *)
Definition is_inlier (threshold_orientation_radians
                      threshold_position_meters : R)
  (hypothesis sample : Transformation) : bool :=
  let residual := T_mul (T_inverse hypothesis) sample in
  Rltb (rotation_angle (getRotation residual)) threshold_orientation_radians
  && Rltb (v3_norm (getPosition residual)) threshold_position_meters.

Definition count_inliers (thr_o thr_p : R) (hypothesis : Transformation)
  (T_A_B_samples : list Transformation) : nat :=
  length (filter (is_inlier thr_o thr_p hypothesis) T_A_B_samples).

Fixpoint ransac_iterations (T_A_B_samples : list Transformation)
  (thr_o thr_p : R) (ransac_seed : Z) (remaining iteration_idx : nat)
  (best : Transformation * nat) : Transformation * nat :=
  match remaining with
  | O => best
  | S remaining' =>
      let sample_idx :=
        uniform_int_distribution ransac_seed (length T_A_B_samples)
                                 iteration_idx in
      let hypothesis := nth sample_idx T_A_B_samples T_identity in
      let n := count_inliers thr_o thr_p hypothesis T_A_B_samples in
      ransac_iterations T_A_B_samples thr_o thr_p ransac_seed remaining'
        (S iteration_idx)
        (if (snd best <? n)%nat then (hypothesis, n) else best)
  end.

Definition transformationRansac (T_A_B_samples : list Transformation)
  (num_iterations : nat) (thr_o thr_p : R) (ransac_seed : Z)
  : Transformation * Z :=
  let best :=
    ransac_iterations T_A_B_samples thr_o thr_p ransac_seed num_iterations 0
                      (T_identity, O) in
  (fst best, Z.of_nat (snd best)).

(** [std::random_device device; device()]. *)
Definition random_device_draw : M Z :=
  fun h => Ok (random_device h O,
               set_random_device (fun n => random_device h (S n)) h).

Definition kNumInliersThreshold : Z :=
  Qceiling
    (inject_Z
       (Z.of_nat
          (FLAGS_openvinsli_min_num_baseframe_estimates_before_init FLAGS))
     * kInitializationRansacInlierRatioThreshold K)%Q.

Definition initializeBaseframe (localization_result : LocalizationResult)
  : M bool :=
  (h <- get ;;
   let '(lookup, T_M_I) :=
     getPoseAt (T_M_I_buffer_ h) (timestamp_ns localization_result) in
   match lookup with
   | kFailedNotYetAvailable
   | kFailedWillNeverSucceed =>
       LOG WARNING MsgCouldNotGetPoseForBaseframeInit ;;;
       ret false
   | kSuccessInterpolated =>
       let T_G_M_lc_estimate :=
         T_mul (T_G_B localization_result) (T_inverse T_M_I) in
       modify (fun h =>
         set_T_G_M_loc_buffer
           (fsq_insert T_G_M_lc_estimate (T_G_M_loc_buffer_ h)) h) ;;;
       h <- get ;;
       if (fsq_size (T_G_M_loc_buffer_ h) <?
           FLAGS_openvinsli_min_num_baseframe_estimates_before_init FLAGS)%nat
       then ret false
       else
         device <- random_device_draw ;;
         let ransac_seed := int_of_unsigned device in
         let '(T_G_M_lsq, num_inliers) :=
           transformationRansac
             (buffer (T_G_M_loc_buffer_ h))
             (kInitializationMaxNumRansacIterations K)
             (kInitializationRansacOrientationErrorThresholdRadians K)
             (kInitializationRansacPositionErrorThresholdMeters K)
             ransac_seed in
         if (num_inliers <? kNumInliersThreshold)%Z
         then
           LOG (VLOG 1)
               (MsgTooFewInliers num_inliers
                                 (fsq_size (T_G_M_loc_buffer_ h))) ;;;
           ret false
         else ret true
   end)%handler.

(** *** Gravity disparity *)

(** [kRadToDeg] of maplab-common/conversions.h. *)
Definition kRadToDeg : R := 180 / PI.

(** glog's [CHECK_NEAR(val1, val2, margin)]. *)
Definition CHECK_NEAR (val1 val2 margin : R) : bool :=
  Rleb val1 (val2 + margin) && Rleb (val2 - margin) val1.

Definition getLocalizationResultGravityDisparityAngleDeg
  (localization_result : LocalizationResult) (T_G_I_vio : Transformation)
  : outcome R :=
  let T_G_B := T_G_B localization_result in
  let gravity_direction_vio :=
    q_rotate (q_inverse (getRotation T_G_I_vio)) UnitZ in
  let gravity_direction_localization_pnp :=
    q_rotate (q_inverse (getRotation T_G_B)) UnitZ in
  (ocheck (CHECK_NEAR (v3_squaredNorm gravity_direction_vio) 1 1e-8) ;;;
   ocheck (CHECK_NEAR (v3_squaredNorm gravity_direction_localization_pnp)
                      1 1e-8) ;;;
   let error_cosine :=
     v3_dot gravity_direction_vio gravity_direction_localization_pnp in
   Ok (if Rleb error_cosine (-1) then 180
       else if Rleb 1 error_cosine then 0
       else std_acos error_cosine * kRadToDeg))%outcome.

(** *** Reprojection errors of a localization result *)

(** Body of the loop over the cameras (lines 511-560). *)
Definition process_camera (h : OpenvinsLocalizationHandler)
  (localization_result : LocalizationResult)
  (T_G_I_filter : Transformation)
  (acc : ReprojectionAcc) (cam_idx : nat) : outcome ReprojectionAcc :=
  let G_landmarks :=
    nth cam_idx (G_landmarks_per_camera localization_result) [] in
  let keypoint_measurements :=
    nth cam_idx (keypoint_measurements_per_camera localization_result) [] in
  (ocheck (length G_landmarks =? length keypoint_measurements)%nat ;;;
   let openvins_cam_idx :=
     getRight (maplab_to_openvins_cam_indices_mapping_ h) cam_idx in
   let num_matches := length G_landmarks in
   if (num_matches =? 0)%nat then Ok acc
   else
     match openvins_cam_idx with
     | None => Ok acc
     | Some _ =>
         let T_C_B := get_T_C_B (camera_calibration_ h) cam_idx in
         let T_G_C_filter :=
           T_inverse (T_mul T_C_B (T_inverse T_G_I_filter)) in
         let T_G_C_lc :=
           T_inverse (T_mul T_C_B (T_inverse (T_G_B localization_result))) in
         ofold (process_match (getCamera (camera_calibration_ h) cam_idx)
                              T_G_C_filter T_G_C_lc)
               (combine keypoint_measurements G_landmarks) acc
     end)%outcome.

(** Returns the success rate together with the two output vectors. *)
Definition getLocalizationReprojectionErrors
  (h : OpenvinsLocalizationHandler)
  (localization_result : LocalizationResult)
  (T_G_I_filter : Transformation) : outcome (R * list R * list R) :=
  (ocheck (length (G_landmarks_per_camera localization_result) =?
           length (keypoint_measurements_per_camera localization_result))%nat ;;;
   let num_cameras := length (G_landmarks_per_camera localization_result) in
   ocheck (num_cameras =? numCameras (camera_calibration_ h))%nat ;;;
   acc <- ofold (process_camera h localization_result T_G_I_filter)
                (seq 0 num_cameras) ([], [], O) ;;
   let '(lc_reprojection_errors, filter_reprojection_errors,
         num_matches_processed) := acc in
   ocheck (length lc_reprojection_errors =?
           length filter_reprojection_errors)%nat ;;;
   ocheck (0 <? num_matches_processed)%nat ;;;
   Ok (INR (length lc_reprojection_errors) / INR num_matches_processed,
       lc_reprojection_errors, filter_reprojection_errors))%outcome.

(** *** Processing a result as a filter update *)

Definition kMinReprojectionSuccessRate : R := 0.5.

Definition reprojection_success (reprojection_success_rate : R)
  (lc_reprojection_errors : list R) : bool :=
  let num_accepted_localization_constraints :=
    Z.of_nat (length lc_reprojection_errors) in
  Rltb kMinReprojectionSuccessRate reprojection_success_rate
  && (FLAGS_openvinsli_min_number_of_structure_constraints FLAGS <?
      num_accepted_localization_constraints)%Z.

Definition mean_reprojection_error_diff (success : bool)
  (lc_reprojection_errors filter_reprojection_errors : list R) : R :=
  if success then
    let lc_reproj_mean := mean lc_reprojection_errors in
    let filter_reproj_mean := mean filter_reprojection_errors in
    Rabs (filter_reproj_mean - lc_reproj_mean)
  else double_max.

(** The condition of the warning block (lines 450-452). *)
Definition reprojection_check_fails (success : bool) (diff : R) : bool :=
  negb success
  || Rltb (FLAGS_openvinsli_max_mean_localization_reprojection_error_px FLAGS)
          diff.

(** The matches of the cameras OpenVINS uses (lines 363-376). *)
Definition num_valid_matches (h : OpenvinsLocalizationHandler)
  (localization_result : LocalizationResult) : nat :=
  fold_left
    (fun n maplab_cam_idx =>
       match getRight (maplab_to_openvins_cam_indices_mapping_ h)
                      maplab_cam_idx with
       | None => n
       | Some _ =>
           (n + length (nth maplab_cam_idx
                            (G_landmarks_per_camera localization_result) []))%nat
       end)
    (seq 0 (length (G_landmarks_per_camera localization_result))) O.

(** The loop of lines 467-485: [measurement_accepted &= false] for every
    active camera. *)
Definition landmark_updates (h : OpenvinsLocalizationHandler)
  (localization_result : LocalizationResult) (measurement_accepted : bool)
  : bool :=
  fold_left
    (fun accepted maplab_cam_idx =>
       match getRight (maplab_to_openvins_cam_indices_mapping_ h)
                      maplab_cam_idx with
       | None => accepted
       | Some _ => accepted && false
       end)
    (seq 0 (length (G_landmarks_per_camera localization_result)))
    measurement_accepted.

(** [inl b] is an early [return b]; [inr b] reaches the end of the
    function with [measurement_accepted = b]. *)
Definition processAsUpdate (localization_result : LocalizationResult)
  : M bool :=
  (h <- get ;;
   let '(result, T_M_I_filter) :=
     getPoseAt (T_M_I_buffer_ h) (timestamp_ns localization_result) in
   CHECK (negb (status_eqb result kFailedNotYetAvailable)) ;;;
   CHECK (negb (status_eqb result kFailedWillNeverSucceed)) ;;;
   flow <-
     (if FLAGS_openvinsli_use_6dof_localization FLAGS then
        feed (makeOpenvinsLocalizationData h localization_result) ;;;
        ret (inr true)
      else if (num_valid_matches h localization_result =? 0)%nat then
        if FLAGS_openvinsli_use_6dof_localization_for_inactive_cameras FLAGS
        then
          let measurement_accepted := false in
          LOG_IF WARNING
                 (negb measurement_accepted
                  && status_initialized (openvins_interface_ h))
                 (MsgInactiveCameraUpdateRejected
                    (timestamp_ns localization_result)) ;;;
          ret (inl measurement_accepted)
        else ret (inl false)
      else
        CHECK (negb (Nat.eqb (fsq_size (T_G_M_filter_buffer_ h)) 0)) ;;;
        let T_G_M_filter :=
          last (buffer (T_G_M_filter_buffer_ h)) T_identity in
        let T_G_I_filter := T_mul T_G_M_filter T_M_I_filter in
        errs <- lift (getLocalizationReprojectionErrors
                        h localization_result T_G_I_filter) ;;
        let '(reprojection_success_rate, lc_reprojection_errors,
              filter_reprojection_errors) := errs in
        let success :=
          reprojection_success reprojection_success_rate
                               lc_reprojection_errors in
        let diff :=
          mean_reprojection_error_diff success lc_reprojection_errors
                                       filter_reprojection_errors in
        (if success then LOG (VLOG 3) (MsgReprojectionErrorPx diff)
         else ret tt) ;;;
        (if reprojection_check_fails success diff then
           if success then
             LOG WARNING
                 (MsgMeanReprojectionErrorTooLarge diff
                    (FLAGS_openvinsli_max_mean_localization_reprojection_error_px
                       FLAGS))
           else LOG WARNING MsgMostMatchesNotReprojectable
         else ret tt) ;;;
        ret (inr (landmark_updates h localization_result true))) ;;
   match flow with
   | inl returned => ret returned
   | inr measurement_accepted =>
       h' <- get ;;
       LOG_IF WARNING
              (negb measurement_accepted
               && status_initialized (openvins_interface_ h'))
              (MsgUpdateRejected (timestamp_ns localization_result)) ;;;
       ret measurement_accepted
   end)%handler.

(** *** Dispatch on the localization state *)

Definition processLocalizationResultInternal
  (localization_result : LocalizationResult) : M unit :=
  (h <- get ;;
   match localization_state_ h with
   | kUninitialized
   | kNotLocalized =>
       success <- initializeBaseframe localization_result ;;
       if success then
         LOG INFO MsgReinitializedBaseframe ;;;
         modify (set_localization_state kLocalized)
       else ret tt
   | kLocalized =>
       processAsUpdate localization_result ;;;
       ret tt
   | kOther _ => lift Fatal
   end)%handler.

(** The [while (1)] loop of [dealWithBufferedLocalizations]; every round
    that does not return pops one element, so the length of the queue plus
    one bounds the number of rounds. *)
Fixpoint drain_localization_buffer (rounds : nat)
  (newest_TMI_timestamp_ns : Z) : M unit :=
  match rounds with
  | O => ret tt
  | S rounds' =>
      (h <- get ;;
       match localization_buffer_ h with
       | [] => ret tt
       | localization_result :: rest =>
           if (newest_TMI_timestamp_ns <?
               timestamp_ns localization_result)%Z
           then ret tt
           else
             modify (set_localization_buffer rest) ;;;
             processLocalizationResultInternal localization_result ;;;
             drain_localization_buffer rounds' newest_TMI_timestamp_ns
       end)%handler
  end.

Definition dealWithBufferedLocalizations : M unit :=
  (h <- get ;;
   match getNewestTimestampOfAvailablePose (T_M_I_buffer_ h) with
   | None => ret tt
   | Some newest_TMI_timestamp_ns =>
       drain_localization_buffer (S (length (localization_buffer_ h)))
                                 newest_TMI_timestamp_ns
   end)%handler.

(** The entry point; the push to [localization_buffer_] and the call of
    [dealWithBufferedLocalizations] are commented out in the source. *)
Definition processLocalizationResult
  (localization_result : LocalizationResult) : M unit :=
  (h <- get ;;
   feed (makeOpenvinsLocalizationData h localization_result))%handler.

(** *** Reading the baseframe out of an OpenVINS output *)

(** Modelled from the spec: [common::ensurePositiveQuaternion]
    (maplab-common/quaternion-math.h is not among the sources): a
    quaternion with negative scalar part is replaced by its negation, which
    stands for the same rotation. *)
Definition ensurePositiveQuaternion (q : Quaternion) : Quaternion :=
  if Rltb (qw q) 0 then q_neg q else q.

(** The new value of [*T_G_M] is returned next to the result. *)
Definition extractLocalizationFromOpenvinsState (output : Output)
  (T_G_M : Transformation) : bool * Transformation :=
  let has_T_G_M := localized (status output) in
  if has_T_G_M then
    let T :=
      mkTransformation
        (Quaterniond_of_Matrix3d (block33 (T_MtoG (status output))))
        (block31_col3 (T_MtoG (status output))) in
    (has_T_G_M,
     mkTransformation (ensurePositiveQuaternion (getRotation T))
                      (getPosition T))
  else (has_T_G_M, T_G_M).

End Handler.

(** ** Vocabulary of the properties *)

(** The detailed status [getReprojectionErrorForGlobalLandmark] reads for
    landmark [p_G] under the camera pose [T_G_C]. *)
Definition projection_status (camera : Camera) (T_G_C : Transformation)
  (p_G : Vector3) : ProjectionStatus :=
  fst (project3 camera (T_apply (T_inverse T_G_C) p_G)).

Definition geometrically_invalid (s : ProjectionStatus) : bool :=
  match s with
  | POINT_BEHIND_CAMERA | PROJECTION_INVALID => true
  | _ => false
  end.

(** Calls made on a handler by its owner: a delivered localization result,
    a drain of the pending queue, and a new odometry pose for the pose
    buffer. *)
Inductive HandlerCall : Type :=
| DeliverLocalization (localization_result : LocalizationResult)
| DrainBuffered
| DeliverPose (t : Z) (T_M_I : Transformation).

Definition run_call `{Externals} (K : HandlerConstants) (FLAGS : Flags)
  (c : HandlerCall) : M unit :=
  match c with
  | DeliverLocalization r => processLocalizationResult r
  | DrainBuffered => dealWithBufferedLocalizations K FLAGS
  | DeliverPose t T_M_I =>
      modify (fun h => set_T_M_I_buffer (bufferPose (T_M_I_buffer_ h) t T_M_I) h)
  end.

Fixpoint run_calls `{Externals} (K : HandlerConstants) (FLAGS : Flags)
  (cs : list HandlerCall) : M unit :=
  match cs with
  | [] => ret tt
  | c :: cs' => bind (run_call K FLAGS c) (fun _ => run_calls K FLAGS cs')
  end.

Fixpoint delivered (cs : list HandlerCall) : list LocalizationResult :=
  match cs with
  | [] => []
  | DeliverLocalization r :: cs' => r :: delivered cs'
  | _ :: cs' => delivered cs'
  end.

(** The invariant of the candidate queue: its bound is the flag it was
    built with and its content respects the bound. *)
Definition loc_buffer_ok (FLAGS : Flags) (h : OpenvinsLocalizationHandler)
  : Prop :=
  buffer_size_ (T_G_M_loc_buffer_ h) =
    FLAGS_openvinsli_min_num_baseframe_estimates_before_init FLAGS
  /\ (fsq_size (T_G_M_loc_buffer_ h) <= buffer_size_ (T_G_M_loc_buffer_ h))%nat.

(** A method leaves the pending queue [localization_buffer_] alone. *)
Definition keeps_pending {A : Type} (c : M A) : Prop :=
  forall h a h',
    c h = Ok (a, h') -> localization_buffer_ h' = localization_buffer_ h.

(** A camera is active when the index mapping knows it. *)
Definition is_active (m : BidirectionalMap) (cam_idx : nat) : bool :=
  match getRight m cam_idx with
  | Some _ => true
  | None => false
  end.

(** The pose of camera [cam_idx] the reprojection loop derives from the
    body pose [T_G_I] (lines 521-526). *)
Definition camera_pose (h : OpenvinsLocalizationHandler)
  (T_G_I : Transformation) (cam_idx : nat) : Transformation :=
  T_inverse (T_mul (get_T_C_B (camera_calibration_ h) cam_idx)
                   (T_inverse T_G_I)).

(** The correspondences of camera [cam_idx] the loop evaluates: all of
    them for an active camera, none for a camera OpenVINS does not use. *)
Definition camera_matches (h : OpenvinsLocalizationHandler)
  (r : LocalizationResult) (cam_idx : nat) : list (Vector2 * Vector3) :=
  if is_active (maplab_to_openvins_cam_indices_mapping_ h) cam_idx
  then combine (nth cam_idx (keypoint_measurements_per_camera r) [])
               (nth cam_idx (G_landmarks_per_camera r) [])
  else [].

(** A correspondence projects under both hypotheses. *)
Definition both_valid (camera : Camera)
  (T_G_C_filter T_G_C_lc : Transformation) (m : Vector2 * Vector3) : bool :=
  negb (geometrically_invalid (projection_status camera T_G_C_filter (snd m)))
  && negb (geometrically_invalid (projection_status camera T_G_C_lc (snd m))).

(** The correspondences of camera [cam_idx] that project under the filter
    hypothesis [T_G_I_filter] and under the localization hypothesis. *)
Definition recorded_matches (h : OpenvinsLocalizationHandler)
  (r : LocalizationResult) (T_G_I_filter : Transformation) (cam_idx : nat)
  : list (Vector2 * Vector3) :=
  filter (both_valid (getCamera (camera_calibration_ h) cam_idx)
                     (camera_pose h T_G_I_filter cam_idx)
                     (camera_pose h (T_G_B r) cam_idx))
         (camera_matches h r cam_idx).

(** The distance between the projection of a landmark under the camera
    pose [T_G_C] and its keypoint (line 88). *)
Definition reprojection_residual (camera : Camera) (T_G_C : Transformation)
  (m : Vector2 * Vector3) : R :=
  v2_norm
    (v2_sub (snd (project3 camera (T_apply (T_inverse T_G_C) (snd m))))
            (fst m)).

(** The residuals, under the body pose [T_G_I], of the recorded
    correspondences: of one camera, and of all cameras in their order. *)
Definition camera_residuals (h : OpenvinsLocalizationHandler)
  (r : LocalizationResult) (T_G_I_filter T_G_I : Transformation)
  (cam_idx : nat) : list R :=
  map (reprojection_residual (getCamera (camera_calibration_ h) cam_idx)
                             (camera_pose h T_G_I cam_idx))
      (recorded_matches h r T_G_I_filter cam_idx).

Definition recorded_residuals (h : OpenvinsLocalizationHandler)
  (r : LocalizationResult) (T_G_I_filter T_G_I : Transformation) : list R :=
  flat_map (camera_residuals h r T_G_I_filter T_G_I)
           (seq 0 (length (G_landmarks_per_camera r))).

(** The three size checks of [getLocalizationReprojectionErrors]
    (lines 503-514). *)
Definition size_contract (h : OpenvinsLocalizationHandler)
  (r : LocalizationResult) : Prop :=
  length (G_landmarks_per_camera r)
  = length (keypoint_measurements_per_camera r)
  /\ length (G_landmarks_per_camera r) = numCameras (camera_calibration_ h)
  /\ forall cam_idx,
       (cam_idx < length (G_landmarks_per_camera r))%nat ->
       length (nth cam_idx (G_landmarks_per_camera r) [])
       = length (nth cam_idx (keypoint_measurements_per_camera r) []).

(** The cameras report an initialized status for every correspondence the
    loop evaluates (the [CHECK_NE] of line 79). *)
Definition camera_contract (h : OpenvinsLocalizationHandler)
  (r : LocalizationResult) (T_G_I_filter : Transformation) : Prop :=
  forall cam_idx m,
    In m (camera_matches h r cam_idx) ->
    projection_status (getCamera (camera_calibration_ h) cam_idx)
                      (camera_pose h T_G_I_filter cam_idx) (snd m)
    <> UNINITIALIZED
    /\ projection_status (getCamera (camera_calibration_ h) cam_idx)
                         (camera_pose h (T_G_B r) cam_idx) (snd m)
       <> UNINITIALIZED.

(** The records the reprojection check of [processAsUpdate] writes
    (lines 439-465), and the record of the final [LOG_IF] for a rejected
    update. *)
Definition gate_log (FLAGS : Flags) (rate : R) (lc fl : list R)
  : list LogRecord :=
  let success := reprojection_success FLAGS rate lc in
  let diff := mean_reprojection_error_diff success lc fl in
  (if success then [(VLOG 3, MsgReprojectionErrorPx diff)] else [])
  ++ (if reprojection_check_fails FLAGS success diff then
        [(WARNING,
          if success then
            MsgMeanReprojectionErrorTooLarge diff
              (FLAGS_openvinsli_max_mean_localization_reprojection_error_px
                 FLAGS)
          else MsgMostMatchesNotReprojectable)]
      else []).

Definition rejected_log (h : OpenvinsLocalizationHandler)
  (r : LocalizationResult) : list LogRecord :=
  if status_initialized (openvins_interface_ h)
  then [(WARNING, MsgUpdateRejected (timestamp_ns r))]
  else [].

(** The candidate set [initializeBaseframe] passes to the RANSAC when the
    pose lookup gives [T_M_I], and the seed it draws. *)
Definition candidates_after (h : OpenvinsLocalizationHandler)
  (r : LocalizationResult) (T_M_I : Transformation) : list Transformation :=
  buffer (fsq_insert (T_mul (T_G_B r) (T_inverse T_M_I))
                     (T_G_M_loc_buffer_ h)).

Definition drawn_seed (h : OpenvinsLocalizationHandler) : Z :=
  int_of_unsigned (random_device h O).


(** A method relates the handler before and after by [R] whenever it
    returns. *)
Definition respects {A : Type}
  (R : OpenvinsLocalizationHandler -> OpenvinsLocalizationHandler -> Prop)
  (c : M A) : Prop :=
  forall h a h', c h = Ok (a, h') -> R h h'.

(** Only log records were added. *)
Definition only_logged (h h' : OpenvinsLocalizationHandler) : Prop :=
  exists records, h' = set_glog (glog h ++ records) h.

(** Everything but the candidate queue, the random device and the log is
    as before. *)
Definition same_outside_initialization
  (h h' : OpenvinsLocalizationHandler) : Prop :=
  openvins_interface_ h' = openvins_interface_ h
  /\ time_translator_ h' = time_translator_ h
  /\ localization_state_ h' = localization_state_ h
  /\ T_M_I_buffer_ h' = T_M_I_buffer_ h
  /\ T_G_M_filter_buffer_ h' = T_G_M_filter_buffer_ h
  /\ localization_buffer_ h' = localization_buffer_ h
  /\ camera_calibration_ h' = camera_calibration_ h
  /\ maplab_to_openvins_cam_indices_mapping_ h'
     = maplab_to_openvins_cam_indices_mapping_ h.

(** The members a drain of the pending queue reads but never writes. *)
Definition same_lookup_data (h h' : OpenvinsLocalizationHandler) : Prop :=
  time_translator_ h' = time_translator_ h
  /\ T_M_I_buffer_ h' = T_M_I_buffer_ h.

(** The localization state is as before or has become [kLocalized]. *)
Definition state_advances (h h' : OpenvinsLocalizationHandler) : Prop :=
  localization_state_ h' = localization_state_ h
  \/ localization_state_ h' = kLocalized.

(** The front part of the pending queue a drain releases when the newest
    buffered pose has time [newest], and the part it holds. *)
Fixpoint released (newest : Z) (pending : list LocalizationResult)
  : list LocalizationResult :=
  match pending with
  | [] => []
  | r :: pending' =>
      if (newest <? timestamp_ns r)%Z then []
      else r :: released newest pending'
  end.

Fixpoint held (newest : Z) (pending : list LocalizationResult)
  : list LocalizationResult :=
  match pending with
  | [] => []
  | r :: pending' =>
      if (newest <? timestamp_ns r)%Z then pending
      else held newest pending'
  end.

(** The accumulators of the reprojection loops are well formed: the two
    vectors have the same length, no more entries than matches processed,
    and no negative entry. *)
Definition acc_ok (acc : ReprojectionAcc) : Prop :=
  let '(lc, fl, n) := acc in
  length lc = length fl
  /\ (length lc <= n)%nat
  /\ Forall (fun e => 0 <= e) lc
  /\ Forall (fun e => 0 <= e) fl.

Definition q_squaredNorm (q : Quaternion) : R :=
  qw q * qw q + qx q * qx q + qy q * qy q + qz q * qz q.

(** How far the rotated gravity direction of [q] is from unit length. *)
Definition gravity_norm_defect (q : Quaternion) : R :=
  4 * (qx q * qx q + qy q * qy q) * (q_squaredNorm q - 1).

(** ** Navigation state names (mini-nav2d-flow.h) *)

Module Nav2dFlow.

Import String.

(** [enum class NavState], with [int] as its underlying type: a value of
    the type is an integer, and the four enumerators are the values
    0 .. 3, so that the cast of 0 is [IDLE]. *)
Definition NavState : Type := Z.

Definition IDLE : NavState := 0%Z.
Definition PATH_RECORDING : NavState := 1%Z.
Definition PATH_PLANNING : NavState := 2%Z.
Definition NAVIGATING : NavState := 3%Z.

(** The name returned after the [switch], when no case matched. *)
Definition fallback_name : string := "UNKOWN".

Definition stateStr (state : NavState) : string :=
  if (state =? IDLE)%Z then "IDLE"
  else if (state =? PATH_RECORDING)%Z then "PATH_RECORDING"
  else if (state =? PATH_PLANNING)%Z then "PATH_PLANNING"
  else if (state =? NAVIGATING)%Z then "NAVIGATING"
  else fallback_name.

Definition is_enumerator (state : NavState) : bool :=
  (0 <=? state)%Z && (state <=? 3)%Z.

End Nav2dFlow.

(** ** Concrete collaborators and inputs used in the examples *)

Module Demo.

Definition externals : Externals := {|
  slerp := fun a _ _ => a;
  uniform_int_distribution :=
    fun seed n k => (Z.to_nat (Z.abs seed) + k) mod n;
  Quaterniond_of_Matrix3d := fun m => mkQuaternion (m 0 0) 0 0 0;
  std_acos := acos
|}%nat.

Definition constants : HandlerConstants :=
  mkHandlerConstants 5000000000 500000000 1 (3 # 4) 3 (20 * PI / 180) 5.

(** Structure-constraint mode, other flags at their defaults. *)
Definition structure_flags : Flags := mkFlags false 2 100 false 5.

Definition vio : VioManager := mkVioManager [] true.
Definition translator : Z -> R := fun t => IZR t / 1000000000.

(** One camera that sees every point at pixel (0, 0). *)
Definition camera : Camera :=
  mkCamera (fun _ => (KEYPOINT_VISIBLE, mkVector2 0 0)).
Definition ncamera : NCamera := mkNCamera [(camera, T_identity)].
(** A camera that has every point behind it. *)
Definition camera_behind : Camera :=
  mkCamera (fun _ => (POINT_BEHIND_CAMERA, mkVector2 0 0)).
Definition mapping : BidirectionalMap := [(0, 0)]%nat.

Definition origin2 : Vector2 := mkVector2 0 0.
Definition point : Vector3 := mkVector3 0 0 1.

(** A localization result at time 150 with six matches in camera 0. *)
Definition result_150 : LocalizationResult :=
  mkLocalizationResult 150 T_identity
    [[point; point; point; point; point; point]]
    [[origin2; origin2; origin2; origin2; origin2; origin2]].

(** A localization result at time 150 without matches. *)
Definition result_150_empty : LocalizationResult :=
  mkLocalizationResult 150 T_identity [[]] [[]].

(** A localization result at time 100, the time of a buffered pose. *)
Definition result_100 : LocalizationResult :=
  mkLocalizationResult 100 T_identity [[]] [[]].

(** A localization result at time 50, older than every buffered pose. *)
Definition result_50 : LocalizationResult :=
  mkLocalizationResult 50 T_identity [[]] [[]].

(** A localization result at time 300 without matches. *)
Definition result_300 : LocalizationResult :=
  mkLocalizationResult 300 T_identity [[]] [[]].

Definition device : nat -> Z := fun n => Z.of_nat n.

(** A handler with poses at times 100 and 200, one filter baseframe and
    the given baseframe candidates. *)
Definition handler_with (s : LocalizationState)
  (pending : list LocalizationResult) (candidates : list Transformation)
  : OpenvinsLocalizationHandler :=
  mkOpenvinsLocalizationHandler vio translator s
    (mkPoseLookupBuffer [(100, T_identity); (200, T_identity)]%Z
                        5000000000 500000000)
    (mkFixedSizeQueue [T_identity] 1)
    (mkFixedSizeQueue candidates 2)
    pending ncamera mapping [] device.

Definition handler (s : LocalizationState) (pending : list LocalizationResult)
  : OpenvinsLocalizationHandler :=
  handler_with s pending [].

(** The same handler with an index mapping that knows no camera and
    without a filter baseframe. *)
Definition handler_unmapped (s : LocalizationState)
  : OpenvinsLocalizationHandler :=
  mkOpenvinsLocalizationHandler vio translator s
    (mkPoseLookupBuffer [(100, T_identity); (200, T_identity)]%Z
                        5000000000 500000000)
    (mkFixedSizeQueue [] 1)
    (mkFixedSizeQueue [] 2)
    [] ncamera [] [] device.

(** The pose the buffer of [handler] interpolates at time 150. *)
Definition pose_150 : Transformation :=
  snd (@getPoseAt externals
         (T_M_I_buffer_ (handler kUninitialized [])) 150).

(** A baseframe candidate ten metres away from the identity. *)
Definition far_pose : Transformation :=
  mkTransformation q_identity (mkVector3 10 0 0).

(** A camera that sees every point at the pixel given by its x and y
    coordinates, a handler calibrated with it, and a localization result
    with two matches of [point] at pixel (0, 0). *)
Definition camera_xy : Camera :=
  mkCamera (fun p => (KEYPOINT_VISIBLE, mkVector2 (v3x p) (v3y p))).

Definition handler_xy : OpenvinsLocalizationHandler :=
  mkOpenvinsLocalizationHandler vio translator kLocalized
    (mkPoseLookupBuffer [(100, T_identity); (200, T_identity)]%Z
                        5000000000 500000000)
    (mkFixedSizeQueue [T_identity] 1)
    (mkFixedSizeQueue [] 2)
    [] (mkNCamera [(camera_xy, T_identity)]) mapping [] device.

Definition result_xy : LocalizationResult :=
  mkLocalizationResult 150 T_identity [[point; point]] [[origin2; origin2]].

(** A body pose shifted by (3, 4, 0). *)
Definition shifted_pose : Transformation :=
  mkTransformation q_identity (mkVector3 3 4 0).

(** The camera pose the reprojection loop derives from the body pose
    [T_G_I] with identity extrinsics, and the residual of [point] in
    [camera_xy] under it. *)
Definition pose_in_camera (T_G_I : Transformation) : Transformation :=
  T_inverse (T_mul T_identity (T_inverse T_G_I)).

Definition residual_xy (T_G_I : Transformation) : R :=
  v2_norm
    (v2_sub
       (snd (project3 camera_xy
               (T_apply (T_inverse (pose_in_camera T_G_I)) point)))
       origin2).

(** A camera that has the points with z <= 0 behind it and sees the
    others at the pixel given by their x and y coordinates; a handler
    calibrated with it; a localization result five metres ahead of the
    origin with three matches, the second of which is then behind the
    camera of the localization hypothesis. *)
Definition camera_front : Camera :=
  mkCamera (fun p => (if Rleb (v3z p) 0
                      then POINT_BEHIND_CAMERA else KEYPOINT_VISIBLE,
                      mkVector2 (v3x p) (v3y p))).

Definition handler_front : OpenvinsLocalizationHandler :=
  mkOpenvinsLocalizationHandler vio translator kLocalized
    (mkPoseLookupBuffer [(100, T_identity); (200, T_identity)]%Z
                        5000000000 500000000)
    (mkFixedSizeQueue [T_identity] 1)
    (mkFixedSizeQueue [] 2)
    [] (mkNCamera [(camera_front, T_identity)]) mapping [] device.

Definition pose_ahead : Transformation :=
  mkTransformation q_identity (mkVector3 0 0 5).

Definition point_at (z : R) : Vector3 := mkVector3 0 0 z.

Definition result_front : LocalizationResult :=
  mkLocalizationResult 150 pose_ahead
    [[point_at 10; point_at 1; point_at 20]]
    [[origin2; origin2; origin2]].





(** The residual of each match of [result_150] in [camera], and the
    vectors and rate [getLocalizationReprojectionErrors] then produces. *)
Definition residual : R := v2_norm (v2_sub (mkVector2 0 0) origin2).
Definition residuals : list R :=
  [residual; residual; residual; residual; residual; residual].
Definition rate : R := INR 6 / INR 6.

End Demo.

(** * Properties *)

(** ** Comparisons and outcomes *)

Lemma Rltb_true (a b : R) : Rltb a b = true <-> a < b.
Proof. unfold Rltb. destruct (Rlt_dec a b); split; intros; try lra; congruence. Qed.

Lemma Rltb_false (a b : R) : Rltb a b = false <-> b <= a.
Proof. unfold Rltb. destruct (Rlt_dec a b); split; intros; try lra; congruence. Qed.

Lemma Rleb_true (a b : R) : Rleb a b = true <-> a <= b.
Proof. unfold Rleb. destruct (Rle_dec a b); split; intros; try lra; congruence. Qed.

Lemma Rleb_false (a b : R) : Rleb a b = false <-> b < a.
Proof. unfold Rleb. destruct (Rle_dec a b); split; intros; try lra; congruence. Qed.

Lemma CHECK_NEAR_exact (x : R) : x = 1 -> CHECK_NEAR x 1 1e-8 = true.
Proof.
  intros ->. unfold CHECK_NEAR.
  apply andb_true_iff; split; apply Rleb_true; lra.
Qed.

Lemma degrees_in_range (x : R) :
  0 <= x <= PI -> 0 <= x * kRadToDeg <= 180.
Proof.
  intros [H0 H1]. unfold kRadToDeg.
  pose proof PI_RGT_0 as Hpi.
  assert (Hk : 0 < 180 / PI) by (apply Rdiv_lt_0_compat; lra).
  split.
  - apply Rmult_le_pos; lra.
  - replace 180 with (PI * (180 / PI)) at 2 by (field; lra).
    apply Rmult_le_compat_r; lra.
Qed.

(** ** Pose history buffer *)

Lemma oldest_timestamp_some (l : list (Z * Transformation)) (t : Z) :
  exists t', fold_left (fun acc s => match acc with
                                     | None => Some (fst s)
                                     | Some t => Some (Z.min t (fst s))
                                     end) l (Some t) = Some t'.
Proof.
  revert t. induction l as [|s l IH]; intros t; simpl.
  - now exists t.
  - apply IH.
Qed.

Lemma oldest_timestamp_defined (l : list (Z * Transformation)) (n : Z) :
  newest_timestamp l = Some n -> exists o, oldest_timestamp l = Some o.
Proof.
  destruct l as [|s l]; simpl.
  - discriminate.
  - intros _. unfold oldest_timestamp. simpl. apply oldest_timestamp_some.
Qed.

(** A query past the newest buffered sample is not yet available, and a
    query on an empty buffer as well. *)
Lemma getPoseAt_not_yet_available (E : Externals) (b : PoseLookupBuffer)
  (t : Z) :
  match getNewestTimestampOfAvailablePose b with
  | Some newest => (newest < t)%Z
  | None => True
  end ->
  getPoseAt b t = (kFailedNotYetAvailable, T_identity).
Proof.
  unfold getNewestTimestampOfAvailablePose, getPoseAt.
  destruct (newest_timestamp (samples b)) as [newest|] eqn:Hnewest.
  - intros Hlt.
    destruct (oldest_timestamp_defined _ _ Hnewest) as [o ->].
    apply Z.ltb_lt in Hlt. now rewrite Hlt.
  - intros _. now destruct (oldest_timestamp (samples b)).
Qed.

Example getPoseAt_before_oldest :
  fst (@getPoseAt Demo.externals
         (T_M_I_buffer_ (Demo.handler kUninitialized [])) 50)
  = kFailedWillNeverSucceed.
Proof. reflexivity. Qed.

Example getPoseAt_inside_span :
  fst (@getPoseAt Demo.externals
         (T_M_I_buffer_ (Demo.handler kUninitialized [])) 150)
  = kSuccessInterpolated.
Proof. reflexivity. Qed.

(** ** Construction *)

(** C5: a handler built with the 6-DoF flag set starts in [kLocalized];
    built with the flag cleared it starts in [kUninitialized]. *)
Theorem constructor_initial_state
  (K : HandlerConstants) (FLAGS : Flags) (vio : VioManager)
  (translator : Z -> R) (calibration : NCamera) (mapping : BidirectionalMap)
  (log : list LogRecord) (device : nat -> Z) :
  exists h,
    OpenvinsLocalizationHandler_new K FLAGS (Some vio) (Some translator)
                                    calibration mapping log device = Ok h
    /\ localization_state_ h =
       (if FLAGS_openvinsli_use_6dof_localization FLAGS
        then kLocalized else kUninitialized).
Proof.
  eexists. split.
  - reflexivity.
  - reflexivity.
Qed.

(** ** Gravity disparity angle *)

(** C9: when both rotated gravity directions are unit vectors the function
    returns an angle between 0 and 180 degrees; a cosine at or below -1
    gives exactly 180, a cosine at or above 1 gives exactly 0, and
    [std::acos] is applied only to a cosine strictly between -1 and 1 (the
    result does not depend on what [std::acos] does elsewhere). *)
Theorem gravity_disparity_angle_range
  (E : Externals) (localization_result : LocalizationResult)
  (T_G_I_vio : Transformation) :
  let g_vio := q_rotate (q_inverse (getRotation T_G_I_vio)) UnitZ in
  let g_loc :=
    q_rotate (q_inverse (getRotation (T_G_B localization_result))) UnitZ in
  let error_cosine := v3_dot g_vio g_loc in
  (forall x, -1 < x < 1 -> std_acos x = acos x) ->
  v3_squaredNorm g_vio = 1 ->
  v3_squaredNorm g_loc = 1 ->
  exists angle,
    getLocalizationResultGravityDisparityAngleDeg
      localization_result T_G_I_vio = Ok angle
    /\ 0 <= angle <= 180
    /\ (error_cosine <= -1 -> angle = 180)
    /\ (1 <= error_cosine -> angle = 0)
    /\ (-1 < error_cosine < 1 -> angle = acos error_cosine * kRadToDeg).
Proof.
  intros g_vio g_loc error_cosine Hacos Hvio Hloc.
  unfold getLocalizationResultGravityDisparityAngleDeg.
  fold g_vio g_loc. fold error_cosine.
  rewrite (CHECK_NEAR_exact _ Hvio), (CHECK_NEAR_exact _ Hloc). simpl.
  eexists. split; [reflexivity|].
  destruct (Rleb error_cosine (-1)) eqn:Hlow.
  - apply Rleb_true in Hlow. repeat split; intros; lra.
  - apply Rleb_false in Hlow.
    destruct (Rleb 1 error_cosine) eqn:Hhigh.
    + apply Rleb_true in Hhigh. repeat split; intros; lra.
    + apply Rleb_false in Hhigh.
      rewrite Hacos by lra.
      pose proof (degrees_in_range (acos error_cosine)
                    (acos_bound error_cosine)) as Hrange.
      repeat split; intros; lra.
Qed.

Lemma gravity_disparity_angle_range_witness :
  (forall x, -1 < x < 1 -> @std_acos Demo.externals x = acos x)
  /\ v3_squaredNorm
       (q_rotate (q_inverse (getRotation T_identity)) UnitZ) = 1
  /\ v3_squaredNorm
       (q_rotate (q_inverse (getRotation (T_G_B Demo.result_150))) UnitZ) = 1
  /\ exists angle,
       @getLocalizationResultGravityDisparityAngleDeg Demo.externals
         Demo.result_150 T_identity = Ok angle
       /\ 0 <= angle <= 180.
Proof.
  assert (Hacos : forall x, -1 < x < 1 -> @std_acos Demo.externals x = acos x)
    by (intros x _; reflexivity).
  assert (Hunit : v3_squaredNorm
                    (q_rotate (q_inverse (getRotation T_identity)) UnitZ) = 1)
    by (unfold v3_squaredNorm, v3_dot; simpl; lra).
  repeat split; try assumption.
  destruct (gravity_disparity_angle_range Demo.externals Demo.result_150
              T_identity Hacos Hunit Hunit) as [angle [Hrun [Hrange _]]].
  exists angle. split; assumption.
Defined.

(** ** Baseframe read-out *)

Lemma ensurePositiveQuaternion_sign (q : Quaternion) :
  0 <= qw (ensurePositiveQuaternion q)
  /\ (ensurePositiveQuaternion q = q \/ ensurePositiveQuaternion q = q_neg q).
Proof.
  unfold ensurePositiveQuaternion.
  destruct (Rltb (qw q) 0) eqn:Hneg.
  - apply Rltb_true in Hneg. simpl. split; [lra | now right].
  - apply Rltb_false in Hneg. split; [lra | now left].
Qed.

(** C10: [extractLocalizationFromOpenvinsState] returns
    [output.status.localized]; when the flag is false [*T_G_M] keeps its
    value, and when it is true [*T_G_M] takes the translation column of
    [T_MtoG] and the quaternion of its rotation block, negated if needed so
    that the scalar part is not negative. *)
Theorem extractLocalizationFromOpenvinsState_spec
  (E : Externals) (output : Output) (T_G_M : Transformation) :
  let q := Quaterniond_of_Matrix3d (block33 (T_MtoG (status output))) in
  let result := extractLocalizationFromOpenvinsState output T_G_M in
  fst result = localized (status output)
  /\ (if localized (status output)
      then getPosition (snd result) = block31_col3 (T_MtoG (status output))
           /\ (getRotation (snd result) = q
               \/ getRotation (snd result) = q_neg q)
           /\ 0 <= qw (getRotation (snd result))
      else snd result = T_G_M).
Proof.
  intros q result. subst result.
  unfold extractLocalizationFromOpenvinsState.
  destruct (localized (status output)); simpl.
  - destruct (ensurePositiveQuaternion_sign q) as [Hsign Hcases].
    fold q. repeat split; assumption.
  - split; reflexivity.
Qed.

(** ** Reprojection loops *)

Lemma ofold_app {A B : Type} (f : A -> B -> outcome A) (l1 l2 : list B)
  (a : A) :
  ofold f (l1 ++ l2) a = obind (ofold f l1 a) (ofold f l2).
Proof.
  revert a. induction l1 as [|x l1 IH]; intros a; simpl.
  - reflexivity.
  - destruct (f a x) as [|a']; simpl; [reflexivity | apply IH].
Qed.

Lemma getReprojectionError_invalid (p_G : Vector3) (T_G_C : Transformation)
  (camera : Camera) (measurement : Vector2) :
  geometrically_invalid (projection_status camera T_G_C p_G) = true ->
  getReprojectionErrorForGlobalLandmark p_G T_G_C camera measurement
  = Ok None.
Proof.
  unfold projection_status, getReprojectionErrorForGlobalLandmark.
  destruct (project3 camera (T_apply (T_inverse T_G_C) p_G)) as [s kp].
  simpl. destruct s; simpl; intros Hs; congruence.
Qed.

Lemma getReprojectionError_valid (p_G : Vector3) (T_G_C : Transformation)
  (camera : Camera) (measurement : Vector2) :
  geometrically_invalid (projection_status camera T_G_C p_G) = false ->
  projection_status camera T_G_C p_G <> UNINITIALIZED ->
  exists e,
    getReprojectionErrorForGlobalLandmark p_G T_G_C camera measurement
    = Ok (Some e).
Proof.
  unfold projection_status, getReprojectionErrorForGlobalLandmark.
  destruct (project3 camera (T_apply (T_inverse T_G_C) p_G)) as [s kp].
  simpl. destruct s; simpl; intros Hs Hu; try congruence; eexists; reflexivity.
Qed.

Lemma process_match_skips (camera : Camera)
  (T_G_C_filter T_G_C_lc : Transformation)
  (keypoint : Vector2) (p_G : Vector3) (lc fl : list R) (n : nat) :
  projection_status camera T_G_C_filter p_G <> UNINITIALIZED ->
  geometrically_invalid (projection_status camera T_G_C_filter p_G) = true
  \/ geometrically_invalid (projection_status camera T_G_C_lc p_G) = true ->
  process_match camera T_G_C_filter T_G_C_lc (lc, fl, n) (keypoint, p_G)
  = Ok (lc, fl, S n).
Proof.
  intros Hinit Hinvalid. unfold process_match.
  destruct (geometrically_invalid
              (projection_status camera T_G_C_filter p_G)) eqn:Hfilter.
  - rewrite getReprojectionError_invalid by assumption. reflexivity.
  - destruct Hinvalid as [Hcontra | Hlc]; [discriminate|].
    destruct (getReprojectionError_valid p_G T_G_C_filter camera keypoint
                Hfilter Hinit) as [e He].
    rewrite He. simpl.
    rewrite getReprojectionError_invalid by assumption. reflexivity.
Qed.

(** ** The entry point and the 6-DoF update path *)

Lemma processLocalizationResult_run (h : OpenvinsLocalizationHandler)
  (r : LocalizationResult) :
  processLocalizationResult r h
  = Ok (tt, set_openvins_interface
              (feed_measurement_localization
                 (makeOpenvinsLocalizationData h r) (openvins_interface_ h))
              h).
Proof. reflexivity. Qed.

(** C6: with the 6-DoF flag set, the entry point hands the arriving result
    to the estimator and changes nothing else of the handler (no candidate
    is stored, no seed is drawn, nothing is logged), and [processAsUpdate]
    feeds the result and returns [true] whenever the pose lookup it checks
    first succeeds; it never returns [false]. *)
Theorem six_dof_mode_forwards_and_accepts
  (E : Externals) (FLAGS : Flags) (h : OpenvinsLocalizationHandler)
  (r : LocalizationResult) :
  FLAGS_openvinsli_use_6dof_localization FLAGS = true ->
  let fed :=
    set_openvins_interface
      (feed_measurement_localization
         (makeOpenvinsLocalizationData h r) (openvins_interface_ h)) h in
  processLocalizationResult r h = Ok (tt, fed)
  /\ T_G_M_loc_buffer_ fed = T_G_M_loc_buffer_ h
  /\ glog fed = glog h
  /\ random_device fed = random_device h
  /\ processAsUpdate FLAGS r h
     = match fst (getPoseAt (T_M_I_buffer_ h) (timestamp_ns r)) with
       | kSuccessInterpolated => Ok (true, fed)
       | _ => Fatal
       end.
Proof.
  intros Hmode fed. repeat split.
  unfold processAsUpdate, bind, get.
  destruct (getPoseAt (T_M_I_buffer_ h) (timestamp_ns r)) as [lookup T_M_I].
  destruct lookup; simpl; try reflexivity.
  rewrite Hmode. reflexivity.
Qed.

Lemma six_dof_mode_forwards_and_accepts_witness :
  FLAGS_openvinsli_use_6dof_localization default_flags = true
  /\ @processAsUpdate Demo.externals default_flags Demo.result_150
       (Demo.handler kLocalized [])
     = Ok (true,
           set_openvins_interface
             (feed_measurement_localization
                (makeOpenvinsLocalizationData (Demo.handler kLocalized [])
                                              Demo.result_150)
                (openvins_interface_ (Demo.handler kLocalized [])))
             (Demo.handler kLocalized [])).
Proof.
  split; [reflexivity|].
  destruct (six_dof_mode_forwards_and_accepts Demo.externals default_flags
              (Demo.handler kLocalized []) Demo.result_150 eq_refl)
    as [_ [_ [_ [_ Hupdate]]]].
  exact Hupdate.
Defined.

(** ** The pending queue *)

Lemma dealWithBufferedLocalizations_empty
  (E : Externals) (K : HandlerConstants) (FLAGS : Flags)
  (h : OpenvinsLocalizationHandler) :
  localization_buffer_ h = [] ->
  dealWithBufferedLocalizations K FLAGS h = Ok (tt, h).
Proof.
  intros Hempty. unfold dealWithBufferedLocalizations, bind, get.
  destruct (getNewestTimestampOfAvailablePose (T_M_I_buffer_ h));
    [|reflexivity].
  rewrite Hempty. simpl. unfold bind, get. rewrite Hempty. reflexivity.
Qed.

Lemma dealWithBufferedLocalizations_holds
  (E : Externals) (K : HandlerConstants) (FLAGS : Flags)
  (h : OpenvinsLocalizationHandler) (r : LocalizationResult)
  (rest : list LocalizationResult) :
  localization_buffer_ h = r :: rest ->
  match getNewestTimestampOfAvailablePose (T_M_I_buffer_ h) with
  | Some newest => (newest < timestamp_ns r)%Z
  | None => True
  end ->
  dealWithBufferedLocalizations K FLAGS h = Ok (tt, h).
Proof.
  intros Hfront Hnewer. unfold dealWithBufferedLocalizations, bind, get.
  destruct (getNewestTimestampOfAvailablePose (T_M_I_buffer_ h)) as [newest|];
    [|reflexivity].
  rewrite Hfront. simpl. unfold bind, get. rewrite Hfront.
  apply Z.ltb_lt in Hnewer. rewrite Hnewer. reflexivity.
Qed.

Lemma dealWithBufferedLocalizations_releases
  (E : Externals) (K : HandlerConstants) (FLAGS : Flags)
  (h : OpenvinsLocalizationHandler) (r : LocalizationResult)
  (rest : list LocalizationResult) (newest : Z) :
  localization_buffer_ h = r :: rest ->
  getNewestTimestampOfAvailablePose (T_M_I_buffer_ h) = Some newest ->
  (timestamp_ns r <= newest)%Z ->
  dealWithBufferedLocalizations K FLAGS h
  = bind (processLocalizationResultInternal K FLAGS r)
         (fun _ => drain_localization_buffer K FLAGS (S (length rest)) newest)
         (set_localization_buffer rest h).
Proof.
  intros Hfront Hnewest Hready.
  unfold dealWithBufferedLocalizations at 1. unfold bind at 1, get at 1.
  rewrite Hnewest, Hfront.
  cbn [length drain_localization_buffer].
  unfold bind at 1, get at 1. rewrite Hfront.
  apply Z.ltb_ge in Hready. rewrite Hready.
  reflexivity.
Qed.

(** C1, as the code has it: the entry point does not hold an arriving
    result back.  Whatever the pose buffer answers for its timestamp,
    [processLocalizationResult] hands it to the estimator at once and
    leaves the pending queue as it was.  Holding applies only to results
    already in the queue: [dealWithBufferedLocalizations] leaves the whole
    queue in place while the front result is newer than the newest buffered
    pose or no pose is buffered (the lookup is then not yet available), and
    otherwise pops the front result and passes it to
    [processLocalizationResultInternal]. *)
Theorem arriving_result_is_forwarded_not_held
  (E : Externals) (K : HandlerConstants) (FLAGS : Flags)
  (h : OpenvinsLocalizationHandler) (r : LocalizationResult) :
  (exists h',
      processLocalizationResult r h = Ok (tt, h')
      /\ localization_buffer_ h' = localization_buffer_ h
      /\ fed_localizations (openvins_interface_ h')
         = fed_localizations (openvins_interface_ h)
             ++ [makeOpenvinsLocalizationData h r])
  /\ (forall rest,
         localization_buffer_ h = r :: rest ->
         match getNewestTimestampOfAvailablePose (T_M_I_buffer_ h) with
         | Some newest => (newest < timestamp_ns r)%Z
         | None => True
         end ->
         fst (getPoseAt (T_M_I_buffer_ h) (timestamp_ns r))
         = kFailedNotYetAvailable
         /\ dealWithBufferedLocalizations K FLAGS h = Ok (tt, h))
  /\ (forall rest newest,
         localization_buffer_ h = r :: rest ->
         getNewestTimestampOfAvailablePose (T_M_I_buffer_ h) = Some newest ->
         (timestamp_ns r <= newest)%Z ->
         dealWithBufferedLocalizations K FLAGS h
         = bind (processLocalizationResultInternal K FLAGS r)
                (fun _ =>
                   drain_localization_buffer K FLAGS (S (length rest)) newest)
                (set_localization_buffer rest h)).
Proof.
  split; [|split].
  - eexists. split; [apply processLocalizationResult_run|].
    split; reflexivity.
  - intros rest Hfront Hnewer. split.
    + now rewrite getPoseAt_not_yet_available.
    + now apply dealWithBufferedLocalizations_holds with (r := r) (rest := rest).
  - intros rest newest. apply dealWithBufferedLocalizations_releases.
Qed.

Lemma arriving_result_is_forwarded_not_held_witness :
  localization_buffer_ (Demo.handler kLocalized [Demo.result_300])
  = Demo.result_300 :: []
  /\ @dealWithBufferedLocalizations Demo.externals Demo.constants
       default_flags (Demo.handler kLocalized [Demo.result_300])
     = Ok (tt, Demo.handler kLocalized [Demo.result_300]).
Proof.
  split; [reflexivity|].
  destruct (arriving_result_is_forwarded_not_held Demo.externals
              Demo.constants default_flags
              (Demo.handler kLocalized [Demo.result_300]) Demo.result_300)
    as [_ [Hhold _]].
  apply (Hhold []); [reflexivity|].
  simpl. lia.
Defined.

(** C1, as stated, fails: the result at time 300 is newer than the newest
    buffered pose (time 200), so its lookup answers not-yet-available; the
    entry point nevertheless leaves it out of the pending queue, and
    [initializeBaseframe] answers that status with a warning and [false]. *)
Lemma not_yet_available_result_is_not_held :
  fst (@getPoseAt Demo.externals
         (T_M_I_buffer_ (Demo.handler kUninitialized []))
         (timestamp_ns Demo.result_300)) = kFailedNotYetAvailable
  /\ ~ (exists h',
           processLocalizationResult Demo.result_300
             (Demo.handler kUninitialized []) = Ok (tt, h')
           /\ In Demo.result_300 (localization_buffer_ h'))
  /\ @initializeBaseframe Demo.externals Demo.constants Demo.structure_flags
       Demo.result_300 (Demo.handler kUninitialized [])
     = Ok (false,
           set_glog [(WARNING, MsgCouldNotGetPoseForBaseframeInit)]
                    (Demo.handler kUninitialized [])).
Proof.
  split; [reflexivity|]. split.
  - intros [h' [Hrun Hin]].
    rewrite processLocalizationResult_run in Hrun.
    injection Hrun as Hh'. subst h'. simpl in Hin. exact Hin.
  - reflexivity.
Qed.

(** ** Every delivered result is fed exactly once *)

Lemma run_call_step
  (E : Externals) (K : HandlerConstants) (FLAGS : Flags)
  (c : HandlerCall) (h : OpenvinsLocalizationHandler) :
  localization_buffer_ h = [] ->
  exists h',
    run_call K FLAGS c h = Ok (tt, h')
    /\ fed_localizations (openvins_interface_ h')
       = fed_localizations (openvins_interface_ h)
           ++ map (makeOpenvinsLocalizationData h) (delivered [c])
    /\ localization_buffer_ h' = []
    /\ time_translator_ h' = time_translator_ h
    /\ glog h' = glog h
    /\ localization_state_ h' = localization_state_ h.
Proof.
  intros Hempty. destruct c as [r | | t T]; simpl.
  - eexists. split; [apply processLocalizationResult_run|].
    simpl. repeat split; assumption.
  - exists h. rewrite dealWithBufferedLocalizations_empty by assumption.
    rewrite app_nil_r. repeat split; assumption.
  - eexists. split; [reflexivity|]. simpl.
    rewrite app_nil_r. repeat split; assumption.
Qed.

Lemma makeOpenvinsLocalizationData_translator
  (h h' : OpenvinsLocalizationHandler) (r : LocalizationResult) :
  time_translator_ h' = time_translator_ h ->
  makeOpenvinsLocalizationData h' r = makeOpenvinsLocalizationData h r.
Proof. intros Heq. unfold makeOpenvinsLocalizationData. now rewrite Heq. Qed.

(** C7: whatever sequence of calls the owner makes on a handler whose
    pending queue is empty (as it is after construction) -- results
    delivered through the entry point, drains of the pending queue, new
    odometry poses -- every call returns, each delivered result is fed to
    the estimator exactly once and in arrival order (the list of fed
    measurements grows by exactly one entry per delivered result), nothing
    stays behind in the pending queue, and nothing is logged or rejected:
    being fed is the one disposition every result gets. *)
Theorem every_result_fed_exactly_once
  (E : Externals) (K : HandlerConstants) (FLAGS : Flags)
  (cs : list HandlerCall) (h : OpenvinsLocalizationHandler) :
  localization_buffer_ h = [] ->
  exists h',
    run_calls K FLAGS cs h = Ok (tt, h')
    /\ fed_localizations (openvins_interface_ h')
       = fed_localizations (openvins_interface_ h)
           ++ map (makeOpenvinsLocalizationData h) (delivered cs)
    /\ localization_buffer_ h' = []
    /\ glog h' = glog h
    /\ localization_state_ h' = localization_state_ h.
Proof.
  revert h. induction cs as [|c cs IH]; intros h Hempty.
  - exists h. simpl. rewrite app_nil_r. repeat split; assumption.
  - destruct (run_call_step E K FLAGS c h Hempty)
      as [h1 [Hrun [Hfed [Hbuf [Htr [Hlog Hst]]]]]].
    destruct (IH h1 Hbuf) as [h2 [Hrun2 [Hfed2 [Hbuf2 [Hlog2 Hst2]]]]].
    exists h2. split.
    + cbn [run_calls]. unfold bind. rewrite Hrun. exact Hrun2.
    + split; [|repeat split; congruence].
      rewrite Hfed2, Hfed, <- app_assoc. f_equal.
      rewrite (map_ext _ _ (fun r =>
                 makeOpenvinsLocalizationData_translator h h1 r Htr)).
      destruct c; reflexivity.
Qed.

Lemma every_result_fed_exactly_once_witness :
  localization_buffer_ (Demo.handler kLocalized []) = []
  /\ exists h',
       @run_calls Demo.externals Demo.constants default_flags
         [DeliverLocalization Demo.result_300; DrainBuffered;
          DeliverPose 400 T_identity; DeliverLocalization Demo.result_150]
         (Demo.handler kLocalized []) = Ok (tt, h')
       /\ fed_localizations (openvins_interface_ h')
          = [makeOpenvinsLocalizationData (Demo.handler kLocalized [])
                                          Demo.result_300;
             makeOpenvinsLocalizationData (Demo.handler kLocalized [])
                                          Demo.result_150].
Proof.
  split; [reflexivity|].
  destruct (every_result_fed_exactly_once Demo.externals Demo.constants
              default_flags
              [DeliverLocalization Demo.result_300; DrainBuffered;
               DeliverPose 400 T_identity; DeliverLocalization Demo.result_150]
              (Demo.handler kLocalized []) eq_refl)
    as [h' [Hrun [Hfed _]]].
  exists h'. split; [exact Hrun | exact Hfed].
Defined.

(** ** Baseframe initialization *)

Lemma fsq_insert_bound {A : Type} (x : A) (q : FixedSizeQueue A) :
  (fsq_size q <= buffer_size_ q)%nat ->
  (fsq_size (fsq_insert x q) <= buffer_size_ q)%nat
  /\ buffer_size_ (fsq_insert x q) = buffer_size_ q.
Proof.
  unfold fsq_size, fsq_insert. intros Hle. simpl. split; [|reflexivity].
  destruct (Nat.ltb_spec (buffer_size_ q) (length (buffer q ++ [x])))
    as [Hover | Hfit].
  - destruct (buffer q ++ [x]) as [|y l] eqn:Hl.
    + simpl. lia.
    + assert (Hlen : length (buffer q ++ [x]) = S (length l))
        by (rewrite Hl; reflexivity).
      rewrite length_app in Hlen. simpl in *. lia.
  - exact Hfit.
Qed.

Lemma constructor_loc_buffer_ok
  (K : HandlerConstants) (FLAGS : Flags) (vio : VioManager)
  (translator : Z -> R) (calibration : NCamera) (mapping : BidirectionalMap)
  (log : list LogRecord) (device : nat -> Z) (h : OpenvinsLocalizationHandler) :
  OpenvinsLocalizationHandler_new K FLAGS (Some vio) (Some translator)
                                  calibration mapping log device = Ok h ->
  loc_buffer_ok FLAGS h /\ localization_buffer_ h = [].
Proof.
  intros Hnew. injection Hnew as <-. unfold loc_buffer_ok, fsq_size. simpl.
  repeat split. lia.
Qed.

(** [initializeBaseframe] after a successful pose lookup. *)
Lemma initializeBaseframe_ready
  (E : Externals) (K : HandlerConstants) (FLAGS : Flags)
  (h : OpenvinsLocalizationHandler) (r : LocalizationResult)
  (T_M_I : Transformation) :
  getPoseAt (T_M_I_buffer_ h) (timestamp_ns r)
  = (kSuccessInterpolated, T_M_I) ->
  let h1 :=
    set_T_G_M_loc_buffer
      (fsq_insert (T_mul (T_G_B r) (T_inverse T_M_I)) (T_G_M_loc_buffer_ h))
      h in
  let h2 := set_random_device (fun n => random_device h (S n)) h1 in
  let estimate :=
    transformationRansac (candidates_after h r T_M_I)
      (kInitializationMaxNumRansacIterations K)
      (kInitializationRansacOrientationErrorThresholdRadians K)
      (kInitializationRansacPositionErrorThresholdMeters K)
      (drawn_seed h) in
  initializeBaseframe K FLAGS r h
  = if (length (candidates_after h r T_M_I) <?
        FLAGS_openvinsli_min_num_baseframe_estimates_before_init FLAGS)%nat
    then Ok (false, h1)
    else if (snd estimate <? kNumInliersThreshold K FLAGS)%Z
         then Ok (false,
                  set_glog
                    (glog h ++ [(VLOG 1,
                                 MsgTooFewInliers
                                   (snd estimate)
                                   (length (candidates_after h r T_M_I)))])
                    h2)
         else Ok (true, h2).
Proof.
  intros Hlookup h1 h2 estimate.
  unfold initializeBaseframe, bind at 1, get at 1.
  rewrite Hlookup.
  unfold bind at 1, modify at 1, bind at 1, get at 1.
  fold h1. unfold fsq_size.
  change (buffer (T_G_M_loc_buffer_ h1)) with (candidates_after h r T_M_I).
  destruct (length (candidates_after h r T_M_I) <?
            FLAGS_openvinsli_min_num_baseframe_estimates_before_init FLAGS)%nat;
    [reflexivity|].
  unfold bind at 1, random_device_draw.
  change (int_of_unsigned (random_device h1 0%nat)) with (drawn_seed h).
  fold estimate. destruct estimate as [T_G_M_lsq num_inliers]. simpl snd.
  destruct (num_inliers <? kNumInliersThreshold K FLAGS)%Z; reflexivity.
Qed.

(** C3: once the candidate buffer is full and the RANSAC has run its
    iterations, [initializeBaseframe] succeeds, and
    [processLocalizationResultInternal] moves the handler to [kLocalized],
    exactly when the best inlier count reaches
    [ceil (buffer size * inlier ratio threshold)]; otherwise it returns
    [false], the inlier count is logged and the state stays as it was. *)
Theorem baseframe_alignment_threshold
  (E : Externals) (K : HandlerConstants) (FLAGS : Flags)
  (h : OpenvinsLocalizationHandler) (r : LocalizationResult)
  (T_M_I : Transformation) :
  loc_buffer_ok FLAGS h ->
  localization_state_ h = kUninitialized
  \/ localization_state_ h = kNotLocalized ->
  getPoseAt (T_M_I_buffer_ h) (timestamp_ns r)
  = (kSuccessInterpolated, T_M_I) ->
  (FLAGS_openvinsli_min_num_baseframe_estimates_before_init FLAGS
   <= length (candidates_after h r T_M_I))%nat ->
  let num_inliers :=
    snd (transformationRansac (candidates_after h r T_M_I)
           (kInitializationMaxNumRansacIterations K)
           (kInitializationRansacOrientationErrorThresholdRadians K)
           (kInitializationRansacPositionErrorThresholdMeters K)
           (drawn_seed h)) in
  let threshold :=
    Qceiling (inject_Z (Z.of_nat (length (candidates_after h r T_M_I)))
              * kInitializationRansacInlierRatioThreshold K)%Q in
  exists success h1 h2,
    initializeBaseframe K FLAGS r h = Ok (success, h1)
    /\ processLocalizationResultInternal K FLAGS r h = Ok (tt, h2)
    /\ (success = true <-> (threshold <= num_inliers)%Z)
    /\ (localization_state_ h2 = kLocalized <-> (threshold <= num_inliers)%Z)
    /\ (success = false ->
        localization_state_ h2 = localization_state_ h
        /\ In (VLOG 1,
               MsgTooFewInliers num_inliers
                                (length (candidates_after h r T_M_I)))
              (glog h2)).
Proof.
  intros [Hcap Hsize] Hstate Hlookup Hfull num_inliers threshold.
  assert (Hlen : length (candidates_after h r T_M_I)
                 = FLAGS_openvinsli_min_num_baseframe_estimates_before_init
                     FLAGS).
  { destruct (fsq_insert_bound (T_mul (T_G_B r) (T_inverse T_M_I))
                (T_G_M_loc_buffer_ h) Hsize) as [Hle _].
    unfold candidates_after, fsq_size in *. lia. }
  assert (Hthr : threshold = kNumInliersThreshold K FLAGS).
  { unfold threshold, kNumInliersThreshold. now rewrite Hlen. }
  pose proof (initializeBaseframe_ready E K FLAGS h r T_M_I Hlookup) as Hrun.
  cbv zeta in Hrun. fold num_inliers in Hrun.
  destruct (Nat.ltb_spec (length (candidates_after h r T_M_I))
              (FLAGS_openvinsli_min_num_baseframe_estimates_before_init FLAGS))
    as [Hshort | _]; [lia|].
  assert (Hinternal :
            processLocalizationResultInternal K FLAGS r h
            = bind (initializeBaseframe K FLAGS r)
                   (fun success : bool =>
                      if success
                      then bind (LOG INFO MsgReinitializedBaseframe)
                                (fun _ =>
                                   modify (set_localization_state kLocalized))
                      else ret tt) h).
  { unfold processLocalizationResultInternal, bind at 1, get at 1.
    destruct Hstate as [-> | ->]; reflexivity. }
  rewrite Hinternal. unfold bind at 1. rewrite Hrun. rewrite <- Hthr.
  destruct (Z.ltb_spec num_inliers threshold) as [Hfew | Henough].
  - eexists false, _, _. split; [reflexivity|]. split; [reflexivity|].
    simpl. split; [split; [discriminate | lia]|].
    split.
    + split; [|lia]. intros Hloc.
      destruct Hstate as [Hs | Hs]; rewrite Hs in Hloc; discriminate.
    + intros _. split; [reflexivity|].
      apply in_or_app. right. left. reflexivity.
  - eexists true, _, _. split; [reflexivity|]. split; [reflexivity|].
    simpl. split; [split; [intros _; lia | reflexivity]|].
    split; [split; [intros _; lia | reflexivity]|].
    discriminate.
Qed.

Lemma baseframe_alignment_threshold_witness :
  let h := Demo.handler_with kUninitialized [] [T_identity] in
  loc_buffer_ok Demo.structure_flags h
  /\ (localization_state_ h = kUninitialized
      \/ localization_state_ h = kNotLocalized)
  /\ @getPoseAt Demo.externals (T_M_I_buffer_ h)
       (timestamp_ns Demo.result_150)
     = (kSuccessInterpolated, Demo.pose_150)
  /\ (FLAGS_openvinsli_min_num_baseframe_estimates_before_init
        Demo.structure_flags
      <= length (candidates_after h Demo.result_150 Demo.pose_150))%nat
  /\ exists success h1 h2,
       @initializeBaseframe Demo.externals Demo.constants Demo.structure_flags
         Demo.result_150 h = Ok (success, h1)
       /\ @processLocalizationResultInternal Demo.externals Demo.constants
            Demo.structure_flags Demo.result_150 h = Ok (tt, h2).
Proof.
  intros h.
  assert (Hok : loc_buffer_ok Demo.structure_flags h)
    by (unfold loc_buffer_ok, fsq_size; simpl; lia).
  assert (Hstate : localization_state_ h = kUninitialized
                   \/ localization_state_ h = kNotLocalized)
    by (left; reflexivity).
  assert (Hlookup : @getPoseAt Demo.externals (T_M_I_buffer_ h)
                      (timestamp_ns Demo.result_150)
                    = (kSuccessInterpolated, Demo.pose_150))
    by reflexivity.
  assert (Hfull : (FLAGS_openvinsli_min_num_baseframe_estimates_before_init
                     Demo.structure_flags
                   <= length (candidates_after h Demo.result_150
                                               Demo.pose_150))%nat)
    by (simpl; lia).
  repeat (split; [assumption|]).
  destruct (baseframe_alignment_threshold Demo.externals Demo.constants
              Demo.structure_flags h Demo.result_150 Demo.pose_150
              Hok Hstate Hlookup Hfull)
    as [success [h1 [h2 [Hinit [Hinternal _]]]]].
  exists success, h1, h2. split; assumption.
Defined.

(** ** The reprojection check in structure-constraint mode *)

Lemma num_valid_matches_active (m : BidirectionalMap)
  (G : list (list Vector3)) (l : list nat) (n : nat) :
  fold_left
    (fun n maplab_cam_idx =>
       match getRight m maplab_cam_idx with
       | None => n
       | Some _ => (n + length (nth maplab_cam_idx G []))%nat
       end) l n <> n ->
  existsb (is_active m) l = true.
Proof.
  revert n. induction l as [|i l IH]; intros n Hne; simpl in *.
  - congruence.
  - unfold is_active at 1.
    destruct (getRight m i) as [j|]; simpl; [reflexivity|].
    now apply (IH n).
Qed.

Lemma landmark_updates_fold (m : BidirectionalMap) (l : list nat) (b : bool) :
  fold_left
    (fun accepted maplab_cam_idx =>
       match getRight m maplab_cam_idx with
       | None => accepted
       | Some _ => accepted && false
       end) l b
  = b && negb (existsb (is_active m) l).
Proof.
  revert b. induction l as [|i l IH]; intros b; simpl.
  - now rewrite andb_true_r.
  - rewrite IH. unfold is_active at 2.
    destruct (getRight m i); simpl.
    + now rewrite andb_false_r.
    + reflexivity.
Qed.

Lemma landmark_updates_rejects (h : OpenvinsLocalizationHandler)
  (r : LocalizationResult) :
  num_valid_matches h r <> O ->
  landmark_updates h r true = false.
Proof.
  intros Hvalid. unfold landmark_updates. rewrite landmark_updates_fold.
  unfold num_valid_matches in Hvalid.
  now rewrite (num_valid_matches_active _ _ _ _ Hvalid).
Qed.

(** The check raises no warning exactly when the three conditions hold. *)
Lemma reprojection_check_passes_iff (FLAGS : Flags) (rate : R)
  (lc fl : list R) :
  let success := reprojection_success FLAGS rate lc in
  let diff := mean_reprojection_error_diff success lc fl in
  reprojection_check_fails FLAGS success diff = false
  <-> (0.5 < rate
       /\ (FLAGS_openvinsli_min_number_of_structure_constraints FLAGS
           < Z.of_nat (length lc))%Z
       /\ Rabs (mean fl - mean lc)
          <= FLAGS_openvinsli_max_mean_localization_reprojection_error_px
               FLAGS).
Proof.
  intros success diff. subst diff.
  unfold reprojection_check_fails, mean_reprojection_error_diff.
  assert (Hsuccess :
            success = true
            <-> 0.5 < rate
                /\ (FLAGS_openvinsli_min_number_of_structure_constraints FLAGS
                    < Z.of_nat (length lc))%Z).
  { unfold success, reprojection_success, kMinReprojectionSuccessRate.
    rewrite andb_true_iff, Rltb_true, Z.ltb_lt. reflexivity. }
  destruct success; simpl.
  - rewrite Rltb_false. tauto.
  - split; [discriminate|]. intros [Hrate [Hnum _]].
    destruct Hsuccess as [_ Hs]. symmetry. now apply Hs.
Qed.

Lemma set_glog_set_glog (l1 l2 : list LogRecord)
  (h : OpenvinsLocalizationHandler) :
  set_glog l2 (set_glog l1 h) = set_glog l2 h.
Proof. reflexivity. Qed.

(** [processAsUpdate] in structure-constraint mode, past its checks. *)
Lemma processAsUpdate_structure_run
  (E : Externals) (FLAGS : Flags) (h : OpenvinsLocalizationHandler)
  (r : LocalizationResult) (T_M_I : Transformation) (rate : R)
  (lc fl : list R) :
  FLAGS_openvinsli_use_6dof_localization FLAGS = false ->
  getPoseAt (T_M_I_buffer_ h) (timestamp_ns r)
  = (kSuccessInterpolated, T_M_I) ->
  num_valid_matches h r <> O ->
  buffer (T_G_M_filter_buffer_ h) <> [] ->
  getLocalizationReprojectionErrors h r
    (T_mul (last (buffer (T_G_M_filter_buffer_ h)) T_identity) T_M_I)
  = Ok (rate, lc, fl) ->
  processAsUpdate FLAGS r h
  = Ok (false,
        set_glog (glog h ++ gate_log FLAGS rate lc fl ++ rejected_log h r) h).
Proof.
  intros Hmode Hlookup Hvalid Hfilter Herrs.
  unfold processAsUpdate, bind at 1, get at 1.
  rewrite Hlookup. cbn [status_eqb negb].
  unfold CHECK at 1, bind at 1. cbn [ocheck lift].
  unfold CHECK at 1, bind at 1. cbn [ocheck lift].
  rewrite Hmode.
  destruct (Nat.eqb_spec (num_valid_matches h r) 0) as [Hzero | _];
    [contradiction|].
  assert (Hnonempty : Nat.eqb (fsq_size (T_G_M_filter_buffer_ h)) 0 = false).
  { apply Nat.eqb_neq. unfold fsq_size.
    destruct (buffer (T_G_M_filter_buffer_ h)); simpl; congruence. }
  rewrite Hnonempty. cbn [negb].
  unfold bind at 1. unfold bind at 1, CHECK at 1. cbn [ocheck lift].
  unfold bind at 1. rewrite Herrs. cbn [lift].
  rewrite (landmark_updates_rejects h r Hvalid).
  unfold gate_log, rejected_log.
  destruct (reprojection_success FLAGS rate lc);
    destruct (reprojection_check_fails FLAGS _ _);
    destruct (status_initialized (openvins_interface_ h)) eqn:Hinit;
    unfold bind, LOG, LOG_IF, modify, ret, get; simpl;
    rewrite ?Hinit; simpl;
    rewrite <- ?app_assoc; simpl; rewrite ?app_nil_r;
    try reflexivity.
  all: unfold set_glog; simpl; rewrite ?app_nil_r;
    destruct h; reflexivity.
Qed.

Lemma processAsUpdate_structure_never_accepts
  (E : Externals) (FLAGS : Flags) (h h' : OpenvinsLocalizationHandler)
  (r : LocalizationResult) (accepted : bool) :
  FLAGS_openvinsli_use_6dof_localization FLAGS = false ->
  processAsUpdate FLAGS r h = Ok (accepted, h') ->
  accepted = false.
Proof.
  intros Hmode. unfold processAsUpdate, bind at 1, get at 1.
  destruct (getPoseAt (T_M_I_buffer_ h) (timestamp_ns r)) as [lookup T_M_I].
  destruct lookup; cbn [status_eqb negb];
    unfold CHECK at 1, bind at 1; cbn [ocheck lift]; try discriminate.
  unfold CHECK at 1, bind at 1. cbn [ocheck lift].
  rewrite Hmode.
  destruct (Nat.eqb_spec (num_valid_matches h r) 0) as [Hzero | Hvalid].
  - destruct (FLAGS_openvinsli_use_6dof_localization_for_inactive_cameras
                FLAGS).
    + destruct (status_initialized (openvins_interface_ h)); simpl;
        unfold bind, LOG_IF, LOG, modify, ret; simpl; congruence.
    + unfold bind, ret. congruence.
  - destruct (Nat.eqb (fsq_size (T_G_M_filter_buffer_ h)) 0); cbn [negb];
      unfold bind at 1; unfold bind at 1, CHECK at 1; cbn [ocheck lift];
      [discriminate|].
    unfold bind at 1.
    destruct (getLocalizationReprojectionErrors h r _) as [|[[rate lc] fl]];
      cbn [lift]; [discriminate|].
    rewrite (landmark_updates_rejects h r Hvalid).
    destruct (reprojection_success FLAGS rate lc);
      destruct (reprojection_check_fails FLAGS _ _);
      unfold bind, LOG, LOG_IF, modify, ret, get; simpl;
      match goal with
      | |- context [if ?c then _ else _] => destruct c
      end; unfold LOG, modify; simpl; congruence.
Qed.

(** C2, as the code has it: in structure-constraint mode the reprojection
    check raises no warning exactly when the success rate exceeds 0.5, the
    number of valid correspondences exceeds the configured minimum, and the
    absolute difference of the two mean residuals does not exceed the
    configured pixel threshold.  The check only decides what is logged:
    whatever its outcome, [processAsUpdate] feeds nothing to the estimator
    and returns [false]. *)
Theorem structure_mode_check_and_rejection
  (E : Externals) (FLAGS : Flags) (h : OpenvinsLocalizationHandler)
  (r : LocalizationResult) (T_M_I : Transformation) (rate : R)
  (lc fl : list R) :
  FLAGS_openvinsli_use_6dof_localization FLAGS = false ->
  getPoseAt (T_M_I_buffer_ h) (timestamp_ns r)
  = (kSuccessInterpolated, T_M_I) ->
  num_valid_matches h r <> O ->
  buffer (T_G_M_filter_buffer_ h) <> [] ->
  getLocalizationReprojectionErrors h r
    (T_mul (last (buffer (T_G_M_filter_buffer_ h)) T_identity) T_M_I)
  = Ok (rate, lc, fl) ->
  let success := reprojection_success FLAGS rate lc in
  let diff := mean_reprojection_error_diff success lc fl in
  (reprojection_check_fails FLAGS success diff = false
   <-> (0.5 < rate
        /\ (FLAGS_openvinsli_min_number_of_structure_constraints FLAGS
            < Z.of_nat (length lc))%Z
        /\ Rabs (mean fl - mean lc)
           <= FLAGS_openvinsli_max_mean_localization_reprojection_error_px
                FLAGS))
  /\ processAsUpdate FLAGS r h
     = Ok (false,
           set_glog (glog h ++ gate_log FLAGS rate lc fl ++ rejected_log h r)
                    h)
  /\ (forall r0 h0 accepted h0',
         processAsUpdate FLAGS r0 h0 = Ok (accepted, h0') ->
         accepted = false).
Proof.
  intros Hmode Hlookup Hvalid Hfilter Herrs success diff.
  split; [apply reprojection_check_passes_iff|].
  split.
  - now apply processAsUpdate_structure_run with (T_M_I := T_M_I).
  - intros r0 h0 accepted h0'.
    now apply processAsUpdate_structure_never_accepts.
Qed.

Lemma demo_reprojection_errors :
  getLocalizationReprojectionErrors (Demo.handler kLocalized [])
    Demo.result_150
    (T_mul (last (buffer (T_G_M_filter_buffer_ (Demo.handler kLocalized [])))
                 T_identity)
           Demo.pose_150)
  = Ok (Demo.rate, Demo.residuals, Demo.residuals).
Proof. reflexivity. Qed.

Lemma demo_conditions_hold :
  0.5 < Demo.rate
  /\ (FLAGS_openvinsli_min_number_of_structure_constraints
        Demo.structure_flags < Z.of_nat (length Demo.residuals))%Z
  /\ Rabs (mean Demo.residuals - mean Demo.residuals)
     < FLAGS_openvinsli_max_mean_localization_reprojection_error_px
         Demo.structure_flags.
Proof.
  split; [unfold Demo.rate; simpl; lra|].
  split; [simpl; lia|].
  unfold Rminus. rewrite Rplus_opp_r, Rabs_R0. simpl. lra.
Qed.

Lemma structure_mode_check_and_rejection_witness :
  FLAGS_openvinsli_use_6dof_localization Demo.structure_flags = false
  /\ @getPoseAt Demo.externals (T_M_I_buffer_ (Demo.handler kLocalized []))
       (timestamp_ns Demo.result_150)
     = (kSuccessInterpolated, Demo.pose_150)
  /\ num_valid_matches (Demo.handler kLocalized []) Demo.result_150 <> O
  /\ buffer (T_G_M_filter_buffer_ (Demo.handler kLocalized [])) <> []
  /\ getLocalizationReprojectionErrors (Demo.handler kLocalized [])
       Demo.result_150
       (T_mul (last (buffer (T_G_M_filter_buffer_
                               (Demo.handler kLocalized [])))
                    T_identity)
              Demo.pose_150)
     = Ok (Demo.rate, Demo.residuals, Demo.residuals)
  /\ @processAsUpdate Demo.externals Demo.structure_flags Demo.result_150
       (Demo.handler kLocalized [])
     = Ok (false,
           set_glog
             (glog (Demo.handler kLocalized [])
              ++ gate_log Demo.structure_flags Demo.rate Demo.residuals
                          Demo.residuals
              ++ rejected_log (Demo.handler kLocalized []) Demo.result_150)
             (Demo.handler kLocalized [])).
Proof.
  assert (Hvalid : num_valid_matches (Demo.handler kLocalized [])
                                     Demo.result_150 <> O)
    by (simpl; discriminate).
  assert (Hfilter : buffer (T_G_M_filter_buffer_ (Demo.handler kLocalized []))
                    <> [])
    by (simpl; discriminate).
  repeat (split; [first [reflexivity | assumption]|]).
  destruct (structure_mode_check_and_rejection Demo.externals
              Demo.structure_flags (Demo.handler kLocalized [])
              Demo.result_150 Demo.pose_150 Demo.rate Demo.residuals
              Demo.residuals eq_refl eq_refl Hvalid Hfilter
              demo_reprojection_errors) as [_ [Hrun _]].
  exact Hrun.
Defined.

(** C2, as stated, fails: for the result at time 150 the success rate is
    above 0.5, six correspondences are valid (more than the minimum of
    five) and the two mean residuals coincide, so all three conditions
    hold; [processAsUpdate] still returns [false] and feeds nothing. *)
Lemma consistent_result_is_not_accepted :
  exists rate lc fl h',
    getLocalizationReprojectionErrors (Demo.handler kLocalized [])
      Demo.result_150
      (T_mul (last (buffer (T_G_M_filter_buffer_
                              (Demo.handler kLocalized [])))
                   T_identity)
             Demo.pose_150)
    = Ok (rate, lc, fl)
    /\ 0.5 < rate
    /\ (5 < Z.of_nat (length lc))%Z
    /\ Rabs (mean fl - mean lc) < 100
    /\ @processAsUpdate Demo.externals Demo.structure_flags Demo.result_150
         (Demo.handler kLocalized []) = Ok (false, h')
    /\ fed_localizations (openvins_interface_ h') = [].
Proof.
  exists Demo.rate, Demo.residuals, Demo.residuals.
  eexists. split; [exact demo_reprojection_errors|].
  destruct demo_conditions_hold as [Hrate [Hnum Hdiff]].
  repeat (split; [assumption|]).
  split.
  - apply processAsUpdate_structure_run with (T_M_I := Demo.pose_150);
      first [reflexivity | exact demo_reprojection_errors
             | simpl; discriminate].
  - reflexivity.
Qed.

(** ** The drain loop terminates within its bound *)

Lemma keeps_ret {A : Type} (a : A) : keeps_pending (ret a).
Proof. intros h a' h' Hrun. injection Hrun as _ <-. reflexivity. Qed.

Lemma keeps_bind {A B : Type} (c : M A) (k : A -> M B) :
  keeps_pending c -> (forall a, keeps_pending (k a)) ->
  keeps_pending (bind c k).
Proof.
  intros Hc Hk h b h' Hrun. unfold bind in Hrun.
  destruct (c h) as [|[a h1]] eqn:Hch; [discriminate|].
  rewrite (Hk a h1 b h' Hrun). exact (Hc h a h1 Hch).
Qed.

Lemma keeps_get : keeps_pending get.
Proof. intros h a h' Hrun. injection Hrun as _ <-. reflexivity. Qed.

Lemma keeps_modify (f : OpenvinsLocalizationHandler -> OpenvinsLocalizationHandler) :
  (forall h, localization_buffer_ (f h) = localization_buffer_ h) ->
  keeps_pending (modify f).
Proof. intros Hf h a h' Hrun. injection Hrun as _ <-. apply Hf. Qed.

Lemma keeps_lift {A : Type} (c : outcome A) : keeps_pending (lift c).
Proof.
  intros h a h' Hrun. unfold lift in Hrun.
  destruct c; [discriminate|]. injection Hrun as _ <-. reflexivity.
Qed.

Lemma keeps_LOG (s : Severity) (m : LogMessage) : keeps_pending (LOG s m).
Proof. apply keeps_modify. reflexivity. Qed.

Lemma keeps_LOG_IF (s : Severity) (b : bool) (m : LogMessage) :
  keeps_pending (LOG_IF s b m).
Proof. destruct b; [apply keeps_LOG | apply keeps_ret]. Qed.

Lemma keeps_feed (d : LocalizationData) : keeps_pending (feed d).
Proof. apply keeps_modify. reflexivity. Qed.

Lemma keeps_random_device_draw : keeps_pending random_device_draw.
Proof. intros h a h' Hrun. injection Hrun as _ <-. reflexivity. Qed.

Ltac keeps_step :=
  first
    [ apply keeps_ret | apply keeps_get | apply keeps_LOG_IF | apply keeps_LOG
    | apply keeps_feed | apply keeps_lift | apply keeps_random_device_draw
    | apply keeps_modify; reflexivity
    | apply keeps_bind; [|intros ?]
    | match goal with
      | |- keeps_pending (match ?x with _ => _ end) => destruct x
      | |- keeps_pending (if ?x then _ else _) => destruct x
      | |- keeps_pending (let '(_, _) := ?x in _) => destruct x
      end ].

Lemma keeps_initializeBaseframe
  (E : Externals) (K : HandlerConstants) (FLAGS : Flags)
  (r : LocalizationResult) :
  keeps_pending (initializeBaseframe K FLAGS r).
Proof. unfold initializeBaseframe. repeat keeps_step. Qed.

Lemma keeps_processAsUpdate
  (E : Externals) (FLAGS : Flags) (r : LocalizationResult) :
  keeps_pending (processAsUpdate FLAGS r).
Proof. unfold processAsUpdate, CHECK. repeat keeps_step. Qed.

Lemma keeps_processLocalizationResultInternal
  (E : Externals) (K : HandlerConstants) (FLAGS : Flags)
  (r : LocalizationResult) :
  keeps_pending (processLocalizationResultInternal K FLAGS r).
Proof.
  unfold processLocalizationResultInternal.
  apply keeps_bind; [apply keeps_get | intros h].
  destruct (localization_state_ h).
  - apply keeps_bind; [apply keeps_initializeBaseframe | intros b].
    repeat keeps_step.
  - apply keeps_bind; [apply keeps_initializeBaseframe | intros b].
    repeat keeps_step.
  - apply keeps_bind; [apply keeps_processAsUpdate | intros b].
    apply keeps_ret.
  - apply keeps_lift.
Qed.

Lemma drain_localization_buffer_S
  (E : Externals) (K : HandlerConstants) (FLAGS : Flags)
  (newest : Z) (rounds : nat) (h : OpenvinsLocalizationHandler) :
  drain_localization_buffer K FLAGS (S rounds) newest h
  = match localization_buffer_ h with
    | [] => Ok (tt, h)
    | r :: rest =>
        if (newest <? timestamp_ns r)%Z then Ok (tt, h)
        else
          match processLocalizationResultInternal K FLAGS r
                  (set_localization_buffer rest h) with
          | Fatal => Fatal
          | Ok (_, h1) => drain_localization_buffer K FLAGS rounds newest h1
          end
    end.
Proof.
  cbn [drain_localization_buffer]. unfold bind at 1, get.
  destruct (localization_buffer_ h) as [|r rest]; [reflexivity|].
  destruct (newest <? timestamp_ns r)%Z; [reflexivity|].
  unfold bind at 1, modify. unfold bind at 1.
  destruct (processLocalizationResultInternal K FLAGS r
              (set_localization_buffer rest h)) as [|[u h1]]; reflexivity.
Qed.

(** More rounds than the queue is long change nothing: the loop always
    leaves through one of its two [return]s. *)
Lemma drain_localization_buffer_bound
  (E : Externals) (K : HandlerConstants) (FLAGS : Flags)
  (newest : Z) (rounds : nat) (h : OpenvinsLocalizationHandler) :
  (length (localization_buffer_ h) < rounds)%nat ->
  drain_localization_buffer K FLAGS (S rounds) newest h
  = drain_localization_buffer K FLAGS rounds newest h.
Proof.
  revert h. induction rounds as [|rounds IH]; intros h Hlen; [lia|].
  rewrite (drain_localization_buffer_S E K FLAGS newest (S rounds)).
  rewrite (drain_localization_buffer_S E K FLAGS newest rounds).
  destruct (localization_buffer_ h) as [|r rest] eqn:Hbuf; [reflexivity|].
  destruct (newest <? timestamp_ns r)%Z; [reflexivity|].
  destruct (processLocalizationResultInternal K FLAGS r
              (set_localization_buffer rest h)) as [|[u h1]] eqn:Hrun;
    [reflexivity|].
  apply IH.
  rewrite (keeps_processLocalizationResultInternal E K FLAGS r _ _ _ Hrun).
  simpl in *. lia.
Qed.

(** ** The RANSAC on a concrete candidate set: the seed matters *)

Lemma v3_norm_along_x (v : Vector3) (a : R) :
  v3x v = a -> v3y v = 0 -> v3z v = 0 -> v3_norm v = Rabs a.
Proof.
  intros Hx Hy Hz. unfold v3_norm, v3_squaredNorm, v3_dot.
  rewrite Hx, Hy, Hz.
  replace (a * a + 0 * 0 + 0 * 0) with (Rsqr a) by (unfold Rsqr; ring).
  apply sqrt_Rsqr_abs.
Qed.

Lemma rotation_angle_scalar_one (q : Quaternion) :
  qw q = 1 -> rotation_angle q = 0.
Proof.
  intros Hw. unfold rotation_angle. rewrite Hw, Rabs_R1.
  unfold Rmin. destruct (Rle_dec 1 1); rewrite acos_1; ring.
Qed.

Lemma demo_is_inlier (a b : R) :
  is_inlier (20 * PI / 180) 5
            (mkTransformation q_identity (mkVector3 a 0 0))
            (mkTransformation q_identity (mkVector3 b 0 0))
  = Rltb (Rabs (b - a)) 5.
Proof.
  unfold is_inlier.
  rewrite rotation_angle_scalar_one by (simpl; ring).
  rewrite (v3_norm_along_x _ (b - a)) by (simpl; ring).
  assert (Hangle : Rltb 0 (20 * PI / 180) = true).
  { apply Rltb_true. pose proof PI_RGT_0. lra. }
  now rewrite Hangle.
Qed.

Lemma demo_is_inlier_near (a : R) :
  is_inlier (20 * PI / 180) 5
            (mkTransformation q_identity (mkVector3 a 0 0))
            (mkTransformation q_identity (mkVector3 a 0 0)) = true.
Proof.
  rewrite demo_is_inlier. apply Rltb_true.
  unfold Rminus. rewrite Rplus_opp_r, Rabs_R0. lra.
Qed.

Lemma demo_is_inlier_far_1 :
  is_inlier (20 * PI / 180) 5 T_identity Demo.far_pose = false.
Proof.
  unfold T_identity, v3_zero, Demo.far_pose.
  rewrite demo_is_inlier. apply Rltb_false.
  rewrite Rabs_pos_eq; lra.
Qed.

Lemma demo_is_inlier_far_2 :
  is_inlier (20 * PI / 180) 5 Demo.far_pose T_identity = false.
Proof.
  unfold T_identity, v3_zero, Demo.far_pose.
  rewrite demo_is_inlier. apply Rltb_false.
  rewrite Rabs_left; lra.
Qed.

(** With the candidates [T_identity; far_pose] every hypothesis has one
    inlier, itself, so the first drawn hypothesis is kept: seed 0 draws
    index 0 first and seed 1 draws index 1 first. *)
Lemma demo_ransac_depends_on_seed :
  @transformationRansac Demo.externals [T_identity; Demo.far_pose]
    3 (20 * PI / 180) 5 0 = (T_identity, 1%Z)
  /\ @transformationRansac Demo.externals [T_identity; Demo.far_pose]
       3 (20 * PI / 180) 5 1 = (Demo.far_pose, 1%Z).
Proof.
  assert (Hcount0 : count_inliers (20 * PI / 180) 5 T_identity
                      [T_identity; Demo.far_pose] = 1%nat).
  { unfold count_inliers. cbn [filter].
    change (is_inlier (20 * PI / 180) 5 T_identity T_identity)
      with (is_inlier (20 * PI / 180) 5
              (mkTransformation q_identity (mkVector3 0 0 0))
              (mkTransformation q_identity (mkVector3 0 0 0))).
    rewrite (demo_is_inlier_near 0), demo_is_inlier_far_1. reflexivity. }
  assert (Hcount1 : count_inliers (20 * PI / 180) 5 Demo.far_pose
                      [T_identity; Demo.far_pose] = 1%nat).
  { unfold count_inliers. cbn [filter].
    change (is_inlier (20 * PI / 180) 5 Demo.far_pose Demo.far_pose)
      with (is_inlier (20 * PI / 180) 5
              (mkTransformation q_identity (mkVector3 10 0 0))
              (mkTransformation q_identity (mkVector3 10 0 0))).
    rewrite (demo_is_inlier_near 10), demo_is_inlier_far_2. reflexivity. }
  unfold transformationRansac.
  split; simpl; rewrite ?Hcount0, ?Hcount1; reflexivity.
Qed.

(** ** Skipped correspondences and the success rate *)

Lemma process_match_recorded (camera : Camera)
  (T_G_C_filter T_G_C_lc : Transformation) (m : Vector2 * Vector3)
  (lc fl : list R) (n : nat) :
  projection_status camera T_G_C_filter (snd m) <> UNINITIALIZED ->
  projection_status camera T_G_C_lc (snd m) <> UNINITIALIZED ->
  process_match camera T_G_C_filter T_G_C_lc (lc, fl, n) m
  = Ok (if both_valid camera T_G_C_filter T_G_C_lc m
        then (lc ++ [reprojection_residual camera T_G_C_filter m],
              fl ++ [reprojection_residual camera T_G_C_lc m], S n)
        else (lc, fl, S n)).
Proof.
  destruct m as [keypoint p_G].
  unfold process_match, getReprojectionErrorForGlobalLandmark, both_valid,
    projection_status, reprojection_residual.
  cbn [fst snd].
  destruct (project3 camera (T_apply (T_inverse T_G_C_filter) p_G))
    as [sf kf].
  destruct (project3 camera (T_apply (T_inverse T_G_C_lc) p_G)) as [sl kl].
  cbn [fst snd]. intros Hf Hl.
  destruct sf; try congruence; destruct sl; try congruence; reflexivity.
Qed.

Lemma ofold_process_match_recorded (camera : Camera)
  (T_G_C_filter T_G_C_lc : Transformation)
  (matches : list (Vector2 * Vector3)) :
  forall (lc fl : list R) (n : nat),
    (forall m, In m matches ->
               projection_status camera T_G_C_filter (snd m) <> UNINITIALIZED
               /\ projection_status camera T_G_C_lc (snd m) <> UNINITIALIZED) ->
    ofold (process_match camera T_G_C_filter T_G_C_lc) matches (lc, fl, n)
    = Ok (lc ++ map (reprojection_residual camera T_G_C_filter)
                    (filter (both_valid camera T_G_C_filter T_G_C_lc) matches),
          fl ++ map (reprojection_residual camera T_G_C_lc)
                    (filter (both_valid camera T_G_C_filter T_G_C_lc) matches),
          (n + length matches)%nat).
Proof.
  induction matches as [|m matches IH]; intros lc fl n Hinit.
  - simpl. now rewrite !app_nil_r, Nat.add_0_r.
  - destruct (Hinit m (or_introl eq_refl)) as [Hf Hl].
    assert (Hrest : forall m', In m' matches ->
              projection_status camera T_G_C_filter (snd m') <> UNINITIALIZED
              /\ projection_status camera T_G_C_lc (snd m') <> UNINITIALIZED)
      by (intros m' Hm'; apply Hinit; now right).
    cbn [ofold filter length].
    rewrite (process_match_recorded camera T_G_C_filter T_G_C_lc m lc fl n
               Hf Hl).
    destruct (both_valid camera T_G_C_filter T_G_C_lc m); cbn [obind map];
      rewrite (IH _ _ _ Hrest), <- ?app_assoc, Nat.add_succ_r; reflexivity.
Qed.

Lemma process_camera_recorded (h : OpenvinsLocalizationHandler)
  (r : LocalizationResult) (T_G_I_filter : Transformation) (cam_idx : nat)
  (lc fl : list R) (n : nat) :
  length (nth cam_idx (G_landmarks_per_camera r) [])
  = length (nth cam_idx (keypoint_measurements_per_camera r) []) ->
  camera_contract h r T_G_I_filter ->
  process_camera h r T_G_I_filter (lc, fl, n) cam_idx
  = Ok (lc ++ camera_residuals h r T_G_I_filter T_G_I_filter cam_idx,
        fl ++ camera_residuals h r T_G_I_filter (T_G_B r) cam_idx,
        (n + length (camera_matches h r cam_idx))%nat).
Proof.
  intros Hcols Hinit. specialize (Hinit cam_idx).
  unfold process_camera, camera_residuals, recorded_matches, camera_matches,
    is_active in *.
  rewrite <- Hcols, Nat.eqb_refl. cbn [ocheck obind].
  destruct (Nat.eqb_spec (length (nth cam_idx (G_landmarks_per_camera r) []))
                         0) as [Hzero | _].
  - apply length_zero_iff_nil in Hzero. rewrite Hzero, combine_nil.
    destruct (getRight _ _); simpl; now rewrite !app_nil_r, Nat.add_0_r.
  - destruct (getRight (maplab_to_openvins_cam_indices_mapping_ h) cam_idx).
    + exact (ofold_process_match_recorded _ _ _ _ lc fl n Hinit).
    + simpl. now rewrite !app_nil_r, Nat.add_0_r.
Qed.

Lemma ofold_process_camera_recorded (h : OpenvinsLocalizationHandler)
  (r : LocalizationResult) (T_G_I_filter : Transformation) (l : list nat) :
  forall (lc fl : list R) (n : nat),
    (forall cam_idx, In cam_idx l ->
       length (nth cam_idx (G_landmarks_per_camera r) [])
       = length (nth cam_idx (keypoint_measurements_per_camera r) [])) ->
    camera_contract h r T_G_I_filter ->
    ofold (process_camera h r T_G_I_filter) l (lc, fl, n)
    = Ok (lc ++ flat_map (camera_residuals h r T_G_I_filter T_G_I_filter) l,
          fl ++ flat_map (camera_residuals h r T_G_I_filter (T_G_B r)) l,
          (n + list_sum (map (fun i => length (camera_matches h r i)) l))%nat).
Proof.
  induction l as [|i l IH]; intros lc fl n Hcols Hinit.
  - simpl. now rewrite !app_nil_r, Nat.add_0_r.
  - cbn [ofold flat_map map list_sum fold_right].
    rewrite (process_camera_recorded h r T_G_I_filter i lc fl n
               (Hcols i (or_introl eq_refl)) Hinit).
    cbn [obind].
    rewrite IH by (try assumption; intros j Hj; apply Hcols; now right).
    now rewrite <- !app_assoc, Nat.add_assoc.
Qed.

Lemma num_valid_matches_fold_sum (h : OpenvinsLocalizationHandler)
  (r : LocalizationResult) (l : list nat) :
  forall n,
    (forall cam_idx, In cam_idx l ->
       length (nth cam_idx (G_landmarks_per_camera r) [])
       = length (nth cam_idx (keypoint_measurements_per_camera r) [])) ->
    fold_left
      (fun n maplab_cam_idx =>
         match getRight (maplab_to_openvins_cam_indices_mapping_ h)
                        maplab_cam_idx with
         | None => n
         | Some _ =>
             (n + length (nth maplab_cam_idx (G_landmarks_per_camera r) []))%nat
         end) l n
    = (n + list_sum (map (fun i => length (camera_matches h r i)) l))%nat.
Proof.
  induction l as [|i l IH]; intros n Hcols.
  - simpl. now rewrite Nat.add_0_r.
  - cbn [fold_left map list_sum fold_right].
    rewrite IH by (intros j Hj; apply Hcols; now right).
    unfold camera_matches at 2, is_active.
    destruct (getRight (maplab_to_openvins_cam_indices_mapping_ h) i).
    + rewrite length_combine, <- (Hcols i (or_introl eq_refl)), Nat.min_id.
      now rewrite Nat.add_assoc.
    + reflexivity.
Qed.

Lemma num_valid_matches_sum (h : OpenvinsLocalizationHandler)
  (r : LocalizationResult) :
  size_contract h r ->
  num_valid_matches h r
  = list_sum (map (fun i => length (camera_matches h r i))
                  (seq 0 (length (G_landmarks_per_camera r)))).
Proof.
  intros [_ [_ Hcols]]. unfold num_valid_matches.
  rewrite num_valid_matches_fold_sum; [reflexivity|].
  intros cam_idx Hin. apply Hcols. apply in_seq in Hin. lia.
Qed.

Lemma recorded_residuals_length (h : OpenvinsLocalizationHandler)
  (r : LocalizationResult) (T_G_I_filter T_G_I : Transformation) :
  length (recorded_residuals h r T_G_I_filter T_G_I)
  = list_sum (map (fun i => length (recorded_matches h r T_G_I_filter i))
                  (seq 0 (length (G_landmarks_per_camera r)))).
Proof.
  unfold recorded_residuals. rewrite length_flat_map.
  f_equal. apply map_ext. intros i. unfold camera_residuals.
  apply length_map.
Qed.

Lemma list_sum_map_le (f g : nat -> nat) (l : list nat) :
  (forall i, In i l -> (f i <= g i)%nat) ->
  (list_sum (map f l) <= list_sum (map g l))%nat.
Proof.
  induction l as [|a l IH]; intros Hle; simpl; [lia|].
  specialize (Hle a (or_introl eq_refl)) as Ha.
  assert (Hl : (list_sum (map f l) <= list_sum (map g l))%nat)
    by (apply IH; intros i Hi; apply Hle; now right).
  lia.
Qed.

Lemma list_sum_map_lt (f g : nat -> nat) (l : list nat) (j : nat) :
  (forall i, In i l -> (f i <= g i)%nat) ->
  In j l -> (f j < g j)%nat ->
  (list_sum (map f l) < list_sum (map g l))%nat.
Proof.
  induction l as [|a l IH]; intros Hle Hin Hlt; [inversion Hin|].
  simpl. specialize (Hle a (or_introl eq_refl)) as Ha.
  assert (Hrest : forall i, In i l -> (f i <= g i)%nat)
    by (intros i Hi; apply Hle; now right).
  destruct Hin as [-> | Hin].
  - pose proof (list_sum_map_le f g l Hrest). lia.
  - pose proof (IH Hrest Hin Hlt). lia.
Qed.

Lemma list_sum_map_In (g : nat -> nat) (l : list nat) (j : nat) :
  In j l -> (g j <= list_sum (map g l))%nat.
Proof.
  induction l as [|a l IH]; intros Hin; [inversion Hin|].
  simpl. destruct Hin as [-> | Hin]; [lia|].
  specialize (IH Hin). lia.
Qed.

(** Under the size contract and with initialized projection statuses,
    [getLocalizationReprojectionErrors] returns whenever an active camera
    has a match: the two vectors hold the residuals of the recorded
    correspondences, and the rate divides their number by the number of
    all matches of the active cameras. *)
Lemma getLocalizationReprojectionErrors_recorded
  (h : OpenvinsLocalizationHandler) (r : LocalizationResult)
  (T_G_I_filter : Transformation) :
  size_contract h r ->
  camera_contract h r T_G_I_filter ->
  num_valid_matches h r <> O ->
  getLocalizationReprojectionErrors h r T_G_I_filter
  = Ok (INR (length (recorded_residuals h r T_G_I_filter T_G_I_filter))
        / INR (num_valid_matches h r),
        recorded_residuals h r T_G_I_filter T_G_I_filter,
        recorded_residuals h r T_G_I_filter (T_G_B r)).
Proof.
  intros Hsize Hinit Hpos.
  pose proof (num_valid_matches_sum h r Hsize) as Hsum.
  destruct Hsize as [Hsizes [Hcams Hcols]].
  unfold getLocalizationReprojectionErrors.
  rewrite <- Hsizes, <- Hcams, Nat.eqb_refl. cbn [ocheck obind].
  rewrite ofold_process_camera_recorded;
    [|intros cam_idx Hin; apply Hcols; apply in_seq in Hin; lia | exact Hinit].
  cbn [obind app]. rewrite <- Hsum, Nat.add_0_l.
  fold (recorded_residuals h r T_G_I_filter T_G_I_filter).
  fold (recorded_residuals h r T_G_I_filter (T_G_B r)).
  rewrite (recorded_residuals_length h r T_G_I_filter (T_G_B r)),
    <- (recorded_residuals_length h r T_G_I_filter T_G_I_filter),
    Nat.eqb_refl.
  cbn [ocheck obind].
  destruct (Nat.ltb_spec 0 (num_valid_matches h r)) as [_ | Hzero];
    [reflexivity | lia].
Qed.

(** C8: a correspondence whose projection is geometrically invalid under
    the filter hypothesis or under the localization hypothesis adds no
    residual to either vector, still increments the number of processed
    matches, and the loop goes on with the correspondences after it.  For
    a localization result that has such a correspondence in an active
    camera (and respects the size checks and the [CHECK_NE] on the
    status), [getLocalizationReprojectionErrors] returns: the residuals of
    that camera come from the valid correspondences before and after the
    invalid one, the denominator of the success rate is the number of all
    matches of the active cameras, the invalid one included, and the
    number of residuals stays below it. *)
Theorem invalid_projection_is_skipped
  (camera : Camera) (T_G_C_filter T_G_C_lc : Transformation)
  (before after : list (Vector2 * Vector3))
  (keypoint : Vector2) (p_G : Vector3) (acc : ReprojectionAcc) :
  projection_status camera T_G_C_filter p_G <> UNINITIALIZED ->
  geometrically_invalid (projection_status camera T_G_C_filter p_G) = true
  \/ geometrically_invalid (projection_status camera T_G_C_lc p_G) = true ->
  (forall lc fl n,
      process_match camera T_G_C_filter T_G_C_lc (lc, fl, n) (keypoint, p_G)
      = Ok (lc, fl, S n))
  /\ ofold (process_match camera T_G_C_filter T_G_C_lc)
           (before ++ (keypoint, p_G) :: after) acc
     = obind (ofold (process_match camera T_G_C_filter T_G_C_lc) before acc)
             (fun '(lc, fl, n) =>
                ofold (process_match camera T_G_C_filter T_G_C_lc) after
                      (lc, fl, S n))
  /\ (forall h localization_result T_G_I_filter cam_idx,
         size_contract h localization_result ->
         camera_contract h localization_result T_G_I_filter ->
         is_active (maplab_to_openvins_cam_indices_mapping_ h) cam_idx
         = true ->
         (cam_idx < length (G_landmarks_per_camera localization_result))%nat ->
         getCamera (camera_calibration_ h) cam_idx = camera ->
         camera_pose h T_G_I_filter cam_idx = T_G_C_filter ->
         camera_pose h (T_G_B localization_result) cam_idx = T_G_C_lc ->
         combine
           (nth cam_idx (keypoint_measurements_per_camera localization_result)
                [])
           (nth cam_idx (G_landmarks_per_camera localization_result) [])
         = before ++ (keypoint, p_G) :: after ->
         recorded_matches h localization_result T_G_I_filter cam_idx
         = filter (both_valid camera T_G_C_filter T_G_C_lc) before
           ++ filter (both_valid camera T_G_C_filter T_G_C_lc) after
         /\ getLocalizationReprojectionErrors h localization_result
              T_G_I_filter
            = Ok (INR (length (recorded_residuals h localization_result
                                 T_G_I_filter T_G_I_filter))
                  / INR (num_valid_matches h localization_result),
                  recorded_residuals h localization_result
                    T_G_I_filter T_G_I_filter,
                  recorded_residuals h localization_result
                    T_G_I_filter (T_G_B localization_result))
         /\ (length before + 1 + length after
             <= num_valid_matches h localization_result)%nat
         /\ (length (recorded_residuals h localization_result
                       T_G_I_filter T_G_I_filter)
             < num_valid_matches h localization_result)%nat).
Proof.
  intros Hinit Hinvalid.
  split; [|split].
  - intros lc fl n. now apply process_match_skips.
  - rewrite ofold_app.
    destruct (ofold (process_match camera T_G_C_filter T_G_C_lc) before acc)
      as [|[[lc fl] n]]; cbn [obind ofold]; [reflexivity|].
    rewrite process_match_skips by assumption. reflexivity.
  - intros h r T_G_I_filter cam_idx Hsize Hstatus Hactive Hidx
           Hcamera Hfilter Hlc Hmatches.
    assert (Hcam : camera_matches h r cam_idx
                   = before ++ (keypoint, p_G) :: after).
    { unfold camera_matches. now rewrite Hactive. }
    assert (Hskip : both_valid camera T_G_C_filter T_G_C_lc (keypoint, p_G)
                    = false).
    { unfold both_valid. cbn [snd].
      destruct Hinvalid as [-> | ->]; simpl;
        [reflexivity | apply andb_false_r]. }
    assert (Hrecorded :
              recorded_matches h r T_G_I_filter cam_idx
              = filter (both_valid camera T_G_C_filter T_G_C_lc) before
                ++ filter (both_valid camera T_G_C_filter T_G_C_lc) after).
    { unfold recorded_matches.
      rewrite Hcam, Hcamera, Hfilter, Hlc, filter_app. cbn [filter].
      now rewrite Hskip. }
    assert (Hseq : In cam_idx
                      (seq 0 (length (G_landmarks_per_camera r))))
      by (apply in_seq; lia).
    assert (Hcount : (length before + 1 + length after
                      <= num_valid_matches h r)%nat).
    { rewrite (num_valid_matches_sum h r Hsize).
      pose proof (list_sum_map_In
                    (fun i => length (camera_matches h r i)) _ _ Hseq)
        as Hle.
      cbv beta in Hle. rewrite Hcam, length_app in Hle. simpl in Hle. lia. }
    assert (Hless : (length (recorded_residuals h r T_G_I_filter T_G_I_filter)
                     < num_valid_matches h r)%nat).
    { rewrite (num_valid_matches_sum h r Hsize), recorded_residuals_length.
      apply (list_sum_map_lt _ _ _ cam_idx); [|exact Hseq|].
      - intros i _. unfold recorded_matches. apply filter_length_le.
      - rewrite Hrecorded, Hcam, !length_app. simpl.
        pose proof (filter_length_le
                      (both_valid camera T_G_C_filter T_G_C_lc) before).
        pose proof (filter_length_le
                      (both_valid camera T_G_C_filter T_G_C_lc) after).
        lia. }
    split; [exact Hrecorded|]. split; [|split; assumption].
    apply getLocalizationReprojectionErrors_recorded; try assumption. lia.
Qed.

(** In [Demo.camera_front], calibrated with identity extrinsics, a point
    on the optical axis at height [z] seen from a body [c] metres up the
    axis is behind the camera exactly when [z - c <= 0]. *)
Lemma demo_front_status (T_G_I : Transformation) (c z : R) :
  T_G_I = mkTransformation q_identity (mkVector3 0 0 c) ->
  projection_status Demo.camera_front
    (camera_pose Demo.handler_front T_G_I 0) (Demo.point_at z)
  = if Rleb (z - c) 0 then POINT_BEHIND_CAMERA else KEYPOINT_VISIBLE.
Proof.
  intros ->. unfold projection_status, camera_pose.
  change (get_T_C_B (camera_calibration_ Demo.handler_front) 0)
    with T_identity.
  cbv [Demo.camera_front Demo.point_at project3 fst
       T_apply T_inverse T_mul T_identity q_mul q_inverse q_identity q_rotate
       q_imaginary v3_add v3_opp v3_scale v3_cross v3_zero
       getRotation getPosition qw qx qy qz v3x v3y v3z].
  match goal with
  | |- (if Rleb ?e 0 then _ else _) = _ => replace e with (z - c) by ring
  end.
  reflexivity.
Qed.

Lemma demo_front_both_valid (z : R) :
  both_valid Demo.camera_front
    (camera_pose Demo.handler_front T_identity 0)
    (camera_pose Demo.handler_front Demo.pose_ahead 0)
    (Demo.origin2, Demo.point_at z)
  = negb (Rleb (z - 0) 0) && negb (Rleb (z - 5) 0).
Proof.
  unfold both_valid. cbn [snd].
  rewrite (demo_front_status T_identity 0 z eq_refl),
    (demo_front_status Demo.pose_ahead 5 z eq_refl).
  destruct (Rleb (z - 0) 0), (Rleb (z - 5) 0); reflexivity.
Qed.

Lemma invalid_projection_is_skipped_witness :
  projection_status Demo.camera_front
    (camera_pose Demo.handler_front T_identity 0) (Demo.point_at 1)
  <> UNINITIALIZED
  /\ geometrically_invalid
       (projection_status Demo.camera_front
          (camera_pose Demo.handler_front Demo.pose_ahead 0)
          (Demo.point_at 1)) = true
  /\ recorded_matches Demo.handler_front Demo.result_front T_identity 0
     = [(Demo.origin2, Demo.point_at 10); (Demo.origin2, Demo.point_at 20)]
  /\ num_valid_matches Demo.handler_front Demo.result_front = 3%nat
  /\ getLocalizationReprojectionErrors Demo.handler_front Demo.result_front
       T_identity
     = Ok (INR 2 / INR 3,
           recorded_residuals Demo.handler_front Demo.result_front
             T_identity T_identity,
           recorded_residuals Demo.handler_front Demo.result_front
             T_identity Demo.pose_ahead).
Proof.
  assert (Hinit : projection_status Demo.camera_front
                    (camera_pose Demo.handler_front T_identity 0)
                    (Demo.point_at 1) <> UNINITIALIZED).
  { rewrite (demo_front_status T_identity 0 1 eq_refl).
    destruct (Rleb (1 - 0) 0); discriminate. }
  assert (Hbehind : geometrically_invalid
                      (projection_status Demo.camera_front
                         (camera_pose Demo.handler_front Demo.pose_ahead 0)
                         (Demo.point_at 1)) = true).
  { rewrite (demo_front_status Demo.pose_ahead 5 1 eq_refl).
    assert (Hle : Rleb (1 - 5) 0 = true) by (apply Rleb_true; lra).
    now rewrite Hle. }
  assert (Hsize : size_contract Demo.handler_front Demo.result_front).
  { repeat split. intros [|i] Hi; [reflexivity | simpl in Hi; lia]. }
  assert (Hstatus : camera_contract Demo.handler_front Demo.result_front
                      T_identity).
  { intros [|i] m Hin; [|destruct i; contradiction].
    split; unfold projection_status;
      change (getCamera (camera_calibration_ Demo.handler_front) 0)
        with Demo.camera_front;
      cbn [project3 Demo.camera_front fst];
      destruct (Rleb _ 0); discriminate. }
  assert (Hidx : (0 < length (G_landmarks_per_camera Demo.result_front))%nat)
    by (simpl; lia).
  destruct (invalid_projection_is_skipped Demo.camera_front
              (camera_pose Demo.handler_front T_identity 0)
              (camera_pose Demo.handler_front Demo.pose_ahead 0)
              [(Demo.origin2, Demo.point_at 10)]
              [(Demo.origin2, Demo.point_at 20)]
              Demo.origin2 (Demo.point_at 1) ([], [], O)
              Hinit (or_intror Hbehind)) as [_ [_ Hfunction]].
  destruct (Hfunction Demo.handler_front Demo.result_front T_identity 0%nat
              Hsize Hstatus eq_refl Hidx eq_refl eq_refl eq_refl eq_refl)
    as [Hrecorded [Hrun _]].
  cbn [filter] in Hrecorded.
  rewrite !demo_front_both_valid in Hrecorded.
  assert (H10 : Rleb (10 - 0) 0 = false) by (apply Rleb_false; lra).
  assert (H10' : Rleb (10 - 5) 0 = false) by (apply Rleb_false; lra).
  assert (H20 : Rleb (20 - 0) 0 = false) by (apply Rleb_false; lra).
  assert (H20' : Rleb (20 - 5) 0 = false) by (apply Rleb_false; lra).
  rewrite H10, H10', H20, H20' in Hrecorded.
  cbn [negb andb app] in Hrecorded.
  assert (Hlength : length (recorded_residuals Demo.handler_front
                              Demo.result_front T_identity T_identity)
                    = 2%nat).
  { rewrite recorded_residuals_length.
    change (seq 0 (length (G_landmarks_per_camera Demo.result_front)))
      with [0%nat].
    cbn [map list_sum fold_right]. now rewrite Hrecorded. }
  rewrite Hlength in Hrun.
  split; [exact Hinit|]. split; [exact Hbehind|].
  split; [exact Hrecorded|]. split; [reflexivity|]. exact Hrun.
Defined.

(** ** The seed of the baseframe estimation *)

Lemma demo_estimate_identity :
  T_mul T_identity (T_inverse T_identity) = T_identity.
Proof.
  cbv [T_mul T_inverse T_identity q_mul q_inverse q_identity q_rotate
       v3_add v3_opp v3_scale v3_cross q_imaginary v3_zero
       getRotation getPosition qw qx qy qz v3x v3y v3z].
  f_equal; f_equal; ring.
Qed.

(** A second localization result that agrees with the first candidate
    initializes the baseframe. *)
Lemma demo_initialization_succeeds :
  @initializeBaseframe Demo.externals Demo.constants Demo.structure_flags
    Demo.result_100 (Demo.handler_with kUninitialized [] [T_identity])
  = Ok (true,
        set_random_device
          (fun n => random_device
                      (Demo.handler_with kUninitialized [] [T_identity]) (S n))
          (set_T_G_M_loc_buffer
             (fsq_insert (T_mul (T_G_B Demo.result_100)
                                (T_inverse T_identity))
                         (T_G_M_loc_buffer_
                            (Demo.handler_with kUninitialized []
                                               [T_identity])))
             (Demo.handler_with kUninitialized [] [T_identity]))).
Proof.
  rewrite (initializeBaseframe_ready Demo.externals Demo.constants
             Demo.structure_flags
             (Demo.handler_with kUninitialized [] [T_identity])
             Demo.result_100 T_identity eq_refl).
  cbv zeta.
  change (candidates_after (Demo.handler_with kUninitialized [] [T_identity])
                           Demo.result_100 T_identity)
    with [T_identity; T_mul T_identity (T_inverse T_identity)].
  rewrite demo_estimate_identity.
  change (drawn_seed (Demo.handler_with kUninitialized [] [T_identity]))
    with 0%Z.
  assert (Hcount : count_inliers (20 * PI / 180) 5 T_identity
                     [T_identity; T_identity] = 2%nat).
  { unfold count_inliers. cbn [filter].
    change (is_inlier (20 * PI / 180) 5 T_identity T_identity)
      with (is_inlier (20 * PI / 180) 5
              (mkTransformation q_identity (mkVector3 0 0 0))
              (mkTransformation q_identity (mkVector3 0 0 0))).
    rewrite (demo_is_inlier_near 0). reflexivity. }
  assert (Hransac :
            @transformationRansac Demo.externals [T_identity; T_identity]
              (kInitializationMaxNumRansacIterations Demo.constants)
              (kInitializationRansacOrientationErrorThresholdRadians
                 Demo.constants)
              (kInitializationRansacPositionErrorThresholdMeters
                 Demo.constants) 0
            = (T_identity, 2%Z)).
  { unfold transformationRansac. simpl. rewrite !Hcount. reflexivity. }
  rewrite Hransac. reflexivity.
Qed.












(** * Further properties of the handler *)

(** ** What the reprojection loops keep *)

Lemma getReprojectionError_nonneg (p_G : Vector3) (T_G_C : Transformation)
  (camera : Camera) (measurement : Vector2) (e : R) :
  getReprojectionErrorForGlobalLandmark p_G T_G_C camera measurement
  = Ok (Some e) ->
  0 <= e.
Proof.
  unfold getReprojectionErrorForGlobalLandmark.
  destruct (project3 camera (T_apply (T_inverse T_G_C) p_G)) as [s kp].
  destruct s; intros Hrun; try discriminate;
    injection Hrun as <-; apply sqrt_pos.
Qed.

Lemma process_match_acc (camera : Camera)
  (T_G_C_filter T_G_C_lc : Transformation)
  (acc acc' : ReprojectionAcc) (m : Vector2 * Vector3) :
  process_match camera T_G_C_filter T_G_C_lc acc m = Ok acc' ->
  acc_ok acc ->
  acc_ok acc' /\ snd acc' = S (snd acc).
Proof.
  destruct acc as [[lc fl] n], m as [keypoint p_G].
  unfold process_match, acc_ok.
  destruct (getReprojectionErrorForGlobalLandmark p_G T_G_C_filter camera
              keypoint) as [|[ef|]] eqn:Hfilter; simpl; try discriminate.
  - destruct (getReprojectionErrorForGlobalLandmark p_G T_G_C_lc camera
                keypoint) as [|[el|]] eqn:Hlc; simpl; try discriminate.
    + intros Hrun [Hlen [Hle [Hlcs Hfls]]]. injection Hrun as <-.
      apply getReprojectionError_nonneg in Hfilter, Hlc.
      rewrite !length_app. simpl. repeat split; try lia.
      * apply Forall_app. split; [assumption | now constructor].
      * apply Forall_app. split; [assumption | now constructor].
    + intros Hrun [Hlen [Hle [Hlcs Hfls]]]. injection Hrun as <-.
      simpl. repeat split; try assumption; lia.
  - intros Hrun [Hlen [Hle [Hlcs Hfls]]]. injection Hrun as <-.
    simpl. repeat split; try assumption; lia.
Qed.

Lemma ofold_process_match_acc (camera : Camera)
  (T_G_C_filter T_G_C_lc : Transformation)
  (l : list (Vector2 * Vector3)) (acc acc' : ReprojectionAcc) :
  ofold (process_match camera T_G_C_filter T_G_C_lc) l acc = Ok acc' ->
  acc_ok acc ->
  acc_ok acc' /\ snd acc' = (snd acc + length l)%nat.
Proof.
  revert acc. induction l as [|m l IH]; intros acc Hrun Hok; simpl in *.
  - injection Hrun as <-. split; [assumption | lia].
  - destruct (process_match camera T_G_C_filter T_G_C_lc acc m)
      as [|acc1] eqn:Hstep; simpl in Hrun; [discriminate|].
    destruct (process_match_acc _ _ _ _ _ _ Hstep Hok) as [Hok1 Hn1].
    destruct (IH acc1 Hrun Hok1) as [Hok' Hn'].
    split; [assumption | lia].
Qed.

(** The matches camera [cam_idx] contributes to the processed count. *)
Lemma process_camera_acc (h : OpenvinsLocalizationHandler)
  (r : LocalizationResult) (T_G_I_filter : Transformation)
  (acc acc' : ReprojectionAcc) (cam_idx : nat) :
  process_camera h r T_G_I_filter acc cam_idx = Ok acc' ->
  acc_ok acc ->
  acc_ok acc'
  /\ snd acc'
     = match getRight (maplab_to_openvins_cam_indices_mapping_ h) cam_idx with
       | None => snd acc
       | Some _ =>
           (snd acc + length (nth cam_idx (G_landmarks_per_camera r) []))%nat
       end.
Proof.
  unfold process_camera. intros Hrun Hok.
  destruct (Nat.eqb_spec
              (length (nth cam_idx (G_landmarks_per_camera r) []))
              (length (nth cam_idx (keypoint_measurements_per_camera r) [])))
    as [Hcols | _]; simpl in Hrun; [|discriminate].
  destruct (Nat.eqb_spec
              (length (nth cam_idx (G_landmarks_per_camera r) [])) 0)
    as [Hzero | _].
  - injection Hrun as <-. split; [assumption|].
    destruct (getRight _ cam_idx); lia.
  - destruct (getRight _ cam_idx).
    + destruct (ofold_process_match_acc _ _ _ _ _ _ Hrun Hok) as [Hok' Hn'].
      split; [assumption|].
      rewrite Hn', length_combine. lia.
    + injection Hrun as <-. split; [assumption | reflexivity].
Qed.

Lemma ofold_process_camera_acc (h : OpenvinsLocalizationHandler)
  (r : LocalizationResult) (T_G_I_filter : Transformation)
  (l : list nat) (acc acc' : ReprojectionAcc) :
  ofold (process_camera h r T_G_I_filter) l acc = Ok acc' ->
  acc_ok acc ->
  acc_ok acc'
  /\ snd acc'
     = fold_left
         (fun n maplab_cam_idx =>
            match getRight (maplab_to_openvins_cam_indices_mapping_ h)
                           maplab_cam_idx with
            | None => n
            | Some _ =>
                (n + length (nth maplab_cam_idx
                                 (G_landmarks_per_camera r) []))%nat
            end) l (snd acc).
Proof.
  revert acc. induction l as [|i l IH]; intros acc Hrun Hok; simpl in *.
  - injection Hrun as <-. split; [assumption | reflexivity].
  - destruct (process_camera h r T_G_I_filter acc i) as [|acc1] eqn:Hstep;
      simpl in Hrun; [discriminate|].
    destruct (process_camera_acc _ _ _ _ _ _ Hstep Hok) as [Hok1 Hn1].
    destruct (IH acc1 Hrun Hok1) as [Hok' Hn'].
    split; [assumption|]. now rewrite Hn', Hn1.
Qed.

(** What a returned triple satisfies, in terms of the loop result. *)
Lemma getLocalizationReprojectionErrors_result
  (h : OpenvinsLocalizationHandler) (r : LocalizationResult)
  (T_G_I_filter : Transformation) (rate : R) (lc fl : list R) :
  getLocalizationReprojectionErrors h r T_G_I_filter = Ok (rate, lc, fl) ->
  acc_ok (lc, fl, num_valid_matches h r)
  /\ num_valid_matches h r <> O
  /\ rate = INR (length lc) / INR (num_valid_matches h r).
Proof.
  unfold getLocalizationReprojectionErrors.
  destruct (ocheck _); simpl; [discriminate|].
  destruct (ocheck _); simpl; [discriminate|].
  destruct (ofold _ _ _) as [|[[lc' fl'] n']] eqn:Hloop; simpl;
    [discriminate|].
  destruct (ocheck _); simpl; [discriminate|].
  destruct (Nat.ltb_spec 0 n') as [Hpos | _]; simpl; [|discriminate].
  intros Hrun. injection Hrun as <- <- <-.
  assert (Hempty : acc_ok ([], [], O))
    by (simpl; repeat split; [lia | constructor | constructor]).
  destruct (ofold_process_camera_acc _ _ _ _ _ _ Hloop Hempty) as [Hok Hn].
  simpl in Hn. fold (num_valid_matches h r) in Hn. subst n'.
  split; [assumption|]. split; [lia | reflexivity].
Qed.

(** X1: whenever the loop over the cameras completes, the two vectors
    it has filled have the same length, so the [CHECK_EQ] that follows it
    cannot fail: what [getLocalizationReprojectionErrors] then does depends
    only on the number of processed matches (it aborts when that number is
    0, and returns the vectors with their ratio otherwise).  No residual
    is negative, there are no more residuals than processed matches, and
    the ratio lies between 0 and 1. *)
Theorem reprojection_errors_well_formed
  (h : OpenvinsLocalizationHandler) (r : LocalizationResult)
  (T_G_I_filter : Transformation) (lc fl : list R) (n : nat) :
  ofold (process_camera h r T_G_I_filter)
        (seq 0 (length (G_landmarks_per_camera r))) ([], [], O)
  = Ok (lc, fl, n) ->
  length lc = length fl
  /\ (length lc <= n)%nat
  /\ Forall (fun e => 0 <= e) lc
  /\ Forall (fun e => 0 <= e) fl
  /\ (length (G_landmarks_per_camera r)
      = length (keypoint_measurements_per_camera r) ->
      length (G_landmarks_per_camera r) = numCameras (camera_calibration_ h) ->
      getLocalizationReprojectionErrors h r T_G_I_filter
      = if (0 <? n)%nat then Ok (INR (length lc) / INR n, lc, fl) else Fatal)
  /\ ((0 < n)%nat -> 0 <= INR (length lc) / INR n <= 1).
Proof.
  intros Hloop.
  assert (Hempty : acc_ok ([], [], O))
    by (simpl; repeat split; [lia | constructor | constructor]).
  destruct (ofold_process_camera_acc _ _ _ _ _ _ Hloop Hempty)
    as [[Hlen [Hle [Hlc Hfl]]] _].
  repeat (split; [assumption|]).
  split.
  - intros Hsizes Hcams. unfold getLocalizationReprojectionErrors.
    apply Nat.eqb_eq in Hsizes, Hcams. rewrite Hsizes. cbn [ocheck obind].
    rewrite Hcams. cbn [ocheck obind]. rewrite Hloop. cbn [obind].
    apply Nat.eqb_eq in Hlen. rewrite Hlen. cbn [ocheck obind].
    destruct (0 <? n)%nat; reflexivity.
  - intros Hpos.
    assert (Hn : 0 < INR n) by (apply lt_0_INR; lia).
    split.
    + apply Rmult_le_pos; [apply pos_INR|].
      apply Rlt_le, Rinv_0_lt_compat. exact Hn.
    + apply le_INR in Hle.
      apply Rmult_le_reg_r with (r := INR n); [assumption|].
      unfold Rdiv. rewrite Rmult_assoc, Rinv_l by lra. lra.
Qed.

Lemma reprojection_errors_well_formed_witness :
  let lc := [Demo.residual_xy Demo.shifted_pose;
             Demo.residual_xy Demo.shifted_pose] in
  let fl := [Demo.residual_xy T_identity; Demo.residual_xy T_identity] in
  ofold (process_camera Demo.handler_xy Demo.result_xy Demo.shifted_pose)
        (seq 0 (length (G_landmarks_per_camera Demo.result_xy)))
        ([], [], O)
  = Ok (lc, fl, 2%nat)
  /\ getLocalizationReprojectionErrors Demo.handler_xy Demo.result_xy
       Demo.shifted_pose
     = Ok (INR (length lc) / INR 2, lc, fl).
Proof.
  intros lc fl.
  split; [reflexivity|].
  destruct (reprojection_errors_well_formed Demo.handler_xy Demo.result_xy
              Demo.shifted_pose lc fl 2%nat eq_refl)
    as [_ [_ [_ [_ [Hrun _]]]]].
  exact (Hrun eq_refl eq_refl).
Defined.

(** X2: the denominator of the returned success rate is the number of
    matches in the cameras OpenVINS uses, the very number
    [processAsUpdate] tests against zero before the call; a returned rate
    therefore means that number is positive. *)
Theorem success_rate_denominator
  (h : OpenvinsLocalizationHandler) (r : LocalizationResult)
  (T_G_I_filter : Transformation) (rate : R) (lc fl : list R) :
  getLocalizationReprojectionErrors h r T_G_I_filter = Ok (rate, lc, fl) ->
  num_valid_matches h r <> O
  /\ (length lc <= num_valid_matches h r)%nat
  /\ rate = INR (length lc) / INR (num_valid_matches h r).
Proof.
  intros Hrun.
  destruct (getLocalizationReprojectionErrors_result _ _ _ _ _ _ Hrun)
    as [[_ [Hle _]] [Hpos Hrate]].
  repeat split; assumption.
Qed.

Lemma success_rate_denominator_witness :
  getLocalizationReprojectionErrors (Demo.handler kLocalized [])
    Demo.result_150
    (T_mul (last (buffer (T_G_M_filter_buffer_ (Demo.handler kLocalized [])))
                 T_identity)
           Demo.pose_150)
  = Ok (Demo.rate, Demo.residuals, Demo.residuals)
  /\ Demo.rate
     = INR (length Demo.residuals)
       / INR (num_valid_matches (Demo.handler kLocalized []) Demo.result_150).
Proof.
  split; [reflexivity|].
  apply (success_rate_denominator (Demo.handler kLocalized [])
           Demo.result_150
           (T_mul (last (buffer (T_G_M_filter_buffer_
                                   (Demo.handler kLocalized [])))
                        T_identity)
                  Demo.pose_150)
           Demo.rate Demo.residuals Demo.residuals eq_refl).
Defined.

(** X3: for a correspondence that projects under both hypotheses, the
    loop appends the residual of the filter hypothesis to the first vector,
    [lc_reprojection_errors], and the residual of the localization
    hypothesis to the second, [filter_reprojection_errors] -- the names are
    exchanged.  So the first returned vector holds the residuals under the
    filter pose and the second those under the pose of the localization
    result.  The two vectors have the same length, and exchanging them
    changes nothing of what [processAsUpdate] logs from them. *)
Theorem exchanged_vectors_log_the_same
  (FLAGS : Flags) (h : OpenvinsLocalizationHandler) (r : LocalizationResult)
  (T_G_I_filter : Transformation) (rate : R) (lc fl : list R) :
  getLocalizationReprojectionErrors h r T_G_I_filter = Ok (rate, lc, fl) ->
  (forall camera T_G_C_filter T_G_C_lc keypoint p_G lc0 fl0 n e_filter e_lc,
      getReprojectionErrorForGlobalLandmark p_G T_G_C_filter camera keypoint
      = Ok (Some e_filter) ->
      getReprojectionErrorForGlobalLandmark p_G T_G_C_lc camera keypoint
      = Ok (Some e_lc) ->
      process_match camera T_G_C_filter T_G_C_lc (lc0, fl0, n)
                    (keypoint, p_G)
      = Ok (lc0 ++ [e_filter], fl0 ++ [e_lc], S n))
  /\ (size_contract h r -> camera_contract h r T_G_I_filter ->
      lc = recorded_residuals h r T_G_I_filter T_G_I_filter
      /\ fl = recorded_residuals h r T_G_I_filter (T_G_B r))
  /\ length lc = length fl
  /\ gate_log FLAGS rate lc fl = gate_log FLAGS rate fl lc.
Proof.
  intros Hrun.
  destruct (getLocalizationReprojectionErrors_result _ _ _ _ _ _ Hrun)
    as [[Hlen _] [Hpos _]].
  split; [|split; [|split; [exact Hlen|]]].
  - intros camera T_G_C_filter T_G_C_lc keypoint p_G lc0 fl0 n e_filter e_lc
           Hfilter Hlc.
    unfold process_match. rewrite Hfilter. cbn [obind]. rewrite Hlc.
    reflexivity.
  - intros Hsize Hstatus.
    rewrite (getLocalizationReprojectionErrors_recorded h r T_G_I_filter
               Hsize Hstatus Hpos) in Hrun.
    injection Hrun as _ Hlc Hfl. now split.
  - unfold gate_log, reprojection_success, mean_reprojection_error_diff.
    rewrite Hlen, (Rabs_minus_sym (mean fl) (mean lc)). reflexivity.
Qed.

Lemma demo_residual_shifted : Demo.residual_xy Demo.shifted_pose = 5.
Proof.
  unfold Demo.residual_xy, Demo.pose_in_camera, v2_norm, v2_sub.
  cbv [Demo.camera_xy Demo.shifted_pose Demo.point Demo.origin2 project3 snd
       T_apply T_inverse T_mul T_identity q_mul q_inverse q_identity q_rotate
       q_imaginary v3_add v3_opp v3_scale v3_cross v3_zero
       getRotation getPosition qw qx qy qz v3x v3y v3z v2x v2y].
  match goal with
  | |- sqrt ?e = _ => replace e with (5 * 5) by ring
  end.
  apply sqrt_square. lra.
Qed.

Lemma demo_residual_exact : Demo.residual_xy T_identity = 0.
Proof.
  unfold Demo.residual_xy, Demo.pose_in_camera, v2_norm, v2_sub.
  cbv [Demo.camera_xy Demo.point Demo.origin2 project3 snd
       T_apply T_inverse T_mul T_identity q_mul q_inverse q_identity q_rotate
       q_imaginary v3_add v3_opp v3_scale v3_cross v3_zero
       getRotation getPosition qw qx qy qz v3x v3y v3z v2x v2y].
  match goal with
  | |- sqrt ?e = _ => replace e with 0 by ring
  end.
  apply sqrt_0.
Qed.

(** With the filter pose shifted by (3, 4, 0) and the localization pose
    exact, the vector named [lc_reprojection_errors] holds the filter
    residuals 5 and the other one the localization residuals 0. *)
Lemma demo_shifted_reprojection_errors :
  getLocalizationReprojectionErrors Demo.handler_xy Demo.result_xy
    Demo.shifted_pose
  = Ok (INR 2 / INR 2, [5; 5], [0; 0]).
Proof.
  transitivity
    (Ok (INR 2 / INR 2,
         [Demo.residual_xy Demo.shifted_pose;
          Demo.residual_xy Demo.shifted_pose],
         [Demo.residual_xy T_identity; Demo.residual_xy T_identity])).
  - reflexivity.
  - now rewrite demo_residual_shifted, demo_residual_exact.
Qed.

Lemma exchanged_vectors_log_the_same_witness :
  getLocalizationReprojectionErrors Demo.handler_xy Demo.result_xy
    Demo.shifted_pose
  = Ok (INR 2 / INR 2, [5; 5], [0; 0])
  /\ gate_log Demo.structure_flags (INR 2 / INR 2) [5; 5] [0; 0]
     = gate_log Demo.structure_flags (INR 2 / INR 2) [0; 0] [5; 5].
Proof.
  split; [exact demo_shifted_reprojection_errors|].
  destruct (exchanged_vectors_log_the_same Demo.structure_flags
              Demo.handler_xy Demo.result_xy Demo.shifted_pose
              (INR 2 / INR 2) [5; 5] [0; 0]
              demo_shifted_reprojection_errors) as [_ [_ [_ Hlog]]].
  exact Hlog.
Defined.

Lemma ofold_process_match_same (camera : Camera) (T_G_C : Transformation)
  (l : list (Vector2 * Vector3)) (errs : list R) (n : nat)
  (acc' : ReprojectionAcc) :
  ofold (process_match camera T_G_C T_G_C) l (errs, errs, n) = Ok acc' ->
  fst (fst acc') = snd (fst acc').
Proof.
  revert errs n. induction l as [|[keypoint p_G] l IH]; intros errs n Hrun.
  - injection Hrun as <-. reflexivity.
  - simpl in Hrun.
    destruct (getReprojectionErrorForGlobalLandmark p_G T_G_C camera
                keypoint) as [|[e|]]; simpl in Hrun;
      [discriminate | |]; eapply IH; exact Hrun.
Qed.

Lemma ofold_process_camera_same (h : OpenvinsLocalizationHandler)
  (r : LocalizationResult) (l : list nat) (errs : list R) (n : nat)
  (acc' : ReprojectionAcc) :
  ofold (process_camera h r (T_G_B r)) l (errs, errs, n) = Ok acc' ->
  fst (fst acc') = snd (fst acc').
Proof.
  revert errs n. induction l as [|i l IH]; intros errs n Hrun.
  - injection Hrun as <-. reflexivity.
  - simpl in Hrun.
    destruct (process_camera h r (T_G_B r) (errs, errs, n) i)
      as [|[[lc1 fl1] n1]] eqn:Hstep; simpl in Hrun; [discriminate|].
    assert (Hsame : lc1 = fl1).
    { unfold process_camera in Hstep.
      destruct (ocheck _); simpl in Hstep; [discriminate|].
      destruct (Nat.eqb _ 0).
      - injection Hstep as <- <- _. reflexivity.
      - destruct (getRight _ i).
        + apply ofold_process_match_same in Hstep. exact Hstep.
        + injection Hstep as <- <- _. reflexivity. }
    subst fl1. eapply IH. exact Hrun.
Qed.

(** X4: when the filter's pose for the result equals the pose of the
    result itself, the two residual vectors coincide and the mean
    difference is 0; the reprojection check then raises no warning exactly
    when enough correspondences reproject and the pixel threshold flag is
    not negative. *)
Theorem same_pose_same_residuals
  (FLAGS : Flags) (h : OpenvinsLocalizationHandler) (r : LocalizationResult)
  (rate : R) (lc fl : list R) :
  getLocalizationReprojectionErrors h r (T_G_B r) = Ok (rate, lc, fl) ->
  let success := reprojection_success FLAGS rate lc in
  lc = fl
  /\ mean_reprojection_error_diff true lc fl = 0
  /\ (reprojection_check_fails FLAGS success
        (mean_reprojection_error_diff success lc fl) = false
      <-> success = true
          /\ 0 <= FLAGS_openvinsli_max_mean_localization_reprojection_error_px
                    FLAGS).
Proof.
  intros Hrun success.
  assert (Hsame : lc = fl).
  { unfold getLocalizationReprojectionErrors in Hrun.
    destruct (ocheck _); simpl in Hrun; [discriminate|].
    destruct (ocheck _); simpl in Hrun; [discriminate|].
    destruct (ofold _ _ _) as [|[[lc' fl'] n']] eqn:Hloop; simpl in Hrun;
      [discriminate|].
    destruct (ocheck _); simpl in Hrun; [discriminate|].
    destruct (ocheck _); simpl in Hrun; [discriminate|].
    injection Hrun as _ <- <-.
    apply ofold_process_camera_same in Hloop. exact Hloop. }
  subst fl.
  assert (Hzero : Rabs (mean lc - mean lc) = 0)
    by (unfold Rminus; now rewrite Rplus_opp_r, Rabs_R0).
  split; [reflexivity|]. split; [exact Hzero|].
  unfold reprojection_check_fails, mean_reprojection_error_diff.
  destruct success; simpl.
  - rewrite Hzero, Rltb_false. tauto.
  - split; [discriminate | intros [Hcontra _]; discriminate].
Qed.

Lemma same_pose_same_residuals_witness :
  getLocalizationReprojectionErrors (Demo.handler kLocalized [])
    Demo.result_150 (T_G_B Demo.result_150)
  = Ok (Demo.rate, Demo.residuals, Demo.residuals)
  /\ mean_reprojection_error_diff true Demo.residuals Demo.residuals = 0.
Proof.
  split; [reflexivity|].
  destruct (same_pose_same_residuals Demo.structure_flags
              (Demo.handler kLocalized []) Demo.result_150
              Demo.rate Demo.residuals Demo.residuals eq_refl)
    as [_ [Hzero _]].
  exact Hzero.
Defined.

(** ** What the methods leave alone *)

Section Respects.

Variable R : OpenvinsLocalizationHandler -> OpenvinsLocalizationHandler -> Prop.
Hypothesis R_refl : forall h, R h h.
Hypothesis R_trans : forall h1 h2 h3, R h1 h2 -> R h2 h3 -> R h1 h3.

Lemma respects_ret {A : Type} (a : A) : respects R (ret a).
Proof. intros h a' h' Hrun. injection Hrun as _ <-. apply R_refl. Qed.

Lemma respects_get : respects R get.
Proof. intros h a h' Hrun. injection Hrun as _ <-. apply R_refl. Qed.

Lemma respects_lift {A : Type} (c : outcome A) : respects R (lift c).
Proof.
  intros h a h' Hrun. unfold lift in Hrun.
  destruct c; [discriminate|]. injection Hrun as _ <-. apply R_refl.
Qed.

Lemma respects_bind {A B : Type} (c : M A) (k : A -> M B) :
  respects R c -> (forall a, respects R (k a)) -> respects R (bind c k).
Proof.
  intros Hc Hk h b h' Hrun. unfold bind in Hrun.
  destruct (c h) as [|[a h1]] eqn:Hch; [discriminate|].
  exact (R_trans _ _ _ (Hc h a h1 Hch) (Hk a h1 b h' Hrun)).
Qed.

Lemma respects_modify
  (f : OpenvinsLocalizationHandler -> OpenvinsLocalizationHandler) :
  (forall h, R h (f h)) -> respects R (modify f).
Proof. intros Hf h a h' Hrun. injection Hrun as _ <-. apply Hf. Qed.

Lemma respects_LOG_IF (s : Severity) (cond : bool) (m : LogMessage) :
  respects R (LOG s m) -> respects R (LOG_IF s cond m).
Proof. intros Hlog. destruct cond; [exact Hlog | apply respects_ret]. Qed.

End Respects.

Lemma only_logged_refl (h : OpenvinsLocalizationHandler) : only_logged h h.
Proof. exists []. destruct h. unfold set_glog. simpl. now rewrite app_nil_r. Qed.

Lemma only_logged_trans (h1 h2 h3 : OpenvinsLocalizationHandler) :
  only_logged h1 h2 -> only_logged h2 h3 -> only_logged h1 h3.
Proof.
  intros [l1 ->] [l2 ->]. exists (l1 ++ l2).
  unfold set_glog. simpl. now rewrite app_assoc.
Qed.

Lemma only_logged_LOG (s : Severity) (m : LogMessage) :
  respects only_logged (LOG s m).
Proof. apply respects_modify. intros h. now exists [(s, m)]. Qed.

Lemma same_outside_initialization_refl (h : OpenvinsLocalizationHandler) :
  same_outside_initialization h h.
Proof. unfold same_outside_initialization. repeat split. Qed.

Lemma same_outside_initialization_trans
  (h1 h2 h3 : OpenvinsLocalizationHandler) :
  same_outside_initialization h1 h2 -> same_outside_initialization h2 h3 ->
  same_outside_initialization h1 h3.
Proof.
  unfold same_outside_initialization.
  intros [? [? [? [? [? [? [? ?]]]]]]] [? [? [? [? [? [? [? ?]]]]]]].
  repeat split; congruence.
Qed.

Lemma state_advances_refl (h : OpenvinsLocalizationHandler) :
  state_advances h h.
Proof. now left. Qed.

Lemma state_advances_trans (h1 h2 h3 : OpenvinsLocalizationHandler) :
  state_advances h1 h2 -> state_advances h2 h3 -> state_advances h1 h3.
Proof.
  unfold state_advances. intros [H12 | H12] [H23 | H23];
    try (right; congruence); left; congruence.
Qed.

(** Steps through a method built from [bind], [ret], logging and case
    distinctions, for a reflexive and transitive relation. *)
Ltac respects_step Hrefl Htrans Hlog :=
  first
    [ apply (respects_ret _ Hrefl)
    | apply (respects_get _ Hrefl)
    | apply (respects_lift _ Hrefl)
    | apply (respects_LOG_IF _ Hrefl); apply Hlog
    | apply Hlog
    | apply (respects_bind _ Htrans); [|intros ?]
    | match goal with
      | |- respects _ (match ?x with _ => _ end) => destruct x eqn:?
      | |- respects _ (if ?x then _ else _) => destruct x eqn:?
      | |- respects _ (let '(_, _) := ?x in _) => destruct x eqn:?
      end ].

(** X5: in structure-constraint mode [processAsUpdate], whichever way it
    returns, returns [false], feeds nothing to the estimator and changes no
    member of the handler: the handler afterwards is the handler before
    with log records added. *)
Theorem structure_mode_update_only_logs
  (E : Externals) (FLAGS : Flags) (r : LocalizationResult)
  (h h' : OpenvinsLocalizationHandler) (accepted : bool) :
  FLAGS_openvinsli_use_6dof_localization FLAGS = false ->
  processAsUpdate FLAGS r h = Ok (accepted, h') ->
  accepted = false
  /\ exists records, h' = set_glog (glog h ++ records) h.
Proof.
  intros Hmode Hrun. split.
  - exact (processAsUpdate_structure_never_accepts E FLAGS h h' r accepted
             Hmode Hrun).
  - revert h accepted h' Hrun.
    change (respects only_logged (processAsUpdate FLAGS r)).
    unfold processAsUpdate, CHECK. rewrite Hmode.
    repeat respects_step only_logged_refl only_logged_trans only_logged_LOG.
Qed.

Lemma structure_mode_update_only_logs_witness :
  FLAGS_openvinsli_use_6dof_localization Demo.structure_flags = false
  /\ @processAsUpdate Demo.externals Demo.structure_flags
       Demo.result_150_empty (Demo.handler kLocalized [])
     = Ok (false, Demo.handler kLocalized [])
  /\ exists records,
       Demo.handler kLocalized []
       = set_glog (glog (Demo.handler kLocalized []) ++ records)
                  (Demo.handler kLocalized []).
Proof.
  split; [reflexivity|]. split; [reflexivity|].
  apply (structure_mode_update_only_logs Demo.externals Demo.structure_flags
           Demo.result_150_empty (Demo.handler kLocalized [])
           (Demo.handler kLocalized []) false eq_refl eq_refl).
Defined.

(** ** When [processAsUpdate] aborts *)

Lemma processAsUpdate_ready
  (E : Externals) (FLAGS : Flags) (h : OpenvinsLocalizationHandler)
  (r : LocalizationResult) (T_M_I : Transformation) :
  getPoseAt (T_M_I_buffer_ h) (timestamp_ns r)
  = (kSuccessInterpolated, T_M_I) ->
  FLAGS_openvinsli_use_6dof_localization FLAGS = false ->
  num_valid_matches h r <> O ->
  processAsUpdate FLAGS r h = Fatal
  <-> buffer (T_G_M_filter_buffer_ h) = []
      \/ getLocalizationReprojectionErrors h r
           (T_mul (last (buffer (T_G_M_filter_buffer_ h)) T_identity) T_M_I)
         = Fatal.
Proof.
  intros Hlookup Hmode Hvalid.
  unfold processAsUpdate, bind at 1, get at 1.
  rewrite Hlookup. cbn [status_eqb negb].
  unfold CHECK at 1, bind at 1. cbn [ocheck lift].
  unfold CHECK at 1, bind at 1. cbn [ocheck lift].
  rewrite Hmode.
  destruct (Nat.eqb_spec (num_valid_matches h r) 0) as [Hzero | _];
    [contradiction|].
  unfold fsq_size.
  destruct (buffer (T_G_M_filter_buffer_ h)) as [|T0 Ts] eqn:Hbuf.
  - simpl. split; [intros _; now left | reflexivity].
  - cbn [length Nat.eqb negb].
    unfold bind at 1. unfold bind at 1, CHECK at 1. cbn [ocheck lift].
    unfold bind at 1.
    destruct (getLocalizationReprojectionErrors h r _)
      as [|[[rate lc] fl]]; cbn [lift].
    + split; [intros _; now right | reflexivity].
    + split.
      * destruct (reprojection_success FLAGS rate lc);
          destruct (reprojection_check_fails FLAGS _ _);
          unfold bind, LOG, LOG_IF, modify, ret, get; simpl;
          match goal with
          | |- context [if ?c then _ else _] => destruct c
          end; unfold LOG, modify; simpl; discriminate.
      * intros [Hcontra | Hcontra]; discriminate.
Qed.

(** X6: [processAsUpdate] aborts exactly when the pose lookup for the
    result's timestamp does not succeed, or when, in structure-constraint
    mode with matches in an active camera, the filter baseframe buffer is
    empty or [getLocalizationReprojectionErrors] aborts. *)
Theorem processAsUpdate_aborts_iff
  (E : Externals) (FLAGS : Flags) (h : OpenvinsLocalizationHandler)
  (r : LocalizationResult) :
  let lookup := getPoseAt (T_M_I_buffer_ h) (timestamp_ns r) in
  processAsUpdate FLAGS r h = Fatal
  <-> fst lookup <> kSuccessInterpolated
      \/ (FLAGS_openvinsli_use_6dof_localization FLAGS = false
          /\ num_valid_matches h r <> O
          /\ (buffer (T_G_M_filter_buffer_ h) = []
              \/ getLocalizationReprojectionErrors h r
                   (T_mul (last (buffer (T_G_M_filter_buffer_ h)) T_identity)
                          (snd lookup))
                 = Fatal)).
Proof.
  intros lookup. subst lookup.
  destruct (getPoseAt (T_M_I_buffer_ h) (timestamp_ns r))
    as [status T_M_I] eqn:Hlookup.
  cbn [fst snd].
  destruct status.
  - destruct (FLAGS_openvinsli_use_6dof_localization FLAGS) eqn:Hmode.
    + unfold processAsUpdate, bind at 1, get at 1.
      rewrite Hlookup, Hmode. simpl.
      split; [discriminate|].
      intros [Hcontra | [Hcontra _]]; [now contradiction Hcontra
                                      | discriminate].
    + destruct (Nat.eq_dec (num_valid_matches h r) 0) as [Hzero | Hvalid].
      * split.
        -- unfold processAsUpdate, bind at 1, get at 1.
           rewrite Hlookup, Hmode. cbn [status_eqb negb].
           unfold CHECK at 1, bind at 1. cbn [ocheck lift].
           unfold CHECK at 1, bind at 1. cbn [ocheck lift].
           rewrite Hzero. cbn [Nat.eqb].
           destruct (FLAGS_openvinsli_use_6dof_localization_for_inactive_cameras
                       FLAGS);
             [destruct (status_initialized (openvins_interface_ h))|];
             discriminate.
        -- intros [Hcontra | [_ [Hcontra _]]]; contradiction.
      * rewrite (processAsUpdate_ready E FLAGS h r T_M_I Hlookup Hmode Hvalid).
        split; [intros Habort; right; now repeat split|].
        intros [Hcontra | [_ [_ Habort]]];
          [now contradiction Hcontra | exact Habort].
  - split; [intros _; left; discriminate|].
    intros _. unfold processAsUpdate, bind at 1, get at 1.
    now rewrite Hlookup.
  - split; [intros _; left; discriminate|].
    intros _. unfold processAsUpdate, bind at 1, get at 1.
    now rewrite Hlookup.
Qed.

(** ** No camera of the result is used by OpenVINS *)

Lemma num_valid_matches_fold_inactive (m : BidirectionalMap)
  (G : list (list Vector3)) (l : list nat) (n : nat) :
  (forall i, In i l -> getRight m i = None) ->
  fold_left
    (fun n maplab_cam_idx =>
       match getRight m maplab_cam_idx with
       | None => n
       | Some _ => (n + length (nth maplab_cam_idx G []))%nat
       end) l n = n.
Proof.
  revert n. induction l as [|i l IH]; intros n Hnone; simpl.
  - reflexivity.
  - rewrite (Hnone i) by now left.
    apply IH. intros j Hj. apply Hnone. now right.
Qed.

(** X7: when the index mapping knows none of the result's cameras,
    structure-constraint [processAsUpdate] (after a successful pose lookup)
    returns [false] at once: it does not read the filter baseframe buffer,
    does not look at the matches, feeds nothing, and logs one warning only
    if the inactive-camera flag is set and the estimator is initialized. *)
Theorem no_active_camera_is_rejected
  (E : Externals) (FLAGS : Flags) (h : OpenvinsLocalizationHandler)
  (r : LocalizationResult) (T_M_I : Transformation) :
  FLAGS_openvinsli_use_6dof_localization FLAGS = false ->
  getPoseAt (T_M_I_buffer_ h) (timestamp_ns r)
  = (kSuccessInterpolated, T_M_I) ->
  (forall cam_idx,
      (cam_idx < length (G_landmarks_per_camera r))%nat ->
      getRight (maplab_to_openvins_cam_indices_mapping_ h) cam_idx = None) ->
  processAsUpdate FLAGS r h
  = Ok (false,
        if FLAGS_openvinsli_use_6dof_localization_for_inactive_cameras FLAGS
           && status_initialized (openvins_interface_ h)
        then set_glog
               (glog h ++ [(WARNING,
                            MsgInactiveCameraUpdateRejected (timestamp_ns r))])
               h
        else h).
Proof.
  intros Hmode Hlookup Hnone.
  assert (Hzero : num_valid_matches h r = O).
  { unfold num_valid_matches. apply num_valid_matches_fold_inactive.
    intros i Hi. apply Hnone. apply in_seq in Hi. lia. }
  unfold processAsUpdate, bind at 1, get at 1.
  rewrite Hlookup, Hmode. cbn [status_eqb negb].
  unfold CHECK at 1, bind at 1. cbn [ocheck lift].
  unfold CHECK at 1, bind at 1. cbn [ocheck lift].
  rewrite Hzero. cbn [Nat.eqb].
  destruct (FLAGS_openvinsli_use_6dof_localization_for_inactive_cameras FLAGS);
    [destruct (status_initialized (openvins_interface_ h))|]; reflexivity.
Qed.

Lemma no_active_camera_is_rejected_witness :
  FLAGS_openvinsli_use_6dof_localization Demo.structure_flags = false
  /\ @getPoseAt Demo.externals
       (T_M_I_buffer_ (Demo.handler_unmapped kLocalized))
       (timestamp_ns Demo.result_150)
     = (kSuccessInterpolated, Demo.pose_150)
  /\ @processAsUpdate Demo.externals Demo.structure_flags Demo.result_150
       (Demo.handler_unmapped kLocalized)
     = Ok (false, Demo.handler_unmapped kLocalized).
Proof.
  split; [reflexivity|]. split; [reflexivity|].
  apply (no_active_camera_is_rejected Demo.externals Demo.structure_flags
           (Demo.handler_unmapped kLocalized) Demo.result_150 Demo.pose_150
           eq_refl eq_refl).
  intros cam_idx _. reflexivity.
Defined.

(** ** The localization state only advances *)

Ltac respects_step_with Hrefl Htrans tac :=
  first
    [ apply (respects_ret _ Hrefl)
    | apply (respects_get _ Hrefl)
    | apply (respects_lift _ Hrefl)
    | tac
    | apply (respects_LOG_IF _ Hrefl); tac
    | apply (respects_bind _ Htrans); [|intros ?]
    | match goal with
      | |- respects _ (match ?x with _ => _ end) => destruct x eqn:?
      | |- respects _ (if ?x then _ else _) => destruct x eqn:?
      | |- respects _ (let '(_, _) := ?x in _) => destruct x eqn:?
      end ].

Lemma state_advances_keep
  (f : OpenvinsLocalizationHandler -> OpenvinsLocalizationHandler) :
  (forall h, localization_state_ (f h) = localization_state_ h) ->
  respects state_advances (modify f).
Proof.
  intros Hf. apply respects_modify. intros h. left. apply Hf.
Qed.

Lemma state_advances_random_device_draw :
  respects state_advances random_device_draw.
Proof. intros h a h' Hrun. injection Hrun as _ <-. now left. Qed.

Ltac state_step :=
  respects_step_with state_advances_refl state_advances_trans
    ltac:(first [ apply state_advances_random_device_draw
                | apply state_advances_keep; reflexivity ]).

Lemma state_advances_initializeBaseframe
  (E : Externals) (K : HandlerConstants) (FLAGS : Flags)
  (r : LocalizationResult) :
  respects state_advances (initializeBaseframe K FLAGS r).
Proof. unfold initializeBaseframe, LOG. repeat state_step. Qed.

Lemma state_advances_processAsUpdate
  (E : Externals) (FLAGS : Flags) (r : LocalizationResult) :
  respects state_advances (processAsUpdate FLAGS r).
Proof. unfold processAsUpdate, CHECK, LOG, feed. repeat state_step. Qed.

Lemma state_advances_processLocalizationResultInternal
  (E : Externals) (K : HandlerConstants) (FLAGS : Flags)
  (r : LocalizationResult) :
  respects state_advances (processLocalizationResultInternal K FLAGS r).
Proof.
  unfold processLocalizationResultInternal.
  apply (respects_bind _ state_advances_trans);
    [apply (respects_get _ state_advances_refl) | intros h].
  assert (Hinit :
            respects state_advances
              (bind (initializeBaseframe K FLAGS r)
                    (fun success : bool =>
                       if success
                       then bind (LOG INFO MsgReinitializedBaseframe)
                                 (fun _ =>
                                    modify (set_localization_state kLocalized))
                       else ret tt))).
  { apply (respects_bind _ state_advances_trans);
      [apply state_advances_initializeBaseframe | intros success].
    destruct success; [|apply (respects_ret _ state_advances_refl)].
    apply (respects_bind _ state_advances_trans);
      [apply state_advances_keep; reflexivity | intros _].
    apply respects_modify. intros h0. now right. }
  destruct (localization_state_ h).
  - exact Hinit.
  - exact Hinit.
  - apply (respects_bind _ state_advances_trans);
      [apply state_advances_processAsUpdate | intros b].
    apply (respects_ret _ state_advances_refl).
  - apply (respects_lift _ state_advances_refl).
Qed.

Lemma state_advances_drain
  (E : Externals) (K : HandlerConstants) (FLAGS : Flags)
  (newest : Z) (rounds : nat) :
  respects state_advances (drain_localization_buffer K FLAGS rounds newest).
Proof.
  induction rounds as [|rounds IH]; cbn [drain_localization_buffer].
  - apply (respects_ret _ state_advances_refl).
  - apply (respects_bind _ state_advances_trans);
      [apply (respects_get _ state_advances_refl) | intros h].
    destruct (localization_buffer_ h) as [|r rest];
      [apply (respects_ret _ state_advances_refl)|].
    destruct (newest <? timestamp_ns r)%Z;
      [apply (respects_ret _ state_advances_refl)|].
    apply (respects_bind _ state_advances_trans);
      [apply state_advances_keep; reflexivity | intros _].
    apply (respects_bind _ state_advances_trans);
      [apply state_advances_processLocalizationResultInternal | intros _].
    exact IH.
Qed.

Lemma state_advances_run_call
  (E : Externals) (K : HandlerConstants) (FLAGS : Flags) (c : HandlerCall) :
  respects state_advances (run_call K FLAGS c).
Proof.
  destruct c as [r | | t T]; simpl.
  - unfold processLocalizationResult, feed. repeat state_step.
  - unfold dealWithBufferedLocalizations.
    apply (respects_bind _ state_advances_trans);
      [apply (respects_get _ state_advances_refl) | intros h].
    destruct (getNewestTimestampOfAvailablePose (T_M_I_buffer_ h));
      [apply state_advances_drain
      | apply (respects_ret _ state_advances_refl)].
  - apply state_advances_keep. reflexivity.
Qed.

(** X8: no sequence of calls moves a handler out of [kLocalized], and any
    state change it makes is a move into [kLocalized]: the warnings that
    announce a reset of the localization reset nothing. *)
Theorem localized_is_never_left
  (E : Externals) (K : HandlerConstants) (FLAGS : Flags)
  (cs : list HandlerCall) (h h' : OpenvinsLocalizationHandler) :
  run_calls K FLAGS cs h = Ok (tt, h') ->
  (localization_state_ h' = localization_state_ h
   \/ localization_state_ h' = kLocalized)
  /\ (localization_state_ h = kLocalized ->
      localization_state_ h' = kLocalized).
Proof.
  intros Hrun.
  assert (Hadv : state_advances h h').
  { revert h h' Hrun. induction cs as [|c cs IH]; intros h h' Hrun.
    - injection Hrun as <-. apply state_advances_refl.
    - cbn [run_calls] in Hrun. unfold bind in Hrun.
      destruct (run_call K FLAGS c h) as [|[u h1]] eqn:Hcall;
        [discriminate|].
      apply state_advances_trans with h1.
      + exact (state_advances_run_call E K FLAGS c h u h1 Hcall).
      + now apply IH. }
  split; [exact Hadv|].
  intros Hloc. destruct Hadv as [Hsame | Hnew]; congruence.
Qed.

Lemma localized_is_never_left_witness :
  @run_calls Demo.externals Demo.constants Demo.structure_flags
    [DrainBuffered] (Demo.handler kLocalized [Demo.result_150_empty])
  = Ok (tt, Demo.handler kLocalized [])
  /\ localization_state_ (Demo.handler kLocalized []) = kLocalized.
Proof.
  split; [reflexivity|].
  apply (localized_is_never_left Demo.externals Demo.constants
           Demo.structure_flags [DrainBuffered]
           (Demo.handler kLocalized [Demo.result_150_empty])
           (Demo.handler kLocalized []) eq_refl).
  reflexivity.
Defined.

(** ** Baseframe initialization: failure and success *)

Lemma initialization_without_pose_aux
  (E : Externals) (K : HandlerConstants) (FLAGS : Flags)
  (h : OpenvinsLocalizationHandler) (r : LocalizationResult) :
  fst (getPoseAt (T_M_I_buffer_ h) (timestamp_ns r))
  <> kSuccessInterpolated ->
  initializeBaseframe K FLAGS r h
  = Ok (false,
        set_glog (glog h ++ [(WARNING, MsgCouldNotGetPoseForBaseframeInit)])
                 h).
Proof.
  intros Hfail. unfold initializeBaseframe, bind at 1, get at 1.
  destruct (getPoseAt (T_M_I_buffer_ h) (timestamp_ns r)) as [status T_M_I].
  destruct status; [now contradiction Hfail | reflexivity | reflexivity].
Qed.

Lemma processLocalizationResultInternal_without_pose
  (E : Externals) (K : HandlerConstants) (FLAGS : Flags)
  (h : OpenvinsLocalizationHandler) (r : LocalizationResult) :
  localization_state_ h = kUninitialized
  \/ localization_state_ h = kNotLocalized ->
  fst (getPoseAt (T_M_I_buffer_ h) (timestamp_ns r))
  <> kSuccessInterpolated ->
  processLocalizationResultInternal K FLAGS r h
  = Ok (tt,
        set_glog (glog h ++ [(WARNING, MsgCouldNotGetPoseForBaseframeInit)])
                 h).
Proof.
  intros Hstate Hfail.
  unfold processLocalizationResultInternal, bind at 1, get at 1.
  destruct Hstate as [-> | ->]; unfold bind at 1;
    rewrite (initialization_without_pose_aux E K FLAGS h r Hfail);
    reflexivity.
Qed.

Lemma drain_localization_buffer_without_pose
  (E : Externals) (K : HandlerConstants) (FLAGS : Flags)
  (newest : Z) (b : PoseLookupBuffer) (s : LocalizationState)
  (pending : list LocalizationResult) :
  s = kUninitialized \/ s = kNotLocalized ->
  Forall (fun r => fst (getPoseAt b (timestamp_ns r))
                   <> kSuccessInterpolated) (released newest pending) ->
  forall (rounds : nat) (h : OpenvinsLocalizationHandler),
    localization_buffer_ h = pending ->
    T_M_I_buffer_ h = b ->
    localization_state_ h = s ->
    (length pending < rounds)%nat ->
    exists h',
      drain_localization_buffer K FLAGS rounds newest h = Ok (tt, h')
      /\ glog h'
         = glog h
           ++ repeat (WARNING, MsgCouldNotGetPoseForBaseframeInit)
                     (length (released newest pending))
      /\ localization_buffer_ h' = held newest pending
      /\ localization_state_ h' = s
      /\ T_G_M_loc_buffer_ h' = T_G_M_loc_buffer_ h
      /\ openvins_interface_ h' = openvins_interface_ h
      /\ random_device h' = random_device h.
Proof.
  intros Hs.
  induction pending as [|r pending IH];
    intros Hall rounds h Hbuf Hpose Hstate Hlen;
    (destruct rounds as [|rounds]; [simpl in Hlen; lia|]);
    rewrite drain_localization_buffer_S, Hbuf.
  - exists h. simpl. rewrite app_nil_r. repeat split; assumption.
  - simpl in Hall |- *. destruct (newest <? timestamp_ns r)%Z.
    + exists h. simpl. rewrite app_nil_r. repeat split; assumption.
    + inversion Hall as [|r0 l0 Hr Hrest]; subst.
      rewrite (processLocalizationResultInternal_without_pose E K FLAGS _ r)
        by assumption.
      assert (Hlen1 : (length pending < rounds)%nat) by (simpl in Hlen; lia).
      destruct (IH Hrest rounds
                  (set_glog
                     (glog (set_localization_buffer pending h)
                      ++ [(WARNING, MsgCouldNotGetPoseForBaseframeInit)])
                     (set_localization_buffer pending h))
                  eq_refl eq_refl eq_refl Hlen1)
        as [h' [Hrun [Hlog [Hheld [Hst [Hcand [Hfed Hdev]]]]]]].
      exists h'. split; [exact Hrun|].
      split; [|repeat split; assumption].
      rewrite Hlog. simpl. rewrite <- app_assoc. reflexivity.
Qed.

(** X9: localization results for which no pose can be looked up never
    advance the baseframe initialization.  On a handler that is not yet
    localized, a drain whose front results all fail the pose lookup takes
    them from the queue, logs one warning for each, and leaves the state,
    the candidate queue, the random device and the estimator as they
    were. *)
Theorem results_without_pose_only_warn
  (E : Externals) (K : HandlerConstants) (FLAGS : Flags)
  (h : OpenvinsLocalizationHandler) (newest : Z) :
  localization_state_ h = kUninitialized
  \/ localization_state_ h = kNotLocalized ->
  getNewestTimestampOfAvailablePose (T_M_I_buffer_ h) = Some newest ->
  let taken := released newest (localization_buffer_ h) in
  Forall (fun r => fst (getPoseAt (T_M_I_buffer_ h) (timestamp_ns r))
                   <> kSuccessInterpolated) taken ->
  exists h',
    dealWithBufferedLocalizations K FLAGS h = Ok (tt, h')
    /\ glog h'
       = glog h
         ++ repeat (WARNING, MsgCouldNotGetPoseForBaseframeInit)
                   (length taken)
    /\ localization_buffer_ h' = held newest (localization_buffer_ h)
    /\ localization_state_ h' = localization_state_ h
    /\ T_G_M_loc_buffer_ h' = T_G_M_loc_buffer_ h
    /\ openvins_interface_ h' = openvins_interface_ h
    /\ random_device h' = random_device h.
Proof.
  intros Hstate Hnewest taken Hall.
  unfold dealWithBufferedLocalizations, bind at 1, get at 1.
  rewrite Hnewest.
  apply (drain_localization_buffer_without_pose E K FLAGS newest
           (T_M_I_buffer_ h) (localization_state_ h)
           (localization_buffer_ h) Hstate Hall
           (S (length (localization_buffer_ h))) h);
    try reflexivity; lia.
Qed.

Lemma results_without_pose_only_warn_witness :
  let h := Demo.handler kNotLocalized [Demo.result_50; Demo.result_300] in
  (localization_state_ h = kUninitialized
   \/ localization_state_ h = kNotLocalized)
  /\ getNewestTimestampOfAvailablePose (T_M_I_buffer_ h) = Some 200%Z
  /\ Forall (fun r => fst (@getPoseAt Demo.externals (T_M_I_buffer_ h)
                             (timestamp_ns r))
                      <> kSuccessInterpolated)
            (released 200 (localization_buffer_ h))
  /\ exists h',
       @dealWithBufferedLocalizations Demo.externals Demo.constants
         Demo.structure_flags h = Ok (tt, h')
       /\ glog h' = [(WARNING, MsgCouldNotGetPoseForBaseframeInit)]
       /\ localization_buffer_ h' = [Demo.result_300].
Proof.
  intros h.
  assert (Hstate : localization_state_ h = kUninitialized
                   \/ localization_state_ h = kNotLocalized)
    by (right; reflexivity).
  assert (Hall : Forall (fun r => fst (@getPoseAt Demo.externals
                                         (T_M_I_buffer_ h) (timestamp_ns r))
                                  <> kSuccessInterpolated)
                        (released 200 (localization_buffer_ h)))
    by (simpl; constructor; [simpl; discriminate | constructor]).
  split; [exact Hstate|]. split; [reflexivity|]. split; [exact Hall|].
  destruct (results_without_pose_only_warn Demo.externals Demo.constants
              Demo.structure_flags h 200 Hstate eq_refl Hall)
    as [h' [Hrun [Hlog [Hheld _]]]].
  exists h'. repeat split; assumption.
Defined.

(** X10: [initializeBaseframe] returns [true] only after a successful
    pose lookup, with at least the configured number of candidates in the
    queue and an inlier count that reaches [kNumInliersThreshold]; the
    handler then differs from the one before only by the stored candidate
    and the consumed seed: the transformation the RANSAC estimated is kept
    nowhere. *)
Theorem initialization_success_requires
  (E : Externals) (K : HandlerConstants) (FLAGS : Flags)
  (h h' : OpenvinsLocalizationHandler) (r : LocalizationResult) :
  initializeBaseframe K FLAGS r h = Ok (true, h') ->
  exists T_M_I,
    getPoseAt (T_M_I_buffer_ h) (timestamp_ns r)
    = (kSuccessInterpolated, T_M_I)
    /\ (FLAGS_openvinsli_min_num_baseframe_estimates_before_init FLAGS
        <= length (candidates_after h r T_M_I))%nat
    /\ (kNumInliersThreshold K FLAGS
        <= snd (transformationRansac (candidates_after h r T_M_I)
                  (kInitializationMaxNumRansacIterations K)
                  (kInitializationRansacOrientationErrorThresholdRadians K)
                  (kInitializationRansacPositionErrorThresholdMeters K)
                  (drawn_seed h)))%Z
    /\ h' = set_random_device (fun n => random_device h (S n))
              (set_T_G_M_loc_buffer
                 (fsq_insert (T_mul (T_G_B r) (T_inverse T_M_I))
                             (T_G_M_loc_buffer_ h)) h).
Proof.
  intros Hrun.
  destruct (getPoseAt (T_M_I_buffer_ h) (timestamp_ns r))
    as [status T_M_I] eqn:Hlookup.
  destruct status.
  - exists T_M_I. split; [reflexivity|].
    rewrite (initializeBaseframe_ready E K FLAGS h r T_M_I Hlookup) in Hrun.
    cbv zeta in Hrun.
    destruct (Nat.ltb_spec (length (candidates_after h r T_M_I))
                (FLAGS_openvinsli_min_num_baseframe_estimates_before_init
                   FLAGS)) as [_ | Hfull]; [discriminate|].
    destruct (Z.ltb_spec
                (snd (transformationRansac (candidates_after h r T_M_I)
                        (kInitializationMaxNumRansacIterations K)
                        (kInitializationRansacOrientationErrorThresholdRadians
                           K)
                        (kInitializationRansacPositionErrorThresholdMeters K)
                        (drawn_seed h)))
                (kNumInliersThreshold K FLAGS)) as [_ | Henough];
      [discriminate|].
    injection Hrun as <-. repeat split; assumption.
  - rewrite initialization_without_pose_aux in Hrun
      by (rewrite Hlookup; discriminate).
    discriminate.
  - rewrite initialization_without_pose_aux in Hrun
      by (rewrite Hlookup; discriminate).
    discriminate.
Qed.

Lemma initialization_success_requires_witness :
  @initializeBaseframe Demo.externals Demo.constants Demo.structure_flags
    Demo.result_100 (Demo.handler_with kUninitialized [] [T_identity])
  = Ok (true,
        set_random_device
          (fun n => random_device
                      (Demo.handler_with kUninitialized [] [T_identity]) (S n))
          (set_T_G_M_loc_buffer
             (fsq_insert (T_mul (T_G_B Demo.result_100)
                                (T_inverse T_identity))
                         (T_G_M_loc_buffer_
                            (Demo.handler_with kUninitialized []
                                               [T_identity])))
             (Demo.handler_with kUninitialized [] [T_identity])))
  /\ exists T_M_I,
       @getPoseAt Demo.externals
         (T_M_I_buffer_ (Demo.handler_with kUninitialized [] [T_identity]))
         (timestamp_ns Demo.result_100)
       = (kSuccessInterpolated, T_M_I)
       /\ (FLAGS_openvinsli_min_num_baseframe_estimates_before_init
             Demo.structure_flags
           <= length (candidates_after
                        (Demo.handler_with kUninitialized [] [T_identity])
                        Demo.result_100 T_M_I))%nat.
Proof.
  split; [exact demo_initialization_succeeds|].
  destruct (initialization_success_requires Demo.externals Demo.constants
              Demo.structure_flags _ _ Demo.result_100
              demo_initialization_succeeds)
    as [T_M_I [Hlookup [Hfull _]]].
  exists T_M_I. split; assumption.
Defined.

(** X11: [initializeBaseframe] touches the candidate queue, the random
    device and the log, and nothing else: in particular it feeds nothing
    to the estimator and leaves the localization state, the pose buffer and
    the pending queue as they were, whether it succeeds or not. *)
Theorem initialization_leaves_rest_alone
  (E : Externals) (K : HandlerConstants) (FLAGS : Flags)
  (h h' : OpenvinsLocalizationHandler) (r : LocalizationResult)
  (success : bool) :
  initializeBaseframe K FLAGS r h = Ok (success, h') ->
  same_outside_initialization h h'.
Proof.
  revert h success h'.
  change (respects same_outside_initialization (initializeBaseframe K FLAGS r)).
  unfold initializeBaseframe, LOG.
  repeat respects_step_with same_outside_initialization_refl
    same_outside_initialization_trans
    ltac:(first
            [ apply respects_modify; intros ?;
              unfold same_outside_initialization; repeat split
            | intros ? ? ? Hdraw; injection Hdraw as _ <-;
              unfold same_outside_initialization; repeat split ]).
Qed.

Lemma initialization_leaves_rest_alone_witness :
  @initializeBaseframe Demo.externals Demo.constants Demo.structure_flags
    Demo.result_100 (Demo.handler_with kUninitialized [] [T_identity])
  = Ok (true,
        set_random_device
          (fun n => random_device
                      (Demo.handler_with kUninitialized [] [T_identity]) (S n))
          (set_T_G_M_loc_buffer
             (fsq_insert (T_mul (T_G_B Demo.result_100)
                                (T_inverse T_identity))
                         (T_G_M_loc_buffer_
                            (Demo.handler_with kUninitialized []
                                               [T_identity])))
             (Demo.handler_with kUninitialized [] [T_identity])))
  /\ same_outside_initialization
       (Demo.handler_with kUninitialized [] [T_identity])
       (set_random_device
          (fun n => random_device
                      (Demo.handler_with kUninitialized [] [T_identity]) (S n))
          (set_T_G_M_loc_buffer
             (fsq_insert (T_mul (T_G_B Demo.result_100)
                                (T_inverse T_identity))
                         (T_G_M_loc_buffer_
                            (Demo.handler_with kUninitialized []
                                               [T_identity])))
             (Demo.handler_with kUninitialized [] [T_identity]))).
Proof.
  split; [exact demo_initialization_succeeds|].
  exact (initialization_leaves_rest_alone Demo.externals Demo.constants
           Demo.structure_flags _ _ Demo.result_100 true
           demo_initialization_succeeds).
Defined.

(** ** Draining the pending queue *)

Lemma released_held (newest : Z) (pending : list LocalizationResult) :
  released newest pending ++ held newest pending = pending
  /\ Forall (fun r => (timestamp_ns r <= newest)%Z) (released newest pending)
  /\ match held newest pending with
     | r :: _ => (newest < timestamp_ns r)%Z
     | [] => True
     end.
Proof.
  induction pending as [|r pending [IHapp [IHall IHhead]]]; simpl.
  - repeat split. constructor.
  - destruct (Z.ltb_spec newest (timestamp_ns r)) as [Hnewer | Hready].
    + repeat split; [constructor | assumption].
    + simpl. rewrite IHapp. repeat split; [|assumption].
      constructor; assumption.
Qed.

Lemma drain_localization_buffer_held
  (E : Externals) (K : HandlerConstants) (FLAGS : Flags)
  (newest : Z) (rounds : nat) (h h' : OpenvinsLocalizationHandler) :
  (length (localization_buffer_ h) < rounds)%nat ->
  drain_localization_buffer K FLAGS rounds newest h = Ok (tt, h') ->
  localization_buffer_ h' = held newest (localization_buffer_ h).
Proof.
  revert h. induction rounds as [|rounds IH]; intros h Hlen Hrun; [lia|].
  rewrite drain_localization_buffer_S in Hrun.
  destruct (localization_buffer_ h) as [|r rest] eqn:Hbuf.
  - injection Hrun as <-. now rewrite Hbuf.
  - simpl. destruct (newest <? timestamp_ns r)%Z.
    + injection Hrun as <-. exact Hbuf.
    + destruct (processLocalizationResultInternal K FLAGS r
                  (set_localization_buffer rest h)) as [|[u h1]] eqn:Hstep;
        [discriminate|].
      pose proof (keeps_processLocalizationResultInternal E K FLAGS r
                    _ _ _ Hstep) as Hkeep.
      simpl in Hkeep, Hlen.
      assert (Hlen1 : (length (localization_buffer_ h1) < rounds)%nat)
        by (rewrite Hkeep; lia).
      rewrite (IH h1 Hlen1 Hrun). now rewrite Hkeep.
Qed.

(** X12: a drain of the pending queue never reorders and never skips:
    when [dealWithBufferedLocalizations] returns, the queue it leaves is a
    suffix of the queue it found, every result it took from the front is
    no newer than the newest buffered pose, and the result now at the
    front, if any, is newer.  Without any buffered pose the queue is left
    as it was. *)
Theorem drain_takes_a_prefix
  (E : Externals) (K : HandlerConstants) (FLAGS : Flags)
  (h h' : OpenvinsLocalizationHandler) :
  dealWithBufferedLocalizations K FLAGS h = Ok (tt, h') ->
  match getNewestTimestampOfAvailablePose (T_M_I_buffer_ h) with
  | None => localization_buffer_ h' = localization_buffer_ h
  | Some newest =>
      exists taken,
        localization_buffer_ h = taken ++ localization_buffer_ h'
        /\ Forall (fun r => (timestamp_ns r <= newest)%Z) taken
        /\ match localization_buffer_ h' with
           | r :: _ => (newest < timestamp_ns r)%Z
           | [] => True
           end
  end.
Proof.
  unfold dealWithBufferedLocalizations, bind at 1, get at 1.
  destruct (getNewestTimestampOfAvailablePose (T_M_I_buffer_ h))
    as [newest|].
  - intros Hrun.
    apply drain_localization_buffer_held in Hrun; [|lia].
    destruct (released_held newest (localization_buffer_ h))
      as [Happ [Hall Hhead]].
    exists (released newest (localization_buffer_ h)).
    rewrite Hrun. repeat split; [now symmetry | assumption | assumption].
  - intros Hrun. injection Hrun as <-. reflexivity.
Qed.

Lemma drain_takes_a_prefix_witness :
  @dealWithBufferedLocalizations Demo.externals Demo.constants
    Demo.structure_flags
    (Demo.handler kLocalized [Demo.result_150_empty; Demo.result_300])
  = Ok (tt, Demo.handler kLocalized [Demo.result_300])
  /\ exists taken,
       [Demo.result_150_empty; Demo.result_300]
       = taken ++ [Demo.result_300]
       /\ Forall (fun r => (timestamp_ns r <= 200)%Z) taken.
Proof.
  split; [reflexivity|].
  destruct (drain_takes_a_prefix Demo.externals Demo.constants
              Demo.structure_flags
              (Demo.handler kLocalized [Demo.result_150_empty;
                                        Demo.result_300])
              (Demo.handler kLocalized [Demo.result_300]) eq_refl)
    as [taken [Happ [Hall _]]].
  exists taken. split; assumption.
Defined.

Lemma processLocalizationResultInternal_6dof
  (E : Externals) (K : HandlerConstants) (FLAGS : Flags)
  (h : OpenvinsLocalizationHandler) (r : LocalizationResult) :
  FLAGS_openvinsli_use_6dof_localization FLAGS = true ->
  localization_state_ h = kLocalized ->
  processLocalizationResultInternal K FLAGS r h
  = match fst (getPoseAt (T_M_I_buffer_ h) (timestamp_ns r)) with
    | kSuccessInterpolated =>
        Ok (tt,
            set_openvins_interface
              (feed_measurement_localization
                 (makeOpenvinsLocalizationData h r) (openvins_interface_ h))
              h)
    | _ => Fatal
    end.
Proof.
  intros Hmode Hstate.
  unfold processLocalizationResultInternal, bind at 1, get at 1.
  rewrite Hstate. unfold bind at 1, processAsUpdate, bind at 1, get at 1.
  destruct (getPoseAt (T_M_I_buffer_ h) (timestamp_ns r)) as [lookup T_M_I].
  destruct lookup; simpl; try reflexivity.
  rewrite Hmode. reflexivity.
Qed.

Lemma drain_localization_buffer_6dof
  (E : Externals) (K : HandlerConstants) (FLAGS : Flags)
  (newest : Z) (b : PoseLookupBuffer) (translator : Z -> R)
  (pending : list LocalizationResult) :
  FLAGS_openvinsli_use_6dof_localization FLAGS = true ->
  forall (rounds : nat) (h : OpenvinsLocalizationHandler),
    localization_buffer_ h = pending ->
    T_M_I_buffer_ h = b ->
    time_translator_ h = translator ->
    localization_state_ h = kLocalized ->
    (length pending < rounds)%nat ->
    (Forall (fun r => fst (getPoseAt b (timestamp_ns r))
                      = kSuccessInterpolated) (released newest pending) ->
     exists h',
       drain_localization_buffer K FLAGS rounds newest h = Ok (tt, h')
       /\ fed_localizations (openvins_interface_ h')
          = fed_localizations (openvins_interface_ h)
              ++ map (makeOpenvinsLocalizationData h)
                     (released newest pending)
       /\ localization_buffer_ h' = held newest pending
       /\ glog h' = glog h
       /\ localization_state_ h' = kLocalized)
    /\ (Exists (fun r => fst (getPoseAt b (timestamp_ns r))
                         <> kSuccessInterpolated) (released newest pending) ->
        drain_localization_buffer K FLAGS rounds newest h = Fatal).
Proof.
  intros Hmode.
  induction pending as [|r pending IH];
    intros rounds h Hbuf Hpose Htr Hstate Hlen;
    (destruct rounds as [|rounds]; [simpl in Hlen; lia|]);
    rewrite drain_localization_buffer_S, Hbuf.
  - split.
    + intros _. exists h. simpl. rewrite app_nil_r. repeat split; assumption.
    + intros Hex. inversion Hex.
  - simpl. destruct (newest <? timestamp_ns r)%Z.
    + split.
      * intros _. exists h. simpl. rewrite app_nil_r.
        repeat split; assumption.
      * intros Hex. inversion Hex.
    + rewrite (processLocalizationResultInternal_6dof E K FLAGS _ r Hmode)
        by exact Hstate.
      change (T_M_I_buffer_ (set_localization_buffer pending h))
        with (T_M_I_buffer_ h).
      rewrite Hpose.
      set (h1 := set_openvins_interface
                   (feed_measurement_localization
                      (makeOpenvinsLocalizationData
                         (set_localization_buffer pending h) r)
                      (openvins_interface_
                         (set_localization_buffer pending h)))
                   (set_localization_buffer pending h)).
      assert (Hlen1 : (length pending < rounds)%nat) by (simpl in Hlen; lia).
      destruct (IH rounds h1 eq_refl Hpose Htr Hstate Hlen1) as [IHok IHfail].
      split.
      * intros Hall. inversion Hall as [|r0 l0 Hr Hrest]; subst.
        rewrite Hr.
        destruct (IHok Hrest) as [h' [Hrun [Hfed [Hheld [Hlog Hst]]]]].
        exists h'. split; [exact Hrun|].
        split; [|repeat split; assumption].
        rewrite Hfed. simpl. rewrite <- app_assoc. reflexivity.
      * intros Hex. inversion Hex as [r0 l0 Hr | r0 l0 Hrest]; subst.
        -- destruct (fst (getPoseAt (T_M_I_buffer_ h) (timestamp_ns r)));
             [now contradiction Hr | reflexivity | reflexivity].
        -- destruct (fst (getPoseAt (T_M_I_buffer_ h) (timestamp_ns r)));
             [now apply IHfail | reflexivity | reflexivity].
Qed.

(** X13: in 6-DoF mode on a localized handler, a drain feeds the results
    it takes from the front of the pending queue to the estimator, each
    once and in queue order, logs nothing and holds the rest back --
    provided the pose lookup succeeds for each of them; if the lookup fails
    for one of them the drain aborts the process. *)
Theorem six_dof_drain_feeds_in_order
  (E : Externals) (K : HandlerConstants) (FLAGS : Flags)
  (h : OpenvinsLocalizationHandler) (newest : Z) :
  FLAGS_openvinsli_use_6dof_localization FLAGS = true ->
  localization_state_ h = kLocalized ->
  getNewestTimestampOfAvailablePose (T_M_I_buffer_ h) = Some newest ->
  let taken := released newest (localization_buffer_ h) in
  (Forall (fun r => fst (getPoseAt (T_M_I_buffer_ h) (timestamp_ns r))
                    = kSuccessInterpolated) taken ->
   exists h',
     dealWithBufferedLocalizations K FLAGS h = Ok (tt, h')
     /\ fed_localizations (openvins_interface_ h')
        = fed_localizations (openvins_interface_ h)
            ++ map (makeOpenvinsLocalizationData h) taken
     /\ localization_buffer_ h' = held newest (localization_buffer_ h)
     /\ glog h' = glog h
     /\ localization_state_ h' = kLocalized)
  /\ (Exists (fun r => fst (getPoseAt (T_M_I_buffer_ h) (timestamp_ns r))
                       <> kSuccessInterpolated) taken ->
      dealWithBufferedLocalizations K FLAGS h = Fatal).
Proof.
  intros Hmode Hstate Hnewest taken.
  unfold dealWithBufferedLocalizations, bind at 1 2, get at 1 2.
  rewrite Hnewest.
  apply (drain_localization_buffer_6dof E K FLAGS newest (T_M_I_buffer_ h)
           (time_translator_ h) (localization_buffer_ h) Hmode
           (S (length (localization_buffer_ h))) h);
    try reflexivity; try assumption; lia.
Qed.

Lemma six_dof_drain_feeds_in_order_witness :
  let h := Demo.handler kLocalized [Demo.result_150_empty; Demo.result_300] in
  FLAGS_openvinsli_use_6dof_localization default_flags = true
  /\ localization_state_ h = kLocalized
  /\ getNewestTimestampOfAvailablePose (T_M_I_buffer_ h) = Some 200%Z
  /\ Forall (fun r => fst (@getPoseAt Demo.externals (T_M_I_buffer_ h)
                             (timestamp_ns r))
                      = kSuccessInterpolated)
            (released 200 (localization_buffer_ h))
  /\ exists h',
       @dealWithBufferedLocalizations Demo.externals Demo.constants
         default_flags h = Ok (tt, h')
       /\ fed_localizations (openvins_interface_ h')
          = [makeOpenvinsLocalizationData h Demo.result_150_empty]
       /\ localization_buffer_ h' = [Demo.result_300].
Proof.
  intros h.
  assert (Hall : Forall (fun r => fst (@getPoseAt Demo.externals
                                         (T_M_I_buffer_ h) (timestamp_ns r))
                                  = kSuccessInterpolated)
                        (released 200 (localization_buffer_ h)))
    by (simpl; constructor; [reflexivity | constructor]).
  repeat (split; [first [reflexivity | exact Hall]|]).
  destruct (six_dof_drain_feeds_in_order Demo.externals Demo.constants
              default_flags h 200 eq_refl eq_refl eq_refl) as [Hok _].
  destruct (Hok Hall) as [h' [Hrun [Hfed [Hheld _]]]].
  exists h'. repeat split; assumption.
Defined.

(** ** Gravity disparity: when it aborts, symmetry, equal rotations *)

Lemma gravity_direction_squaredNorm (q : Quaternion) :
  v3_squaredNorm (q_rotate (q_inverse q) UnitZ) = 1 + gravity_norm_defect q.
Proof.
  unfold v3_squaredNorm, v3_dot, q_rotate, q_inverse, q_imaginary, UnitZ,
    v3_add, v3_scale, v3_cross, gravity_norm_defect, q_squaredNorm.
  simpl. ring.
Qed.

Lemma CHECK_NEAR_one (x : R) :
  CHECK_NEAR (1 + x) 1 1e-8 = true <-> Rabs x <= 1e-8.
Proof.
  unfold CHECK_NEAR. rewrite andb_true_iff, !Rleb_true.
  unfold Rabs. destruct (Rcase_abs x); lra.
Qed.

Lemma CHECK_NEAR_one_false (x : R) :
  CHECK_NEAR (1 + x) 1 1e-8 = false <-> 1e-8 < Rabs x.
Proof.
  split.
  - intros Hfalse. apply Rnot_le_lt. intros Hle.
    apply CHECK_NEAR_one in Hle. congruence.
  - intros Hlt. destruct (CHECK_NEAR (1 + x) 1 1e-8) eqn:Hcheck;
      [|reflexivity].
    apply CHECK_NEAR_one in Hcheck. lra.
Qed.

(** X14: [getLocalizationResultGravityDisparityAngleDeg] aborts exactly
    when one of the two rotation quaternions is so far from unit norm that
    its rotated z axis misses unit squared length by more than 1e-8, the
    miss being [4 (x^2 + y^2) (|q|^2 - 1)]; with unit quaternions it never
    aborts. *)
Theorem gravity_disparity_aborts_iff
  (E : Externals) (localization_result : LocalizationResult)
  (T_G_I_vio : Transformation) :
  let q_vio := getRotation T_G_I_vio in
  let q_loc := getRotation (T_G_B localization_result) in
  (getLocalizationResultGravityDisparityAngleDeg
     localization_result T_G_I_vio = Fatal
   <-> 1e-8 < Rabs (gravity_norm_defect q_vio)
       \/ 1e-8 < Rabs (gravity_norm_defect q_loc))
  /\ (q_squaredNorm q_vio = 1 -> q_squaredNorm q_loc = 1 ->
      getLocalizationResultGravityDisparityAngleDeg
        localization_result T_G_I_vio <> Fatal).
Proof.
  intros q_vio q_loc.
  assert (Hiff :
            getLocalizationResultGravityDisparityAngleDeg
              localization_result T_G_I_vio = Fatal
            <-> 1e-8 < Rabs (gravity_norm_defect q_vio)
                \/ 1e-8 < Rabs (gravity_norm_defect q_loc)).
  { unfold getLocalizationResultGravityDisparityAngleDeg.
    fold q_vio q_loc. rewrite !gravity_direction_squaredNorm.
    rewrite <- !CHECK_NEAR_one_false.
    destruct (CHECK_NEAR (1 + gravity_norm_defect q_vio) 1 1e-8);
      destruct (CHECK_NEAR (1 + gravity_norm_defect q_loc) 1 1e-8);
      simpl; split; intros Hcase;
      try discriminate; try reflexivity; try tauto;
      destruct Hcase; discriminate. }
  split; [exact Hiff|].
  intros Hvio Hloc Habort. apply Hiff in Habort.
  unfold gravity_norm_defect in Habort. rewrite Hvio, Hloc in Habort.
  replace (4 * (qx q_vio * qx q_vio + qy q_vio * qy q_vio) * (1 - 1))
    with 0 in Habort by ring.
  replace (4 * (qx q_loc * qx q_loc + qy q_loc * qy q_loc) * (1 - 1))
    with 0 in Habort by ring.
  rewrite Rabs_R0 in Habort. lra.
Qed.

Lemma gravity_disparity_aborts_iff_witness :
  q_squaredNorm (getRotation T_identity) = 1
  /\ q_squaredNorm (getRotation (T_G_B Demo.result_150)) = 1
  /\ @getLocalizationResultGravityDisparityAngleDeg Demo.externals
       Demo.result_150 T_identity <> Fatal.
Proof.
  assert (Hunit : q_squaredNorm (getRotation T_identity) = 1)
    by (unfold q_squaredNorm; simpl; lra).
  split; [exact Hunit|]. split; [exact Hunit|].
  destruct (gravity_disparity_aborts_iff Demo.externals Demo.result_150
              T_identity) as [_ Hsafe].
  exact (Hsafe Hunit Hunit).
Defined.

Lemma v3_dot_comm (a b : Vector3) : v3_dot a b = v3_dot b a.
Proof. unfold v3_dot. ring. Qed.

(** X15: the disparity is symmetric: a localization result with pose [A]
    compared with the odometry pose [B] gives the same answer (the same
    angle, or an abort in both cases) as a result with pose [B] compared
    with [A]. *)
Theorem gravity_disparity_symmetric
  (E : Externals) (A B : Transformation) (t t' : Z)
  (G G' : list (list Vector3)) (Kp Kp' : list (list Vector2)) :
  getLocalizationResultGravityDisparityAngleDeg
    (mkLocalizationResult t A G Kp) B
  = getLocalizationResultGravityDisparityAngleDeg
      (mkLocalizationResult t' B G' Kp') A.
Proof.
  unfold getLocalizationResultGravityDisparityAngleDeg. cbn [T_G_B].
  rewrite (v3_dot_comm (q_rotate (q_inverse (getRotation B)) UnitZ)).
  destruct (CHECK_NEAR
              (v3_squaredNorm (q_rotate (q_inverse (getRotation B)) UnitZ))
              1 1e-8);
    destruct (CHECK_NEAR
                (v3_squaredNorm (q_rotate (q_inverse (getRotation A)) UnitZ))
                1 1e-8);
    reflexivity.
Qed.

(** ** The measurement handed to OpenVINS *)

(** X17: the measurement built for OpenVINS carries the translated
    timestamp, the position of [T_G_B], its rotation in the order x, y, z,
    w, and always the same 6x6 covariance: diagonal, with the product
    0.04 * 0.04 for the three orientation entries and the product
    0.8 * 0.8 for the three position entries, whatever the localization
    result. *)
Theorem localization_data_contents
  (h : OpenvinsLocalizationHandler) (r : LocalizationResult) (i j : nat) :
  (i < 6)%nat -> (j < 6)%nat ->
  let d := makeOpenvinsLocalizationData h r in
  timestamp d = time_translator_ h (timestamp_ns r)
  /\ pm d = getPosition (T_G_B r)
  /\ qm d = (qx (getRotation (T_G_B r)), qy (getRotation (T_G_B r)),
             qz (getRotation (T_G_B r)), qw (getRotation (T_G_B r)))
  /\ qp_cov d i j
     = (if Nat.eqb i j
        then if (i <? 3)%nat then 0.04 * 0.04 else 0.8 * 0.8
        else 0).
Proof.
  intros Hi Hj d. subst d.
  repeat (split; [reflexivity|]).
  unfold makeOpenvinsLocalizationData, set_block33, Matrix_scale,
    Matrix_Identity. cbn [qp_cov].
  destruct i as [|[|[|[|[|[|i]]]]]]; try lia;
    destruct j as [|[|[|[|[|[|j]]]]]]; try lia;
    simpl; lra.
Qed.

Lemma localization_data_contents_witness :
  (4 < 6)%nat /\ (1 < 6)%nat
  /\ qp_cov (makeOpenvinsLocalizationData (Demo.handler kLocalized [])
                                          Demo.result_150) 4%nat 4%nat
     = 0.8 * 0.8
  /\ qp_cov (makeOpenvinsLocalizationData (Demo.handler kLocalized [])
                                          Demo.result_150) 1%nat 1%nat
     = 0.04 * 0.04
  /\ qp_cov (makeOpenvinsLocalizationData (Demo.handler kLocalized [])
                                          Demo.result_150) 4%nat 1%nat
     = 0.
Proof.
  assert (H46 : (4 < 6)%nat) by lia.
  assert (H16 : (1 < 6)%nat) by lia.
  split; [exact H46|]. split; [exact H16|].
  destruct (localization_data_contents (Demo.handler kLocalized [])
              Demo.result_150 4%nat 4%nat H46 H46) as [_ [_ [_ Hposition]]].
  destruct (localization_data_contents (Demo.handler kLocalized [])
              Demo.result_150 1%nat 1%nat H16 H16) as [_ [_ [_ Horientation]]].
  destruct (localization_data_contents (Demo.handler kLocalized [])
              Demo.result_150 4%nat 1%nat H46 H16) as [_ [_ [_ Hoff]]].
  split; [exact Hposition|]. split; [exact Horientation|]. exact Hoff.
Defined.

(** ** Names of the navigation states *)

(** X18: [stateStr] gives the four navigation states IDLE = 0,
    PATH_RECORDING = 1, PATH_PLANNING = 2 and NAVIGATING = 3 four different
    names, none of them the fallback name: a name it returns for an
    enumerator identifies the state, and every value outside 0 .. 3 gets
    the fallback name. *)
Theorem stateStr_identifies_state (a b : Nav2dFlow.NavState) :
  Nav2dFlow.is_enumerator a = true ->
  Nav2dFlow.stateStr a = Nav2dFlow.stateStr b ->
  a = b
  /\ Nav2dFlow.stateStr a <> Nav2dFlow.fallback_name
  /\ (forall c, Nav2dFlow.is_enumerator c = false ->
                Nav2dFlow.stateStr c = Nav2dFlow.fallback_name).
Proof.
  intros Henum Hname.
  assert (Hfallback : forall c, Nav2dFlow.is_enumerator c = false ->
                                Nav2dFlow.stateStr c = Nav2dFlow.fallback_name).
  { intros c Hc. unfold Nav2dFlow.is_enumerator in Hc.
    unfold Nav2dFlow.stateStr, Nav2dFlow.IDLE, Nav2dFlow.PATH_RECORDING,
      Nav2dFlow.PATH_PLANNING, Nav2dFlow.NAVIGATING.
    destruct (Z.eqb_spec c 0); [subst; discriminate Hc|].
    destruct (Z.eqb_spec c 1); [subst; discriminate Hc|].
    destruct (Z.eqb_spec c 2); [subst; discriminate Hc|].
    destruct (Z.eqb_spec c 3); [subst; discriminate Hc|].
    reflexivity. }
  assert (Ha : a = 0%Z \/ a = 1%Z \/ a = 2%Z \/ a = 3%Z).
  { unfold Nav2dFlow.is_enumerator in Henum.
    apply andb_prop in Henum. destruct Henum as [Hlow Hhigh].
    apply Z.leb_le in Hlow. apply Z.leb_le in Hhigh. lia. }
  split; [|split; [|exact Hfallback]].
  - destruct (Nav2dFlow.is_enumerator b) eqn:Hb.
    + assert (Hb' : b = 0%Z \/ b = 1%Z \/ b = 2%Z \/ b = 3%Z).
      { unfold Nav2dFlow.is_enumerator in Hb.
        apply andb_prop in Hb. destruct Hb as [Hlow Hhigh].
        apply Z.leb_le in Hlow. apply Z.leb_le in Hhigh. lia. }
      destruct Ha as [-> | [-> | [-> | ->]]];
        destruct Hb' as [-> | [-> | [-> | ->]]];
        first [reflexivity | discriminate Hname].
    + rewrite (Hfallback b Hb) in Hname.
      destruct Ha as [-> | [-> | [-> | ->]]]; discriminate Hname.
  - destruct Ha as [-> | [-> | [-> | ->]]]; discriminate.
Qed.

Lemma stateStr_identifies_state_witness :
  Nav2dFlow.is_enumerator 0%Z = true
  /\ Nav2dFlow.stateStr 0%Z = Nav2dFlow.stateStr Nav2dFlow.IDLE
  /\ 0%Z = Nav2dFlow.IDLE
  /\ Nav2dFlow.stateStr 7%Z = Nav2dFlow.fallback_name.
Proof.
  split; [reflexivity|]. split; [reflexivity|].
  destruct (stateStr_identifies_state 0%Z Nav2dFlow.IDLE eq_refl eq_refl)
    as [Heq [_ Hfallback]].
  split; [exact Heq|]. exact (Hfallback 7%Z eq_refl).
Defined.

(** ** The size contract of the reprojection errors *)

Lemma ofold_process_camera_cols (h : OpenvinsLocalizationHandler)
  (r : LocalizationResult) (T_G_I_filter : Transformation)
  (l : list nat) (acc acc' : ReprojectionAcc) :
  ofold (process_camera h r T_G_I_filter) l acc = Ok acc' ->
  forall cam_idx,
    In cam_idx l ->
    length (nth cam_idx (G_landmarks_per_camera r) [])
    = length (nth cam_idx (keypoint_measurements_per_camera r) []).
Proof.
  revert acc. induction l as [|i l IH]; intros acc Hrun cam_idx Hin.
  - inversion Hin.
  - simpl in Hrun.
    destruct (process_camera h r T_G_I_filter acc i) as [|acc1] eqn:Hstep;
      simpl in Hrun; [discriminate|].
    destruct Hin as [<- | Hin]; [|exact (IH acc1 Hrun cam_idx Hin)].
    unfold process_camera in Hstep.
    destruct (Nat.eqb_spec
                (length (nth i (G_landmarks_per_camera r) []))
                (length (nth i (keypoint_measurements_per_camera r) [])))
      as [Hcols | _]; [exact Hcols | discriminate].
Qed.

(** X19: [getLocalizationReprojectionErrors] returns only for a result
    that respects the size contract: as many landmark matrices as keypoint
    matrices and as calibrated cameras, and in every camera, used by
    OpenVINS or not, as many landmarks as keypoints; any violation aborts
    the process. *)
Theorem reprojection_errors_size_contract
  (h : OpenvinsLocalizationHandler) (r : LocalizationResult)
  (T_G_I_filter : Transformation) (rate : R) (lc fl : list R) :
  getLocalizationReprojectionErrors h r T_G_I_filter = Ok (rate, lc, fl) ->
  length (G_landmarks_per_camera r)
  = length (keypoint_measurements_per_camera r)
  /\ length (G_landmarks_per_camera r) = numCameras (camera_calibration_ h)
  /\ forall cam_idx,
       (cam_idx < length (G_landmarks_per_camera r))%nat ->
       length (nth cam_idx (G_landmarks_per_camera r) [])
       = length (nth cam_idx (keypoint_measurements_per_camera r) []).
Proof.
  unfold getLocalizationReprojectionErrors.
  destruct (Nat.eqb_spec (length (G_landmarks_per_camera r))
              (length (keypoint_measurements_per_camera r)))
    as [Hsizes | _]; simpl; [|discriminate].
  destruct (Nat.eqb_spec (length (G_landmarks_per_camera r))
              (numCameras (camera_calibration_ h)))
    as [Hcams | _]; simpl; [|discriminate].
  destruct (ofold _ _ _) as [|acc] eqn:Hloop; simpl; [discriminate|].
  intros _. repeat split; try assumption.
  intros cam_idx Hidx.
  apply (ofold_process_camera_cols _ _ _ _ _ _ Hloop).
  apply in_seq. lia.
Qed.

Lemma reprojection_errors_size_contract_witness :
  getLocalizationReprojectionErrors (Demo.handler kLocalized [])
    Demo.result_150 T_identity
  = Ok (Demo.rate, Demo.residuals, Demo.residuals)
  /\ length (G_landmarks_per_camera Demo.result_150)
     = numCameras (camera_calibration_ (Demo.handler kLocalized [])).
Proof.
  split; [reflexivity|].
  destruct (reprojection_errors_size_contract (Demo.handler kLocalized [])
              Demo.result_150 T_identity Demo.rate Demo.residuals
              Demo.residuals eq_refl) as [_ [Hcams _]].
  exact Hcams.
Defined.
